(** * ayon-gaffer: a shallow embedding of the host-integration helpers

    The development follows the layout of the Python package:

    - [Py]        the fragment of Python (strings, values) the helpers rely on;
    - [Lib]       [ayon_gaffer/api/lib.py];
    - [Pipeline]  [ayon_gaffer/api/pipeline.py];
    - [LoadScene] [ayon_gaffer/plugins/load/load_scene.py].

    Host objects (script, nodes, plugs) are modelled as explicit state that is
    threaded through the functions that mutate them. *)

From Stdlib Require Import ZArith NArith Lia Bool Ascii String List.
From Stdlib Require Import DecimalString DecimalFacts DecimalN.
From stdpp Require Import base option list strings gmap.

Set Warnings "-register-all".

Open Scope string_scope.
Open Scope list_scope.

(* ===================================================================== *)
(** * Python strings *)
(* ===================================================================== *)

Module Py.

(** [sep.join(items)] for a one-character separator. *)
Fixpoint join (sep : ascii) (items : list string) : string :=
  match items with
  | [] => ""
  | [x] => x
  | x :: rest => x +:+ String sep (join sep rest)
  end.

(** [s.split(sep)] for a one-character separator: the empty string splits
    into one empty field. *)
Fixpoint split (sep : ascii) (s : string) : list string :=
  match s with
  | "" => [""]
  | String c s' =>
      if Ascii.eqb c sep then "" :: split sep s'
      else match split sep s' with
           | field :: fields => String c field :: fields
           | [] => [String c ""]
           end
  end.

(** [c in s] for a character. *)
Fixpoint contains_char (c : ascii) (s : string) : bool :=
  match s with
  | "" => false
  | String d s' => Ascii.eqb d c || contains_char c s'
  end.

(** [x in items] on a list of strings. *)
Definition str_in (x : string) (items : list string) : bool :=
  existsb (String.eqb x) items.

(** [s.rstrip(c)]: [s] without its trailing run of the character [c]. *)
Fixpoint rstrip (c : ascii) (s : string) : string :=
  match s with
  | "" => ""
  | String d s' =>
      match rstrip c s' with
      | "" => if Ascii.eqb d c then "" else String d ""
      | kept => String d kept
      end
  end.

(** The longest prefix whose characters satisfy [p], and the rest. *)
Fixpoint span (p : ascii -> bool) (s : string) : string * string :=
  match s with
  | "" => ("", "")
  | String c s' =>
      if p c then let '(run, rest) := span p s' in (String c run, rest)
      else ("", s)
  end.

(** [s.startswith(pre)], returning what follows the prefix. *)
Fixpoint strip_prefix (pre s : string) : option string :=
  match pre, s with
  | "", _ => Some s
  | String a pre', String b s' =>
      if Ascii.eqb a b then strip_prefix pre' s' else None
  | String _ _, "" => None
  end.

Definition in_range (lo hi c : ascii) : bool :=
  (nat_of_ascii lo <=? nat_of_ascii c)%nat &&
  (nat_of_ascii c <=? nat_of_ascii hi)%nat.

(** The character class [[0-9]]. *)
Definition is_digit (c : ascii) : bool := in_range "0" "9" c.

(** The character class [[a-zA-Z0-9_]]. *)
Definition is_word (c : ascii) : bool :=
  in_range "a" "z" c || in_range "A" "Z" c || is_digit c || Ascii.eqb c "_".

(** The class matched by [.] : anything but a line feed. *)
Definition is_dot (c : ascii) : bool := negb (Ascii.eqb c "010").

(** [int(s)] for a string of decimal digits. *)
Definition int_of_digits (s : string) : N :=
  match DecimalString.NilEmpty.uint_of_string s with
  | Some digits => N.of_uint digits
  | None => 0
  end.

(** [str(n)] for a natural number. *)
Definition str_of_N (n : N) : string :=
  DecimalString.NilEmpty.string_of_uint (N.to_uint n).

(** [s.zfill(width)] for a string without a sign. *)
Definition zfill (width : nat) (s : string) : string :=
  string_of_list_ascii (repeat "0"%char (width - String.length s)) +:+ s.

(** [sorted(items, reverse=True)] on strings, by insertion. *)
Fixpoint insert_desc (x : string) (sorted : list string) : list string :=
  match sorted with
  | [] => [x]
  | y :: rest =>
      if String.ltb x y then y :: insert_desc x rest else x :: sorted
  end.

Definition sort_desc (items : list string) : list string :=
  fold_right insert_desc [] items.

(** Exceptions the helpers raise or let through. *)
Inductive exn : Type :=
| RuntimeError (msg : string)
| TypeError (msg : string)
| KeyError (key : string)
| ValueError (msg : string)
| AttributeError (attr : string)
| UnboundLocalError (var : string).

(** The outcome of a call: a value, or a raised exception. *)
Inductive result (A : Type) : Type :=
| Ok (a : A)
| Raise (e : exn).
Arguments Ok {A} a.
Arguments Raise {A} e.

#[export] Instance result_ret : MRet result := fun A a => Ok a.
#[export] Instance result_bind : MBind result := fun A B f m =>
  match m with
  | Ok a => f a
  | Raise e => Raise e
  end.
#[export] Instance result_fmap : FMap result := fun A B f m =>
  match m with
  | Ok a => Ok (f a)
  | Raise e => Raise e
  end.

Section Lists.
Context {A B : Type}.

(** Runs [f] over a list, up to the first exception. *)
Fixpoint mapM (f : A -> result B) (items : list A) : result (list B) :=
  match items with
  | [] => Ok []
  | x :: rest =>
      y ← f x;
      ys ← mapM f rest;
      Ok (y :: ys)
  end.

(** [P] holds of every item. *)
Fixpoint All (P : A -> Prop) (items : list A) : Prop :=
  match items with
  | [] => True
  | x :: rest => P x /\ All P rest
  end.

Fixpoint sum_of (f : A -> nat) (items : list A) : nat :=
  match items with
  | [] => 0
  | x :: rest => f x + sum_of f rest
  end.

End Lists.

(** The Python values that cross the helpers.  A float is kept as the bit
    pattern of its double; [PyObj] is a reference to a host object. *)
Inductive value : Type :=
| PyNone
| PyStr (s : string)
| PyBool (b : bool)
| PyInt (z : Z)
| PyFloat (bits : Z)
| PyList (items : list value)
| PyDict (items : list (value * value))
| PyObj (id : nat).

(** The entry of a string key among the items of a dict. *)
Fixpoint dict_get (key : string) (items : list (value * value)) : option value :=
  match items with
  | [] => None
  | (PyStr k, v) :: rest =>
      if String.eqb k key then Some v else dict_get key rest
  | _ :: rest => dict_get key rest
  end.

(** [value[key]] for a string key: [KeyError] when the key is missing,
    [TypeError] when the value is not a dict. *)
Definition getitem (v : value) (key : string) : result value :=
  match v with
  | PyDict items =>
      match dict_get key items with
      | Some x => Ok x
      | None => Raise (KeyError key)
      end
  | _ => Raise (TypeError "not subscriptable")
  end.

(** [s.replace(a, b)] for single characters. *)
Fixpoint replace_char (a b : ascii) (s : string) : string :=
  match s with
  | "" => ""
  | String c s' =>
      String (if Ascii.eqb c a then b else c) (replace_char a b s')
  end.

(** A record handed to the logger. *)
Inductive level : Type := DEBUG | INFO | WARNING | ERROR.
Record log_record : Type :=
  { log_level : level; log_message : string; log_args : list value }.

End Py.

(* ===================================================================== *)
(** * The host: Gaffer scripts, nodes and plugs *)
(* ===================================================================== *)

Module Gaffer.
Import Py.

(** A plug is named by the node that owns it (the identity of the node
    object) and by its path of names below that node. *)
Definition PlugId : Type := nat * list string.

(** The typed plugs the helpers create and read, each with its default and
    its current value; every other plug (compound plugs, scene plugs) has no
    value of its own. *)
Inductive PlugData : Type :=
| StringPlug (defaultValue current : string)
| BoolPlug (defaultValue current : bool)
| FloatPlug (defaultValue current : Z)
| IntPlug (defaultValue current : Z)
| CompoundPlug.

Record Plug : Type :=
  { plug_data : PlugData;
    plug_flags : Z;
    plug_input : option PlugId;
    plug_metadata : list (string * string) }.

(** [plug.getValue()]; a plug without a value has no such method. *)
Definition getValue (plug : Plug) : result value :=
  match plug_data plug with
  | StringPlug _ v => Ok (PyStr v)
  | BoolPlug _ v => Ok (PyBool v)
  | FloatPlug _ v => Ok (PyFloat v)
  | IntPlug _ v => Ok (PyInt v)
  | CompoundPlug => Raise (AttributeError "getValue")
  end.

(** The plugs below a node (or below the script), each under its path, in
    the order in which a walk over the children lists them: a plug comes
    before its own children and after its elder siblings. *)
Definition Plugs : Type := list (list string * Plug).

Fixpoint is_prefix (pre path : list string) : bool :=
  match pre, path with
  | [], _ => true
  | a :: pre', b :: path' => String.eqb a b && is_prefix pre' path'
  | _ :: _, [] => false
  end.

Definition path_eqb (a b : list string) : bool :=
  is_prefix a b && is_prefix b a.

(** [parent.descendant(path)], or [None]. *)
Fixpoint find_plug (path : list string) (plugs : Plugs) : option Plug :=
  match plugs with
  | [] => None
  | (q, plug) :: rest =>
      if path_eqb path q then Some plug else find_plug path rest
  end.

(** [name in parent] for the plug at [path]. *)
Definition has_plug (path : list string) (plugs : Plugs) : bool :=
  match find_plug path plugs with
  | Some _ => true
  | None => false
  end.

(** [parent[name]] for the plug [parent] (the node itself when [parent] is
    empty): [KeyError] when there is no such child. *)
Definition getitem_plug (parent : list string) (name : string) (plugs : Plugs)
    : result Plug :=
  match find_plug (parent ++ [name]) plugs with
  | Some plug => Ok plug
  | None => Raise (KeyError name)
  end.

(** Writes [plug] over the plug at [path]. *)
Fixpoint store_plug (path : list string) (plug : Plug) (plugs : Plugs) : Plugs :=
  match plugs with
  | [] => []
  | (q, old) :: rest =>
      if path_eqb path q then (q, plug) :: rest
      else (q, old) :: store_plug path plug rest
  end.

(** [parent.removeChild(child)]: the plug at [path] goes with all below it. *)
Definition remove_plug (path : list string) (plugs : Plugs) : Plugs :=
  List.filter (fun entry => negb (is_prefix path (fst entry))) plugs.

(** [parent.addChild(plug)] under the name [name]: the new plug comes after
    everything that is below [parent] already. *)
Fixpoint add_plug_walk (parent : list string) (entry : list string * Plug)
    (plugs : Plugs) : Plugs :=
  match plugs with
  | [] => [entry]
  | e :: rest =>
      if existsb (fun e' => is_prefix parent (fst e')) rest
      then e :: add_plug_walk parent entry rest
      else e :: entry :: rest
  end.

Definition add_plug (parent : list string) (name : string) (plug : Plug)
    (plugs : Plugs) : Plugs :=
  if existsb (fun e => is_prefix parent (fst e)) plugs
  then add_plug_walk parent (parent ++ [name], plug) plugs
  else plugs ++ [(parent ++ [name], plug)].

(** [parent[name] = plug]: a child of that name is removed first. *)
Definition setitem_plug (parent : list string) (name : string) (plug : Plug)
    (plugs : Plugs) : Plugs :=
  add_plug parent name plug (remove_plug (parent ++ [name]) plugs).

(** A node: the identity of the object, its name and its plugs. *)
Record Node : Type :=
  { node_id : nat;
    node_name : string;
    node_plugs : Plugs }.

(** The root script: its full name, its own plugs and the nodes that are
    its direct children. *)
Record ScriptNode : Type :=
  { script_fullName : string;
    script_plugs : Plugs;
    script_nodes : list Node }.

(** A node object of the script was changed in place: the script holds the
    changed node where it held the node. *)
Fixpoint store_node (node : Node) (nodes : list Node) : list Node :=
  match nodes with
  | [] => []
  | n :: rest =>
      if Nat.eqb (node_id n) (node_id node) then node :: rest
      else n :: store_node node rest
  end.

Definition with_nodes (nodes : list Node) (script : ScriptNode) : ScriptNode :=
  {| script_fullName := script_fullName script;
     script_plugs := script_plugs script;
     script_nodes := nodes |}.

(** The node object [id] among the children of the script. *)
Fixpoint find_node (id : nat) (nodes : list Node) : option Node :=
  match nodes with
  | [] => None
  | n :: rest => if Nat.eqb (node_id n) id then Some n else find_node id rest
  end.

(** The plug that a [PlugId] names. *)
Definition plug_at (nodes : list Node) (p : PlugId) : option Plug :=
  match find_node (fst p) nodes with
  | Some node => find_plug (snd p) (node_plugs node)
  | None => None
  end.

(** [plug.getInput()] for the plug that [p] names. *)
Definition getInput (nodes : list Node) (p : PlugId) : option PlugId :=
  match plug_at nodes p with
  | Some plug => plug_input plug
  | None => None
  end.

Definition plug_with_input (input : option PlugId) (plug : Plug) : Plug :=
  {| plug_data := plug_data plug; plug_flags := plug_flags plug;
     plug_input := input; plug_metadata := plug_metadata plug |}.

Definition node_with_plugs (plugs : Plugs) (node : Node) : Node :=
  {| node_id := node_id node; node_name := node_name node;
     node_plugs := plugs |}.

(** [plug.setInput(input)] for the plug that [p] names; the host is taken to
    accept the connection. *)
Definition setInput (p : PlugId) (input : option PlugId) (nodes : list Node)
    : list Node :=
  map (fun node =>
         if Nat.eqb (node_id node) (fst p)
         then node_with_plugs
                (map (fun entry =>
                        if path_eqb (snd p) (fst entry)
                        then (fst entry, plug_with_input input (snd entry))
                        else entry)
                     (node_plugs node))
                node
         else node)
      nodes.

Definition PlugId_eqb (a b : PlugId) : bool :=
  Nat.eqb (fst a) (fst b) && path_eqb (snd a) (snd b).

(** [plug.outputs()] for the plug that [p] names: the plugs of the script
    that take their input from it. *)
Definition outputs (nodes : list Node) (p : PlugId) : list PlugId :=
  flat_map (fun node =>
              flat_map (fun entry =>
                          match plug_input (snd entry) with
                          | Some src =>
                              if PlugId_eqb src p
                              then [(node_id node, fst entry)] else []
                          | None => []
                          end)
                       (node_plugs node))
           nodes.

(** [parent.removeChild(node)] on the script: the node goes, and with it the
    connections between its plugs and the plugs that stay. *)
Definition removeChild (id : nat) (nodes : list Node) : list Node :=
  map (fun node =>
         node_with_plugs
           (map (fun entry =>
                   match plug_input (snd entry) with
                   | Some src =>
                       if Nat.eqb (fst src) id
                       then (fst entry, plug_with_input None (snd entry))
                       else entry
                   | None => entry
                   end)
                (node_plugs node))
           node)
      (List.filter (fun node => negb (Nat.eqb (node_id node) id)) nodes).

(** [node.setName(name)], for a name that no other child of the script has. *)
Definition setName (id : nat) (name : string) (nodes : list Node) : list Node :=
  map (fun node =>
         if Nat.eqb (node_id node) id
         then {| node_id := node_id node; node_name := name;
                 node_plugs := node_plugs node |}
         else node)
      nodes.

(** [node.fullName()] for a direct child of the script. *)
Definition fullName (script : ScriptNode) (node : Node) : string :=
  script_fullName script +:+ "." +:+ node_name node.

(** What the helpers take from outside the package: the constants and calls
    of the host application, of the pipeline framework and of the Python
    library.  A call that can raise returns a [result]. *)
Record Host : Type :=
  { AYON_CONTAINER_ID : string;
    AVALON_CONTAINER_ID : string;
    Flags_Default : Z;
    Flags_Dynamic : Z;
    Flags_Serialisable : Z;
    (** [plug.setValue(value)] *)
    setValue : Plug -> value -> result Plug;
    (** [str(value)] *)
    str : value -> string;
    (** [json.dumps(value)] and [json.loads(text)] *)
    json_dumps : value -> result string;
    json_loads : string -> result value;
    (** [os.path.exists(path)] *)
    path_exists : string -> bool;
    (** [script.load()] *)
    load : ScriptNode -> ScriptNode * result unit;
    (** [self.work_root(os.environ)] and [self.get_current_context()] *)
    work_root : result string;
    get_current_context : result value;
    (** [get_representation_path(representation)] *)
    get_representation_path : value -> result string }.

End Gaffer.


(* ===================================================================== *)
(** * lib.py *)
(* ===================================================================== *)

Module Lib.
Import Gaffer.

Definition comma : ascii := ","%char.

(** [append_to_csv_plug(plug, value_to_add, allow_duplicates)].  The plug is
    a string plug; its state is the string it holds.  The function reads the
    value, edits the list of fields and writes the joined list back. *)
Definition append_to_csv_plug (plug : string) (value_to_add : string)
    (allow_duplicates : bool) : string :=
  let current_value := plug in
  let value_list := Py.split comma current_value in
  let value_list :=
    if allow_duplicates then value_list ++ [value_to_add]
    else if negb (Py.str_in value_to_add value_list)
         then value_list ++ [value_to_add]
         else value_list in
  Py.join comma value_list.

(** ** [get_next_valid_name] *)

(** One attempt of the template pattern at the start of [s]: a run of word
    characters [a-zA-Z0-9_] (group 1), one or more [#] (group 2), a run of word
    characters (group 3).
    The first group is greedy; giving characters back cannot help, because
    a word character is never a [#]. *)
Definition match_template_at (s : string) : option (string * string * string) :=
  let '(head, rest) := Py.span Py.is_word s in
  let '(padding, rest) := Py.span (Ascii.eqb "#") rest in
  match padding with
  | "" => None
  | _ => let '(tail, _) := Py.span Py.is_word rest in
         Some (head, padding, tail)
  end.

(** [re.search] of that pattern: the leftmost start that matches. *)
Fixpoint search_template (s : string) : option (string * string * string) :=
  match match_template_at s with
  | Some groups => Some groups
  | None => match s with
            | "" => None
            | String _ s' => search_template s'
            end
  end.

(** What is left of [s] once [head] is matched: some run of [.] characters followed by
    [tail] (the pattern is not anchored at its end). *)
Fixpoint dot_star_then (tail s : string) : bool :=
  match Py.strip_prefix tail s with
  | Some _ => true
  | None => match s with
            | "" => false
            | String c s' => Py.is_dot c && dot_star_then tail s'
            end
  end.

(** [re.match] of [head], any characters, then [tail], against a name, for [head] and [tail] made of word
    characters, which stand for themselves in a pattern. *)
Definition match_head_tail (head tail name : string) : bool :=
  match Py.strip_prefix head name with
  | Some rest => dot_star_then tail rest
  | None => false
  end.

(** Underscores, then one or more digits, at the start of [s]: the digits. *)
Definition match_number_at (s : string) : option string :=
  let '(_, rest) := Py.span (Ascii.eqb "_") s in
  let '(digits, _) := Py.span Py.is_digit rest in
  match digits with
  | "" => None
  | _ => Some digits
  end.

(** The number pattern tried at the start of [s]: any characters (group 1),
    underscores, one or more digits (group 2), any characters.  Group 1 is greedy,
    so the longest run of [.] characters is tried first and shorter ones
    after it.  The result is the second group. *)
Fixpoint match_greedy_number (s : string) : option string :=
  match s with
  | "" => match_number_at s
  | String c s' =>
      if Py.is_dot c then
        match match_greedy_number s' with
        | Some digits => Some digits
        | None => match_number_at s
        end
      else match_number_at s
  end.

(** [re.search] of the number pattern in a name, giving group 2. *)
Fixpoint search_number (s : string) : option string :=
  match match_greedy_number s with
  | Some digits => Some digits
  | None => match s with
            | "" => None
            | String _ s' => search_number s'
            end
  end.

(** [get_next_valid_name(template, script_node)]; [children] are the names of
    [script_node.children()], in order.  The call to [print] is left out. *)
Definition get_next_valid_name (template : string) (children : list string)
    : Py.result string :=
  let '(head, padding, tail) :=
    match search_template template with
    | Some groups => groups
    | None => (template, "", "")
    end in
  match padding with
  | "" => Py.Ok (head +:+ "" +:+ tail)
  | _ =>
      let pad_len := String.length padding in
      let ex_names := List.filter (match_head_tail head tail) children in
      let ex_names := Py.sort_desc ex_names in
      let next_number :=
        match ex_names with
        | [] => Some 1%N
        | last_name :: _ =>
            match search_number last_name with
            | Some digits => Some (Py.int_of_digits digits + 1)%N
            | None => None
            end
        end in
      match next_number with
      | Some n => Py.Ok (head +:+ Py.zfill pad_len (Py.str_of_N n) +:+ tail)
      | None => Py.Raise (Py.UnboundLocalError "next_number")
      end
  end.

(** ** [traverse_scene] *)

(** A scene plug, as far as the traversal sees it: the names of the children
    of a location, [scene_plug.childNames(path)]. *)
Record ScenePlug : Type := { childNames : string -> list string }.

(** The path of a child, as the f-string of the inner loop builds it. *)
Definition child_path (path child_name : string) : string :=
  Py.rstrip "/" path +:+ "/" +:+ child_name.

(** The [while] loop over the queue.  Every turn takes the path at the front,
    yields it and puts the paths of its children at the back, one by one.
    The generator is modelled by the list of what it yields; [fuel] bounds
    the number of turns and [None] says that it ran out. *)
Fixpoint traverse_loop (scene_plug : ScenePlug) (fuel : nat)
    (queue : list string) : option (list string) :=
  match queue with
  | [] => Some []
  | path :: queue =>
      match fuel with
      | O => None
      | S fuel =>
          let queue :=
            fold_left (fun q child_name => q ++ [child_path path child_name])
                      (childNames scene_plug path) queue in
          cons path <$> traverse_loop scene_plug fuel queue
      end
  end.

(** [traverse_scene(scene_plug, root)]. *)
Definition traverse_scene (scene_plug : ScenePlug) (fuel : nat)
    (root : string) : option (list string) :=
  traverse_loop scene_plug fuel [root].

(** ** [replace_node] *)

Section WithHost.
Variable host : Host.

(** [bool(plug.getFlags() & Gaffer.Plug.Flags.Serialisable)] *)
Definition serialisable (plug : Plug) : bool :=
  negb (Z.eqb (Z.land (plug_flags plug) (Flags_Serialisable host)) 0).

(** [get_all_plugs(in_node, thelist)], with non-serialisable plugs included:
    every plug below the node, each before its own children.  That is the
    order in which the plugs of a node are kept. *)
Definition get_all_plugs (in_node : Node) : Plugs := node_plugs in_node.

(** [plug.relativeName(node)] *)
Definition relativeName (path : list string) : string := Py.join "." path.

(** The map of one plug: the inputs and the outputs that lie outside the
    node. *)
Record plugmap : Type := { plug_in : list PlugId; plug_out : list PlugId }.

(** [get_node_connections(node)], with non-serialisable plugs left out. *)
Definition get_node_connections (nodes : list Node) (node : Node)
    : list (string * plugmap) :=
  flat_map
    (fun entry =>
       let '(path, plug) := entry in
       let the_input := plug_input plug in
       let outs := outputs nodes (node_id node, path) in
       if negb (serialisable plug) then []
       else
         let ins :=
           match the_input with
           | Some src => if Nat.eqb (fst src) (node_id node) then [] else [src]
           | None => []
           end in
         let outs' :=
           List.filter (fun o => negb (Nat.eqb (fst o) (node_id node))) outs in
         match the_input, outs with
         | None, [] => []
         | _, _ =>
             match ins, outs' with
             | [], [] => []
             | _, _ =>
                 [(relativeName path, {| plug_in := ins; plug_out := outs' |})]
             end
         end)
    (get_all_plugs node).

(** The walk from a node down the parts of a relative name, by
    [getChild]: the path of the plug that is reached, or [None]. *)
Definition descendant (plugs : Plugs) (parts : list string)
    : option (list string) :=
  fold_left
    (fun reached part =>
       match reached with
       | Some path =>
           if has_plug (path ++ [part]) plugs then Some (path ++ [part])
           else None
       | None => None
       end)
    parts (Some []).

(** The plug of the new node under the relative name [src], or [None]. *)
Definition source_plug (new_id : nat) (nodes : list Node) (src : string)
    : option PlugId :=
  match find_node new_id nodes with
  | Some new_node =>
      match descendant (node_plugs new_node) (Py.split "." src) with
      | Some path => Some (new_id, path)
      | None => None
      end
  | None => None
  end.

(** The rewiring for one entry of the connections. *)
Definition rewire (new_id : nat) (nodes : list Node)
    (connection : string * plugmap) : list Node :=
  let '(src, pluginfo) := connection in
  let source_plug := source_plug new_id nodes src in
  let nodes :=
    fold_left (fun nodes plug =>
                 match source_plug with
                 | Some target => setInput target (Some plug) nodes
                 | None => nodes
                 end)
              (plug_in pluginfo) nodes in
  fold_left (fun nodes plug => setInput plug source_plug nodes)
            (plug_out pluginfo) nodes.

(** The values that are carried over: the plugs of the old node that are not
    ignored, are serialisable and give a value. *)
Definition plug_data_of (ignore_plug_names : list string) (old_node : Node)
    : list (list string * Plug * Py.value) :=
  flat_map
    (fun entry =>
       let '(path, plug) := entry in
       if Py.str_in (List.last path "") ignore_plug_names then []
       else if negb (serialisable plug) then []
       else match getValue plug with
            | Py.Ok v => [(path, plug, v)]
            | Py.Raise _ => []
            end)
    (get_all_plugs old_node).

(** [copy_plug(plug, destination_node)]: a plug of the same type, default
    and flags, without an input, under the parent of the same relative
    name; nothing is added when that parent is missing. *)
Definition copy_plug (path : list string) (plug : Plug) (plugs : Plugs) : Plugs :=
  let parent := removelast path in
  if forallb (fun k => has_plug (firstn (S k) parent) plugs)
             (seq 0 (length parent))
  then add_plug parent (List.last path "")
         {| plug_data :=
              match plug_data plug with
              | StringPlug d _ => StringPlug d d
              | BoolPlug d _ => BoolPlug d d
              | FloatPlug d _ => FloatPlug d d
              | IntPlug d _ => IntPlug d d
              | CompoundPlug => CompoundPlug
              end;
            plug_flags := plug_flags plug;
            plug_input := None;
            plug_metadata := plug_metadata plug |}
         plugs
  else plugs.

(** The loop over the carried values, on the plugs of the new node.  The
    relative name of a plug is taken to be its path below the node. *)
Definition carry_value (plugs : Plugs) (item : list string * Plug * Py.value)
    : Plugs :=
  let '(path, plug, v) := item in
  match descendant plugs path with
  | None => copy_plug path plug plugs
  | Some target_path =>
      match find_plug target_path plugs with
      | Some target_plug =>
          if negb (serialisable target_plug) then plugs
          else match setValue host target_plug v with
               | Py.Ok plug' => store_plug target_path plug' plugs
               | Py.Raise _ => plugs
               end
      | None => plugs
      end
  end.

Definition carry_values (new_id : nat)
    (items : list (list string * Plug * Py.value)) (nodes : list Node)
    : list Node :=
  map (fun node =>
         if Nat.eqb (node_id node) new_id
         then node_with_plugs (fold_left carry_value items (node_plugs node)) node
         else node)
      nodes.

(** [replace_node(old_node, new_node, ignore_plug_names)]; both nodes are
    children of the script and are given by the identity of their objects.
    The debug log is left out, and so is the last loop, which writes
    [False], [True] and the former value to the [enabled] plug of the nodes
    upstream and so leaves every plug as it was. *)
Definition replace_node (script : ScriptNode) (old_id new_id : nat)
    (ignore_plug_names : list string) : Py.result ScriptNode :=
  match find_node old_id (script_nodes script),
        find_node new_id (script_nodes script) with
  | Some old_node, Some new_node =>
      let ignore_plug_names := ignore_plug_names ++ ["globals"] in
      let plug_data := plug_data_of ignore_plug_names old_node in
      (* first store old connections *)
      let connections := get_node_connections (script_nodes script) old_node in
      let nodes := fold_left (rewire new_id) connections (script_nodes script) in
      let nodes := carry_values new_id plug_data nodes in
      let old_name := node_name old_node in
      let nodes := removeChild old_id nodes in
      let nodes := setName new_id old_name nodes in
      Py.Ok (with_nodes nodes script)
  | _, _ => Py.Raise (Py.AttributeError "scriptNode")
  end.

End WithHost.

End Lib.

(* ===================================================================== *)
(** * pipeline.py *)
(* ===================================================================== *)

Module Pipeline.
Import Py Gaffer.

Section WithHost.
Variable host : Host.

(** A prefix used for storing JSON blobs in string plugs. *)
Definition JSON_PREFIX : string := "JSON:::".

(** [GafferHost._context_plug] *)
Definition _context_plug : string := "ayon_context".

(** ** [GafferHost.get_containers] *)

Definition required : list string :=
  ["schema"; "id"; "name"; "namespace"; "representation"; "loader"].

(** A container: the dict that [get_containers] yields, in insertion order. *)
Definition Container : Type := list (string * value).

(** [container[key]] *)
Fixpoint container_get (key : string) (container : Container) : result value :=
  match container with
  | [] => Raise (KeyError key)
  | (k, v) :: rest =>
      if String.eqb k key then Ok v else container_get key rest
  end.

(** [v in {AYON_CONTAINER_ID, AVALON_CONTAINER_ID}] *)
Definition is_container_id (v : value) : bool :=
  match v with
  | PyStr s =>
      String.eqb s (AYON_CONTAINER_ID host) ||
      String.eqb s (AVALON_CONTAINER_ID host)
  | _ => false
  end.

(** The dict comprehension over [required]. *)
Fixpoint read_keys (user : Plugs) (keys : list string)
    : result (list (string * value)) :=
  match keys with
  | [] => Ok []
  | key :: keys =>
      plug ← getitem_plug ["user"] key user;
      v ← getValue plug;
      rest ← read_keys user keys;
      Ok ((key, v) :: rest)
  end.

(** The body of the loop for one node: [None] stands for [continue]. *)
Definition container_of (script : ScriptNode) (node : Node)
    : result (option Container) :=
  if negb (has_plug ["user"] (node_plugs node)) then Ok None
  else
    let user := node_plugs node in
    if existsb (fun key => negb (has_plug ["user"; key] user)) required
    then Ok None
    else
      id_plug ← getitem_plug ["user"] "id" user;
      id ← getValue id_plug;
      if negb (is_container_id id) then Ok None
      else
        container ← read_keys user required;
        let container := container ++ [("objectName", PyStr (fullName script node))] in
        let container := container ++ [("_node", PyObj (node_id node))] in
        Ok (Some container).

(** The loop over the children, run to its end: all the containers, or the
    exception that has ended the run. *)
Fixpoint get_containers_loop (script : ScriptNode) (nodes : list Node)
    : result (list Container) :=
  match nodes with
  | [] => Ok []
  | node :: nodes =>
      found ← container_of script node;
      rest ← get_containers_loop script nodes;
      Ok (match found with
          | Some container => container :: rest
          | None => rest
          end)
  end.

(** [GafferHost.get_containers()], for the root script [script], as a
    caller meets it who runs the generator to its end, as
    [list(host.get_containers())] does: the list of what it yields, or the
    exception that has ended the run. *)
Definition get_containers (script : ScriptNode) : result (list Container) :=
  get_containers_loop script (script_nodes script).

(** The generator itself, over the children [nodes]: the containers that it
    has yielded when it ends or raises, and the exception that has ended
    it.  What was yielded before an exception has reached the caller. *)
Fixpoint get_containers_yield (script : ScriptNode) (nodes : list Node)
    : list Container * option exn :=
  match nodes with
  | [] => ([], None)
  | node :: nodes =>
      match container_of script node with
      | Raise e => ([], Some e)
      | Ok found =>
          let '(rest, ending) := get_containers_yield script nodes in
          (match found with
           | Some container => container :: rest
           | None => rest
           end, ending)
      end
  end.

(** ** [imprint] and [imprint_container] *)

(** [type(value)], by name, as the warning prints it. *)
Definition type_name (v : value) : string :=
  match v with
  | PyNone => "NoneType"
  | PyStr _ => "str"
  | PyBool _ => "bool"
  | PyInt _ => "int"
  | PyFloat _ => "float"
  | PyList _ => "list"
  | PyDict _ => "dict"
  | PyObj _ => "object"
  end.

Definition FLAGS : Z := Z.lor (Flags_Default host) (Flags_Dynamic host).

(** The chain of [isinstance] tests that picks the plug for a value; the
    message of the exception is cut down to the name of the type. *)
Definition new_plug_data (v : value) : result PlugData :=
  match v with
  | PyStr s => Ok (StringPlug s s)
  | PyBool b => Ok (BoolPlug b b)
  | PyFloat f => Ok (FloatPlug f f)
  | PyInt z => Ok (IntPlug z z)
  | _ => Raise (TypeError ("Unsupported value type: " +:+ type_name v))
  end.

Definition imprint_warning (node : Node) (key : string) (v : value) : log_record :=
  {| log_level := WARNING;
     log_message :=
       "Unable to set %s attribute %s to value %s (%s). " +:+
       "Likely there is a value type mismatch. " +:+
       "Plug will be replaced.";
     log_args := [PyStr (node_name node); PyStr key; v; PyStr (type_name v)] |}.

(** Dict to JSON: a dict is stored as its JSON text after the prefix. *)
Definition dict_to_json (v : value) : result value :=
  match v with
  | PyDict _ => text ← json_dumps host v; Ok (PyStr (JSON_PREFIX +:+ text))
  | _ => Ok v
  end.

(** One turn of the loop of [imprint], for the item [(key, value)]: the node
    and the log go in and come out. *)
Definition imprint_item (section : string) (state : Node * list log_record)
    (item : string * value) : result (Node * list log_record) :=
  let '(node, log) := state in
  let '(key, v) := item in
  v ← dict_to_json v;
  _ ← getitem_plug [] "user" (node_plugs node);
  (* Set existing attribute *)
  let attempt :=
    match find_plug ["user"; key] (node_plugs node) with
    | Some plug =>
        match setValue host plug v with
        | Ok plug' => inl plug'
        | Raise _ => inr (log ++ [imprint_warning node key v])
        end
    | None => inr log
    end in
  match attempt with
  | inl plug' =>
      Ok ({| node_id := node_id node; node_name := node_name node;
             node_plugs := store_plug ["user"; key] plug' (node_plugs node) |},
          log)
  | inr log =>
      let v := match v with PyNone => PyStr "<None>" | _ => v end in
      (* Generate new plug with value as default value *)
      data ← new_plug_data v;
      let plug :=
        {| plug_data := data; plug_flags := FLAGS; plug_input := None;
           plug_metadata :=
             match section with
             | "" => []
             | _ => [("layout:section", section)]
             end |} in
      Ok ({| node_id := node_id node; node_name := node_name node;
             node_plugs := setitem_plug ["user"] key plug (node_plugs node) |},
          log)
  end.

Fixpoint imprint_loop (section : string) (state : Node * list log_record)
    (items : list (string * value)) : result (Node * list log_record) :=
  match items with
  | [] => Ok state
  | item :: items =>
      state ← imprint_item section state item;
      imprint_loop section state items
  end.

(** [imprint(node, data, section)]; [data] is the list of the items of the
    dict, in order.  The node is changed in place: the changed node and the
    log come back, or the exception that ended the call. *)
Definition imprint (node : Node) (data : list (string * value))
    (section : string) : result (Node * list log_record) :=
  imprint_loop section (node, []) data.

(** [imprint_container(node, name, namespace, context, loader)] *)
Definition imprint_container (node : Node) (name namespace context loader : value)
    : result (Node * list log_record) :=
  representation ← getitem context "representation";
  representation_id ← getitem representation "id";
  let data :=
    [("schema", PyStr "openpype:container-2.0");
     ("id", PyStr (AYON_CONTAINER_ID host));
     ("name", PyStr (str host name));
     ("namespace", PyStr (str host namespace));
     ("loader", PyStr (str host loader));
     ("representation", PyStr (str host representation_id))] in
  imprint node data "Ayon".

(** ** Context data *)

(** [GafferHost.update_context_data(data, changes)], on the root script. *)
Definition update_context_data (script : ScriptNode) (data changes : value)
    : result ScriptNode :=
  data_str ← json_dumps host data;
  (* Always override the full plug - even if it already exists *)
  _ ← getitem_plug [] "user" (script_plugs script);
  let plug :=
    {| plug_data := StringPlug data_str data_str;
       plug_flags := FLAGS; plug_input := None; plug_metadata := [] |} in
  Ok {| script_fullName := script_fullName script;
        script_plugs := setitem_plug ["user"] _context_plug plug (script_plugs script);
        script_nodes := script_nodes script |}.

(** [GafferHost.get_context_data()], on the root script. *)
Definition get_context_data (script : ScriptNode) : result value :=
  if has_plug ["user"] (script_plugs script) &&
     has_plug ["user"; _context_plug] (script_plugs script)
  then
    plug ← getitem_plug ["user"] _context_plug (script_plugs script);
    data_str ← getValue plug;
    match data_str with
    | PyStr text => json_loads host text
    | _ => Raise (TypeError "the JSON object must be str")
    end
  else Ok (PyDict []).

(** ** Workfiles *)

(** A method that changes the root script in place: the script comes back
    as the call left it, with the value returned or the exception raised. *)
Definition Method (A : Type) : Type := ScriptNode -> ScriptNode * result A.

(** [script[...][name].setValue(value)] on a plug of the script itself. *)
Definition script_setValue (parent : list string) (name : string)
    (v : result value) : Method unit := fun script =>
  match getitem_plug parent name (script_plugs script) with
  | Raise e => (script, Raise e)
  | Ok plug =>
      match v with
      | Raise e => (script, Raise e)
      | Ok v =>
          match setValue host plug v with
          | Raise e => (script, Raise e)
          | Ok plug' =>
              ({| script_fullName := script_fullName script;
                  script_plugs :=
                    store_plug (parent ++ [name]) plug' (script_plugs script);
                  script_nodes := script_nodes script |}, Ok ())
          end
      end
  end.

(** [GafferHost.update_project_root_directory(script_node)] *)
Definition update_project_root_directory : Method unit := fun script =>
  match getitem_plug [] "variables" (script_plugs script) with
  | Raise e => (script, Raise e)
  | Ok _ =>
      match getitem_plug ["variables"] "projectRootDirectory" (script_plugs script) with
      | Raise e => (script, Raise e)
      | Ok _ =>
          script_setValue ["variables"; "projectRootDirectory"] "value"
            (PyStr <$> work_root host) script
      end
  end.

(** [GafferHost.update_root_context_variables(script_node)].  The call goes
    to [ayon_gaffer.api.lib.update_root_context_variables]; lib.py defines no
    such function, and the attribute of the module is looked up before the
    arguments are evaluated. *)
Definition update_root_context_variables : Method unit := fun script =>
  match get_current_context host with
  | Raise e => (script, Raise e)
  | Ok ctxt => (script, Raise (AttributeError "update_root_context_variables"))
  end.

(** [GafferHost._on_scene_new(script_container, script_node)].  No statement
    after the second call is reached. *)
Definition _on_scene_new : Method unit := fun script =>
  match update_project_root_directory script with
  | (script, Raise e) => (script, Raise e)
  | (script, Ok _) => update_root_context_variables script
  end.

(** [GafferHost.open_workfile(filepath)].  [root] is what [get_root()]
    returns: [None] until [set_root] is called. *)
Definition open_workfile (root : option ScriptNode) (filepath : string)
    : option ScriptNode * result string :=
  if negb (path_exists host filepath)
  then (root, Raise (RuntimeError ("File does not exist: " +:+ filepath)))
  else
    match root with
    | Some script =>
        match script_setValue [] "fileName" (Ok (PyStr filepath)) script with
        | (script, Raise e) => (Some script, Raise e)
        | (script, Ok _) =>
            match load host script with
            | (script, Raise e) => (Some script, Raise e)
            | (script, Ok _) =>
                match _on_scene_new script with
                | (script, Raise e) => (Some script, Raise e)
                | (script, Ok _) => (Some script, Ok filepath)
                end
            end
        end
    | None => (None, Raise (AttributeError "ancestor"))
    end.

End WithHost.

End Pipeline.

(* ===================================================================== *)
(** * plugins/load/load_scene.py *)
(* ===================================================================== *)

Module GafferLoadScene.
Import Py Gaffer.

Section WithHost.
Variable host : Host.

(** The two writes of [update] on the node object. *)
Definition update_node (representation : value) (path : string) (node : Node)
    : Node * result unit :=
  match getitem_plug [] "fileName" (node_plugs node) with
  | Raise e => (node, Raise e)
  | Ok plug =>
      match setValue host plug (PyStr path) with
      | Raise e => (node, Raise e)
      | Ok plug' =>
          let node :=
            {| node_id := node_id node; node_name := node_name node;
               node_plugs := store_plug ["fileName"] plug' (node_plugs node) |} in
          (* Update the imprinted representation *)
          match
            _ ← getitem_plug [] "user" (node_plugs node);
            plug ← getitem_plug ["user"] "representation" (node_plugs node);
            id ← getitem representation "_id";
            setValue host plug (PyStr (str host id))
          with
          | Raise e => (node, Raise e)
          | Ok plug' =>
              ({| node_id := node_id node; node_name := node_name node;
                  node_plugs :=
                    store_plug ["user"; "representation"] plug' (node_plugs node) |},
               Ok ())
          end
      end
  end.

(** Runs [f] on the node object [id], which is a child of the script. *)
Fixpoint with_node (id : nat) (f : Node -> Node * result unit)
    (nodes : list Node) : list Node * result unit :=
  match nodes with
  | [] => ([], Raise (RuntimeError "the node is not in the script"))
  | node :: rest =>
      if Nat.eqb (node_id node) id
      then let '(node, r) := f node in (node :: rest, r)
      else let '(rest, r) := with_node id f rest in (node :: rest, r)
  end.

(** [GafferLoadScene.update(container, representation)]; the container
    refers to a node of the root script. *)
Definition update (container : Pipeline.Container) (representation : value)
    : Pipeline.Method unit := fun script =>
  match
    path ← get_representation_path host representation;
    let path := replace_char "\" "/" path in
    node ← Pipeline.container_get "_node" container;
    Ok (path, node)
  with
  | Raise e => (script, Raise e)
  | Ok (path, PyObj id) =>
      let '(nodes, r) :=
        with_node id (update_node representation path) (script_nodes script) in
      ({| script_fullName := script_fullName script;
          script_plugs := script_plugs script;
          script_nodes := nodes |}, r)
  | Ok (_, _) => (script, Raise (TypeError "not subscriptable"))
  end.

(** [GafferLoadScene.switch(container, representation)] *)
Definition switch (container : Pipeline.Container) (representation : value)
    : Pipeline.Method unit :=
  update container representation.

End WithHost.

End GafferLoadScene.

(* ===================================================================== *)
(** * A reference host *)
(* ===================================================================== *)

(** One host to run the helpers on: the values of the constants, a
    [setValue] that takes the values of the type of the plug, and the
    [json] module of Python on null, booleans, integers, strings of
    characters below 256, lists and dicts. *)
Module Reference.
Import Py Gaffer.

Definition quote : ascii := "034".
Definition backslash : ascii := "\".

(** [str(z)] for an integer. *)
Definition str_of_Z (z : Z) : string :=
  if (z <? 0)%Z then "-" +:+ str_of_N (Z.to_N (- z)) else str_of_N (Z.to_N z).

(** [str(value)] for [None], booleans, integers and strings; anything else
    prints as the name of its type. *)
Definition ref_str (v : value) : string :=
  match v with
  | PyNone => "None"
  | PyStr s => s
  | PyBool true => "True"
  | PyBool false => "False"
  | PyInt z => str_of_Z z
  | _ => Pipeline.type_name v
  end.

(** [plug.setValue(value)]: a plug that is driven by an input cannot be set,
    and a plug takes the values of its own type. *)
Definition ref_setValue (plug : Plug) (v : value) : result Plug :=
  match plug_input plug with
  | Some _ => Raise (RuntimeError "Cannot set value for plug with input")
  | None =>
      let set data :=
        Ok {| plug_data := data; plug_flags := plug_flags plug;
              plug_input := plug_input plug;
              plug_metadata := plug_metadata plug |} in
      match plug_data plug, v with
      | StringPlug d _, PyStr s => set (StringPlug d s)
      | BoolPlug d _, PyBool b => set (BoolPlug d b)
      | FloatPlug d _, PyFloat f => set (FloatPlug d f)
      | IntPlug d _, PyInt z => set (IntPlug d z)
      | CompoundPlug, _ => Raise (AttributeError "setValue")
      | _, _ => Raise (TypeError "Python argument types did not match")
      end
  end.

(** ** [json.dumps] *)

Definition hex_digit (n : nat) : ascii :=
  match n with
  | 0 => "0" | 1 => "1" | 2 => "2" | 3 => "3" | 4 => "4" | 5 => "5"
  | 6 => "6" | 7 => "7" | 8 => "8" | 9 => "9" | 10 => "a" | 11 => "b"
  | 12 => "c" | 13 => "d" | 14 => "e" | _ => "f"
  end%char.

(** One character of a string, as the encoder writes it (with
    [ensure_ascii]). *)
Definition escape_char (c : ascii) : string :=
  let n := nat_of_ascii c in
  if Ascii.eqb c quote then String backslash (String quote "")
  else if Ascii.eqb c backslash then String backslash (String backslash "")
  else match n with
       | 8 => String backslash "b"
       | 9 => String backslash "t"
       | 10 => String backslash "n"
       | 12 => String backslash "f"
       | 13 => String backslash "r"
       | _ =>
           if (n <? 32)%nat || (126 <? n)%nat
           then String backslash
                  (String "u" (String "0" (String "0"
                     (String (hex_digit (n / 16))
                        (String (hex_digit (n mod 16)) "")))))
           else String c ""
       end.

Fixpoint escape (s : string) : string :=
  match s with
  | "" => ""
  | String c s' => escape_char c +:+ escape s'
  end.

Definition dumps_str (s : string) : string :=
  String quote (escape s +:+ String quote "").

Fixpoint join_str (sep : string) (items : list string) : string :=
  match items with
  | [] => ""
  | [x] => x
  | x :: rest => x +:+ sep +:+ join_str sep rest
  end.

(** The key of a member: strings stand, integers, booleans and [None] are
    written as strings. *)
Definition dumps_key (k : value) : result string :=
  match k with
  | PyStr s => Ok (dumps_str s)
  | PyInt z => Ok (dumps_str (str_of_Z z))
  | PyBool true => Ok (dumps_str "true")
  | PyBool false => Ok (dumps_str "false")
  | PyNone => Ok (dumps_str "null")
  | _ => Raise (TypeError "keys must be str, int, float, bool or None")
  end.

(** [json.dumps(value)] for the values without floats.  The text that
    [json.dumps] writes for a float, its shortest [repr], is not modelled:
    this host refuses a float where Python writes it. *)
Fixpoint ref_json_dumps (v : value) : result string :=
  match v with
  | PyNone => Ok "null"
  | PyBool true => Ok "true"
  | PyBool false => Ok "false"
  | PyInt z => Ok (str_of_Z z)
  | PyStr s => Ok (dumps_str s)
  | PyList items =>
      parts ← mapM ref_json_dumps items;
      Ok ("[" +:+ join_str ", " parts +:+ "]")
  | PyDict items =>
      parts ← mapM (fun member =>
                      key ← dumps_key (fst member);
                      part ← ref_json_dumps (snd member);
                      Ok (key +:+ ": " +:+ part))
                   items;
      Ok ("{" +:+ join_str ", " parts +:+ "}")
  | PyFloat _ => Raise (TypeError "floats are outside this reference host")
  | PyObj _ => Raise (TypeError "Object is not JSON serializable")
  end.

(** ** [json.loads] *)

Definition is_space (c : ascii) : bool :=
  Ascii.eqb c " " || Ascii.eqb c "009" || Ascii.eqb c "010" || Ascii.eqb c "013".

Fixpoint skip_ws (s : string) : string :=
  match s with
  | String c s' => if is_space c then skip_ws s' else s
  | "" => ""
  end.

Definition hex_value (c : ascii) : option nat :=
  let n := nat_of_ascii c in
  if is_digit c then Some (n - 48)
  else if in_range "a" "f" c then Some (n - 87)
  else if in_range "A" "F" c then Some (n - 55)
  else None.

(** The rest of a string literal, after its opening quote. *)
Fixpoint parse_str (s : string) : result (string * string) :=
  match s with
  | "" => Raise (ValueError "Unterminated string")
  | String c rest =>
      if Ascii.eqb c quote then Ok ("", rest)
      else if Ascii.eqb c backslash then
        match rest with
        | String e rest =>
            let simple (d : ascii) :=
              '(body, rest) ← parse_str rest; Ok (String d body, rest) in
            if Ascii.eqb e quote then simple quote
            else if Ascii.eqb e backslash then simple backslash
            else if Ascii.eqb e "/" then simple "/"%char
            else if Ascii.eqb e "b" then simple "008"%char
            else if Ascii.eqb e "f" then simple "012"%char
            else if Ascii.eqb e "n" then simple "010"%char
            else if Ascii.eqb e "r" then simple "013"%char
            else if Ascii.eqb e "t" then simple "009"%char
            else if Ascii.eqb e "u" then
              match rest with
              | String h1 (String h2 (String h3 (String h4 rest))) =>
                  match hex_value h1, hex_value h2, hex_value h3, hex_value h4 with
                  | Some 0, Some 0, Some a, Some b =>
                      '(body, rest) ← parse_str rest;
                      Ok (String (ascii_of_nat (16 * a + b)) body, rest)
                  | Some _, Some _, Some _, Some _ =>
                      Raise (ValueError "character above 255")
                  | _, _, _, _ => Raise (ValueError "Invalid \uXXXX escape")
                  end
              | _ => Raise (ValueError "Invalid \uXXXX escape")
              end
            else Raise (ValueError "Invalid \escape")
        | "" => Raise (ValueError "Unterminated string")
        end
      else if (nat_of_ascii c <? 32)%nat
      then Raise (ValueError "Invalid control character")
      else '(body, rest) ← parse_str rest; Ok (String c body, rest)
  end.

(** [s] without its first character, when that is [c]. *)
Definition take_char (c : ascii) (s : string) : option string :=
  match s with
  | String d rest => if Ascii.eqb d c then Some rest else None
  | "" => None
  end.

Definition leading_zero (digits : string) : bool :=
  match digits with
  | String c (String _ _) => Ascii.eqb c "0"
  | _ => false
  end.

Definition is_fraction (rest : string) : bool :=
  match rest with
  | String c _ => Ascii.eqb c "." || Ascii.eqb c "e" || Ascii.eqb c "E"
  | "" => false
  end.

(** An integer literal: an optional sign, then [0] or digits that do not
    start with [0]; fractions and exponents are outside this host. *)
Definition parse_int (s : string) : result (value * string) :=
  let '(negative, body) :=
    match take_char "-" s with
    | Some body => (true, body)
    | None => (false, s)
    end in
  let '(digits, rest) := span is_digit body in
  if String.eqb digits "" then Raise (ValueError "Expecting value")
  else if leading_zero digits then Raise (ValueError "Extra data")
  else if is_fraction rest
       then Raise (ValueError "floats are outside this reference host")
       else
         let n := Z.of_N (int_of_digits digits) in
         Ok (PyInt (if negative then (- n)%Z else n), rest).

(** [d[k] = v] on the items of a dict. *)
Fixpoint dict_set (k : string) (v : value) (items : list (value * value))
    : list (value * value) :=
  match items with
  | [] => [(PyStr k, v)]
  | (PyStr k', v') :: rest =>
      if String.eqb k' k then (PyStr k', v) :: rest
      else (PyStr k', v') :: dict_set k v rest
  | item :: rest => item :: dict_set k v rest
  end.

Fixpoint parse_value (fuel : nat) (s : string) : result (value * string) :=
  match fuel with
  | O => Raise (ValueError "out of fuel")
  | S fuel =>
      let text := skip_ws s in
      match take_char "[" text, take_char "{" text, take_char quote text with
      | Some rest, _, _ =>
          match take_char "]" (skip_ws rest) with
          | Some rest => Ok (PyList [], rest)
          | None =>
              '(items, rest) ← parse_items fuel (skip_ws rest);
              Ok (PyList items, rest)
          end
      | _, Some rest, _ =>
          match take_char "}" (skip_ws rest) with
          | Some rest => Ok (PyDict [], rest)
          | None =>
              '(items, rest) ← parse_members fuel [] (skip_ws rest);
              Ok (PyDict items, rest)
          end
      | _, _, Some rest =>
          '(body, rest) ← parse_str rest; Ok (PyStr body, rest)
      | None, None, None =>
          match strip_prefix "null" text, strip_prefix "true" text,
                strip_prefix "false" text with
          | Some rest, _, _ => Ok (PyNone, rest)
          | _, Some rest, _ => Ok (PyBool true, rest)
          | _, _, Some rest => Ok (PyBool false, rest)
          | None, None, None => parse_int text
          end
      end
  end
with parse_items (fuel : nat) (s : string) : result (list value * string) :=
  match fuel with
  | O => Raise (ValueError "out of fuel")
  | S fuel =>
      '(item, rest) ← parse_value fuel s;
      match take_char "," (skip_ws rest), take_char "]" (skip_ws rest) with
      | Some rest, _ =>
          '(items, rest) ← parse_items fuel rest; Ok (item :: items, rest)
      | _, Some rest => Ok ([item], rest)
      | None, None => Raise (ValueError "Expecting ',' delimiter")
      end
  end
with parse_members (fuel : nat) (seen : list (value * value)) (s : string)
    : result (list (value * value) * string) :=
  match fuel with
  | O => Raise (ValueError "out of fuel")
  | S fuel =>
      match take_char quote (skip_ws s) with
      | Some rest =>
          '(key, rest) ← parse_str rest;
          match take_char ":" (skip_ws rest) with
          | Some rest =>
              '(item, rest) ← parse_value fuel rest;
              let seen := dict_set key item seen in
              match take_char "," (skip_ws rest), take_char "}" (skip_ws rest) with
              | Some rest, _ => parse_members fuel seen rest
              | _, Some rest => Ok (seen, rest)
              | None, None => Raise (ValueError "Expecting ',' delimiter")
              end
          | None => Raise (ValueError "Expecting ':' delimiter")
          end
      | None => Raise (ValueError "Expecting property name")
      end
  end.

Definition ref_json_loads (text : string) : result value :=
  '(v, rest) ← parse_value (2 * String.length text + 2) text;
  match skip_ws rest with
  | "" => Ok v
  | _ => Raise (ValueError "Extra data")
  end.

(** The values that JSON gives back as they are: [None], booleans,
    integers, strings, lists of such values and dicts of such values under
    distinct string keys. *)
Fixpoint json_shaped (v : value) : Prop :=
  match v with
  | PyNone | PyBool _ | PyInt _ | PyStr _ => True
  | PyList items => All json_shaped items
  | PyDict items =>
      All (fun member =>
             (exists k, fst member = PyStr k) /\ json_shaped (snd member))
          items /\
      NoDup (map fst items)
  | PyFloat _ | PyObj _ => False
  end.

(** ** The host *)

Definition workfile : string := "/proj/shots/sh010/work/sh010_v001.gfr".

Definition host : Host :=
  {| AYON_CONTAINER_ID := "ayon.load.container";
     AVALON_CONTAINER_ID := "pyblish.avalon.container";
     Flags_Default := 22;
     Flags_Dynamic := 1;
     Flags_Serialisable := 2;
     setValue := ref_setValue;
     str := ref_str;
     json_dumps := ref_json_dumps;
     json_loads := ref_json_loads;
     path_exists := String.eqb workfile;
     load := fun script => (script, Ok ());
     work_root := Ok "/proj/shots/sh010/work";
     get_current_context :=
       Ok (PyDict [(PyStr "project_name", PyStr "proj");
                   (PyStr "folder_path", PyStr "/shots/sh010")]);
     get_representation_path := fun representation =>
       path ← getitem representation "path";
       match path with
       | PyStr path => Ok path
       | _ => Raise (TypeError "expected str")
       end |}.

(** ** Sample scripts *)

Definition plug_of (data : PlugData) (input : option PlugId) : Plug :=
  {| plug_data := data; plug_flags := 22; plug_input := input;
     plug_metadata := [] |}.

(** A scene reader as [GafferLoadScene.load] makes it, before it is
    imprinted. *)
Definition scene_reader : Node :=
  {| node_id := 1; node_name := "modelMain";
     node_plugs :=
       [(["fileName"], plug_of (StringPlug "" "C:\proj\model_v001.abc") None);
        (["out"], plug_of CompoundPlug None);
        (["user"], plug_of CompoundPlug None)] |}.

(** A node that is no container: its [user] plug holds a note only. *)
Definition plain_node : Node :=
  {| node_id := 2; node_name := "Group";
     node_plugs :=
       [(["in"], plug_of CompoundPlug (Some (1, ["out"])));
        (["user"], plug_of CompoundPlug None);
        (["user"; "note"], plug_of (IntPlug 0 7) None)] |}.

Definition context : value :=
  PyDict [(PyStr "representation",
           PyDict [(PyStr "id", PyStr "a1b2c3"); (PyStr "name", PyStr "abc")])].

Definition sample_script : ScriptNode :=
  {| script_fullName := "ScriptNode";
     script_plugs :=
       [(["fileName"], plug_of (StringPlug "" "") None);
        (["variables"], plug_of CompoundPlug None);
        (["variables"; "projectRootDirectory"], plug_of CompoundPlug None);
        (["variables"; "projectRootDirectory"; "value"],
         plug_of (StringPlug "" "") None);
        (["user"], plug_of CompoundPlug None)];
     script_nodes := [scene_reader; plain_node] |}.

(** The scene reader once [imprint_container] has run on it. *)
Definition container_node : Node :=
  match Pipeline.imprint_container host scene_reader (PyStr "modelMain")
          (PyStr "sh010") context (PyStr "GafferLoadScene") with
  | Ok (node, _) => node
  | Raise _ => scene_reader
  end.

Definition loaded_script : ScriptNode :=
  with_nodes (store_node container_node (script_nodes sample_script))
             sample_script.

(** A graph for [replace_node]: [reader] feeds the plugs [in] and [aux] of
    [old], whose [aux] is not serialisable, and [writer] reads the plug
    [out] of [old]; [new] has the plugs [in] and [aux] and no plug [out]. *)
Definition graph : ScriptNode :=
  {| script_fullName := "ScriptNode";
     script_plugs := [(["user"], plug_of CompoundPlug None)];
     script_nodes :=
       [{| node_id := 1; node_name := "reader";
           node_plugs := [(["out"], plug_of CompoundPlug None)] |};
        {| node_id := 2; node_name := "old";
           node_plugs :=
             [(["in"], plug_of CompoundPlug (Some (1, ["out"])));
              (["aux"],
               {| plug_data := CompoundPlug; plug_flags := 20;
                  plug_input := Some (1, ["out"]); plug_metadata := [] |});
              (["out"], plug_of CompoundPlug None)] |};
        {| node_id := 3; node_name := "new";
           node_plugs :=
             [(["in"], plug_of CompoundPlug None);
              (["aux"], plug_of CompoundPlug None)] |};
        {| node_id := 4; node_name := "writer";
           node_plugs := [(["in"], plug_of CompoundPlug (Some (2, ["out"])))] |}] |}.

End Reference.


(* ===================================================================== *)
(** * Facts about Python strings *)
(* ===================================================================== *)

Module PyFacts.
Import Py.

Lemma append_cons (c : ascii) (a b : string) :
  String c a +:+ b = String c (a +:+ b).
Proof. reflexivity. Qed.

Lemma append_nil_l (b : string) : "" +:+ b = b.
Proof. reflexivity. Qed.

Lemma append_nil_r (s : string) : s +:+ "" = s.
Proof.
  induction s as [|c s IH]; [done |]. by rewrite append_cons, IH.
Qed.

Lemma append_assoc (a b c : string) : (a +:+ b) +:+ c = a +:+ (b +:+ c).
Proof.
  induction a as [|x a IH]; [done |]. by rewrite !append_cons, IH.
Qed.

Lemma split_nonempty (sep : ascii) (s : string) : split sep s <> [].
Proof.
  induction s as [|c s IH]; simpl; [done |].
  destruct (Ascii.eqb c sep); [done |].
  by destruct (split sep s).
Qed.

Lemma join_cons (sep : ascii) (x : string) (items : list string) :
  items <> [] -> join sep (x :: items) = x +:+ String sep (join sep items).
Proof. by destruct items. Qed.

(** Joining the fields of a split gives the string back. *)
Lemma join_split (sep : ascii) (s : string) : join sep (split sep s) = s.
Proof.
  induction s as [|c s IH]; [done |].
  pose proof (split_nonempty sep s) as Hne.
  cbn [split]. destruct (Ascii.eqb c sep) eqn:Hc.
  - apply Ascii.eqb_eq in Hc as ->.
    by rewrite join_cons, IH, append_nil_l.
  - destruct (split sep s) as [|f fs]; [done |].
    destruct fs as [|g fs].
    + cbn [join] in *. by rewrite IH.
    + rewrite join_cons in * by done. by rewrite append_cons, IH.
Qed.

(** No field of a split contains the separator. *)
Lemma split_fields_clean (sep : ascii) (s : string) :
  Forall (fun f => contains_char sep f = false) (split sep s).
Proof.
  induction s as [|c s IH]; cbn [split].
  - by repeat constructor.
  - destruct (Ascii.eqb c sep) eqn:Hc; [by constructor |].
    destruct (split sep s) as [|f fs].
    + repeat constructor. cbn. by rewrite Hc.
    + apply Forall_cons in IH as [Hf Hfs]. constructor; [| done].
      cbn. by rewrite Hc, Hf.
Qed.

Lemma split_clean (sep : ascii) (s : string) :
  contains_char sep s = false -> split sep s = [s].
Proof.
  induction s as [|c s IH]; cbn; [done |].
  intros [Hc Hs]%orb_false_iff. rewrite Hc, (IH Hs). done.
Qed.

Lemma split_append_sep (sep : ascii) (f rest : string) :
  contains_char sep f = false ->
  split sep (f +:+ String sep rest) = f :: split sep rest.
Proof.
  induction f as [|c f IH]; rewrite ?append_cons, ?append_nil_l;
    cbn [split contains_char].
  - intros _. by rewrite Ascii.eqb_refl.
  - intros [Hc Hf]%orb_false_iff. rewrite Hc, (IH Hf). done.
Qed.

(** Splitting a join of separator-free fields gives the fields back. *)
Lemma split_join (sep : ascii) (items : list string) :
  items <> [] ->
  Forall (fun f => contains_char sep f = false) items ->
  split sep (join sep items) = items.
Proof.
  induction items as [|f fs IH]; [done |]. intros _ Hall.
  apply Forall_cons in Hall as [Hf Hfs].
  destruct fs as [|g fs]; [by apply split_clean |].
  rewrite join_cons, split_append_sep by done. f_equal. by apply IH.
Qed.

Lemma join_snoc (sep : ascii) (items : list string) (x : string) :
  items <> [] ->
  join sep (items ++ [x]) = join sep items +:+ String sep x.
Proof.
  induction items as [|f fs IH]; [done |]. intros _.
  destruct fs as [|g fs]; [done |].
  change ((f :: g :: fs) ++ [x]) with (f :: ((g :: fs) ++ [x])).
  rewrite (join_cons sep f ((g :: fs) ++ [x])) by done.
  rewrite IH by done. rewrite (join_cons sep f (g :: fs)) by done.
  by rewrite append_assoc, append_cons.
Qed.

(** [replace] character by character: the length stays, every [a] has
    become [b] and the other characters stand. *)
Lemma replace_char_length (a b : ascii) (s : string) :
  String.length (replace_char a b s) = String.length s.
Proof. induction s as [|c s IH]; [done |]. cbn. by rewrite IH. Qed.

Lemma replace_char_get (a b : ascii) (s : string) (i : nat) :
  String.get i (replace_char a b s)
  = (fun c => if Ascii.eqb c a then b else c) <$> String.get i s.
Proof.
  revert i. induction s as [|c s IH]; intros i; [done |].
  destruct i as [|i]; [done |]. cbn [replace_char String.get]. apply IH.
Qed.

Lemma replace_char_clean (a b : ascii) (s : string) :
  a <> b -> contains_char a (replace_char a b s) = false.
Proof.
  intros Hab. induction s as [|c s IH]; [done |]. cbn. rewrite IH, orb_false_r.
  destruct (Ascii.eqb_spec c a) as [-> | Hc]; apply Ascii.eqb_neq; congruence.
Qed.

Lemma str_in_snoc (x : string) (items : list string) :
  str_in x (items ++ [x]) = true.
Proof.
  unfold str_in. rewrite existsb_app. cbn. rewrite String.eqb_refl.
  by rewrite orb_true_r.
Qed.

End PyFacts.

(* ===================================================================== *)
(** * Facts about plug tables *)
(* ===================================================================== *)

Module GafferFacts.
Import Py Gaffer.

Lemma is_prefix_refl (p : list string) : is_prefix p p = true.
Proof.
  induction p as [|a p IH]; [done |]. cbn. by rewrite String.eqb_refl, IH.
Qed.

Lemma is_prefix_app (p q : list string) : is_prefix p (p ++ q) = true.
Proof.
  induction p as [|a p IH]; [done |]. cbn. by rewrite String.eqb_refl, IH.
Qed.

Lemma path_eqb_eq (a b : list string) : path_eqb a b = true <-> a = b.
Proof.
  unfold path_eqb. split.
  - revert b. induction a as [|x a IH]; intros [|y b]; cbn; try done.
    rewrite !andb_true_iff. intros [[Hx Ha] [_ Hb]].
    apply String.eqb_eq in Hx as ->. f_equal. apply IH.
    by rewrite Ha, Hb.
  - intros ->. by rewrite is_prefix_refl.
Qed.

Lemma path_eqb_refl (a : list string) : path_eqb a a = true.
Proof. by apply path_eqb_eq. Qed.

Lemma path_eqb_neq (a b : list string) : a <> b -> path_eqb a b = false.
Proof.
  intros Hne. destruct (path_eqb a b) eqn:Heq; [| done].
  by apply path_eqb_eq in Heq.
Qed.

Lemma path_eqb_prefix (a b : list string) :
  path_eqb a b = true -> is_prefix a b = true.
Proof. intros ->%path_eqb_eq. apply is_prefix_refl. Qed.

(** *** [store_plug] *)

Lemma find_store_same (path : list string) (plug : Plug) (plugs : Plugs) :
  has_plug path plugs = true ->
  find_plug path (store_plug path plug plugs) = Some plug.
Proof.
  unfold has_plug. induction plugs as [|[q old] rest IH]; cbn; [done |].
  destruct (path_eqb path q) eqn:Hq; cbn; rewrite Hq; [done | exact IH].
Qed.

Lemma find_store_other (path q : list string) (plug : Plug) (plugs : Plugs) :
  q <> path ->
  find_plug q (store_plug path plug plugs) = find_plug q plugs.
Proof.
  intros Hne. induction plugs as [|[r old] rest IH]; cbn; [done |].
  destruct (path_eqb path r) eqn:Hr; cbn.
  - apply path_eqb_eq in Hr as <-. by rewrite (path_eqb_neq q path).
  - by rewrite IH.
Qed.

(** *** [remove_plug], [add_plug] and [setitem_plug] *)

Lemma find_remove_other (path q : list string) (plugs : Plugs) :
  is_prefix path q = false ->
  find_plug q (remove_plug path plugs) = find_plug q plugs.
Proof.
  intros Hq. unfold remove_plug.
  induction plugs as [|[r old] rest IH]; cbn; [done |].
  destruct (is_prefix path r) eqn:Hr; cbn.
  - rewrite IH. destruct (path_eqb q r) eqn:Hqr; [| done].
    apply path_eqb_eq in Hqr as ->. congruence.
  - by rewrite IH.
Qed.

Lemma find_remove_same (path : list string) (plugs : Plugs) :
  find_plug path (remove_plug path plugs) = None.
Proof.
  unfold remove_plug. induction plugs as [|[r old] rest IH]; cbn; [done |].
  destruct (is_prefix path r) eqn:Hr; cbn; [done |].
  rewrite IH. destruct (path_eqb path r) eqn:Hpr; [| done].
  apply path_eqb_prefix in Hpr. congruence.
Qed.

Lemma find_app (q : list string) (a b : Plugs) :
  find_plug q (a ++ b)
  = match find_plug q a with Some plug => Some plug | None => find_plug q b end.
Proof.
  induction a as [|[r old] rest IH]; cbn; [done |].
  destruct (path_eqb q r); [done | exact IH].
Qed.

Lemma find_add_walk (parent : list string) (entry : list string * Plug)
    (q : list string) (plugs : Plugs) :
  find_plug (fst entry) plugs = None ->
  find_plug q (add_plug_walk parent entry plugs)
  = if path_eqb q (fst entry) then Some (snd entry) else find_plug q plugs.
Proof.
  destruct entry as [p new]. cbn [fst snd].
  induction plugs as [|[r old] rest IH]; [done |].
  cbn [find_plug]. destruct (path_eqb p r) eqn:Hpr; [done |]. intros Hrest.
  cbn [add_plug_walk].
  destruct (existsb _ rest); cbn [find_plug]; rewrite ?(IH Hrest);
    destruct (path_eqb q r) eqn:Hqr; try done.
  all: destruct (path_eqb q p) eqn:Hqp; [| done].
  all: apply path_eqb_eq in Hqr as ->; apply path_eqb_eq in Hqp as ->.
  all: by rewrite path_eqb_refl in Hpr.
Qed.

Lemma find_add (parent : list string) (name : string) (plug : Plug)
    (q : list string) (plugs : Plugs) :
  find_plug (parent ++ [name]) plugs = None ->
  find_plug q (add_plug parent name plug plugs)
  = if path_eqb q (parent ++ [name]) then Some plug else find_plug q plugs.
Proof.
  intros Hfree. unfold add_plug. destruct (existsb _ plugs).
  - by rewrite find_add_walk.
  - rewrite find_app. cbn.
    destruct (path_eqb q (parent ++ [name])) eqn:Hq.
    + apply path_eqb_eq in Hq as ->. by rewrite Hfree.
    + by destruct (find_plug q plugs).
Qed.

Lemma find_no_prefix (parent : list string) (name : string) (plugs : Plugs) :
  existsb (fun e => is_prefix parent (fst e)) plugs = false ->
  find_plug (parent ++ [name]) plugs = None.
Proof.
  induction plugs as [|[r old] rest IH]; [done |]. cbn [existsb find_plug fst].
  intros [Hr Hrest]%orb_false_iff.
  destruct (path_eqb (parent ++ [name]) r) eqn:Heq; [| by apply IH].
  apply path_eqb_eq in Heq as <-. by rewrite is_prefix_app in Hr.
Qed.

(** An added plug does not hide a plug that was there. *)
Lemma find_add_any (parent : list string) (name : string) (plug : Plug)
    (q : list string) (plugs : Plugs) :
  find_plug q (add_plug parent name plug plugs)
  = match find_plug q plugs with
    | Some x => Some x
    | None => if path_eqb q (parent ++ [name]) then Some plug else None
    end.
Proof.
  unfold add_plug. destruct (existsb _ plugs) eqn:Hany.
  - clear Hany. induction plugs as [|[r old] rest IH]; [done |].
    cbn [add_plug_walk]. destruct (existsb _ rest) eqn:Hrest;
      cbn [find_plug]; destruct (path_eqb q r) eqn:Hqr; try done.
    destruct (path_eqb q (parent ++ [name])) eqn:Hq.
    + apply path_eqb_eq in Hq as ->. by rewrite (find_no_prefix _ _ _ Hrest).
    + by destruct (find_plug q rest).
  - rewrite find_app. cbn. by destruct (find_plug q plugs).
Qed.

(** After [parent[name] = plug] the child [name] of [parent] is [plug]. *)
Lemma find_setitem_same (parent : list string) (name : string) (plug : Plug)
    (plugs : Plugs) :
  find_plug (parent ++ [name]) (setitem_plug parent name plug plugs) = Some plug.
Proof.
  unfold setitem_plug. rewrite find_add by apply find_remove_same.
  by rewrite path_eqb_refl.
Qed.

(** ... and every plug that is not at or below that child is as before. *)
Lemma find_setitem_other (parent : list string) (name : string) (plug : Plug)
    (q : list string) (plugs : Plugs) :
  is_prefix (parent ++ [name]) q = false ->
  find_plug q (setitem_plug parent name plug plugs) = find_plug q plugs.
Proof.
  intros Hq. unfold setitem_plug. rewrite find_add by apply find_remove_same.
  destruct (path_eqb q (parent ++ [name])) eqn:Heq.
  - apply path_eqb_eq in Heq as ->. by rewrite is_prefix_refl in Hq.
  - by apply find_remove_other.
Qed.

Lemma has_setitem_same (parent : list string) (name : string) (plug : Plug)
    (plugs : Plugs) :
  has_plug (parent ++ [name]) (setitem_plug parent name plug plugs) = true.
Proof. unfold has_plug. by rewrite find_setitem_same. Qed.

Lemma has_setitem_other (parent : list string) (name : string) (plug : Plug)
    (q : list string) (plugs : Plugs) :
  is_prefix (parent ++ [name]) q = false ->
  has_plug q (setitem_plug parent name plug plugs) = has_plug q plugs.
Proof. intros Hq. unfold has_plug. by rewrite find_setitem_other. Qed.

(** *** [store_node] *)




(** *** Connections *)

Lemma find_node_some (id : nat) (nodes : list Node) (node : Node) :
  find_node id nodes = Some node -> In node nodes /\ node_id node = id.
Proof.
  induction nodes as [|n rest IH]; [done |]. cbn [find_node].
  destruct (Nat.eqb (node_id n) id) eqn:Hid.
  - intros [= <-]. apply Nat.eqb_eq in Hid. split; [by left | done].
  - intros [Hin Hn]%IH. split; [by right | done].
Qed.


Lemma find_node_map (f : Node -> Node) (id : nat) (nodes : list Node) :
  (forall n, node_id (f n) = node_id n) ->
  find_node id (map f nodes) = f <$> find_node id nodes.
Proof.
  intros Hf. induction nodes as [|n rest IH]; [done |].
  cbn [map find_node]. rewrite Hf. by destruct (Nat.eqb (node_id n) id).
Qed.

Lemma find_plug_map (f : Plug -> Plug) (q : list string) (plugs : Plugs) :
  find_plug q (map (fun entry => (fst entry, f (snd entry))) plugs)
  = f <$> find_plug q plugs.
Proof.
  induction plugs as [|[r plug] rest IH]; [done |].
  cbn [map find_plug fst snd]. by destruct (path_eqb q r).
Qed.

Lemma find_plug_some (q : list string) (plugs : Plugs) (plug : Plug) :
  find_plug q plugs = Some plug -> In (q, plug) plugs.
Proof.
  induction plugs as [|[r old] rest IH]; [done |]. cbn [find_plug].
  destruct (path_eqb q r) eqn:Hq.
  - apply path_eqb_eq in Hq as ->. intros [= ->]. by left.
  - intros Hin%IH. by right.
Qed.





(** The paths of the plugs of the node [id]. *)
Definition paths_of (nodes : list Node) (id : nat) : option (list (list string)) :=
  (fun node => map fst (node_plugs node)) <$> find_node id nodes.

Lemma has_plug_paths (q : list string) (a b : Plugs) :
  map fst a = map fst b -> has_plug q a = has_plug q b.
Proof.
  unfold has_plug. revert b.
  induction a as [|[r x] a IH]; intros [|[r' y] b]; try done.
  cbn [map fst find_plug]. intros [= <- Hrest].
  destruct (path_eqb q r); [done | by apply IH].
Qed.

Lemma paths_of_setInput (d : PlugId) (input : option PlugId)
    (nodes : list Node) (id : nat) :
  paths_of (setInput d input nodes) id = paths_of nodes id.
Proof.
  unfold paths_of, setInput. rewrite find_node_map.
  2: { intros n. by destruct (Nat.eqb (node_id n) (fst d)). }
  destruct (find_node id nodes) as [node|]; [| done].
  cbn [fmap option_fmap option_map]. f_equal.
  destruct (Nat.eqb (node_id node) (fst d)); [| done].
  cbn [node_with_plugs node_plugs]. rewrite map_map.
  apply map_ext. intros [r plug]. cbn [fst snd].
  by destruct (path_eqb (snd d) r).
Qed.

Lemma has_store (path q : list string) (plug : Plug) (plugs : Plugs) :
  has_plug q (store_plug path plug plugs) = has_plug q plugs.
Proof.
  unfold has_plug. induction plugs as [|[r old] rest IH]; cbn; [done |].
  destruct (path_eqb path r) eqn:Hr; cbn;
    destruct (path_eqb q r); try done; exact IH.
Qed.

End GafferFacts.

(* ===================================================================== *)
(** * The reference JSON codec gives back what it was given *)
(* ===================================================================== *)

Module ReferenceFacts.
Import Py Gaffer Reference PyFacts.

(** ** Strings *)

Lemma parse_str_char (c : ascii) (tail : string) :
  parse_str (escape_char c +:+ tail)
  = '(body, rest) ← parse_str tail; Ok (String c body, rest).
Proof. destruct c as [[] [] [] [] [] [] [] []]; reflexivity. Qed.

Lemma parse_str_escape (s rest : string) :
  parse_str (escape s +:+ String quote rest) = Ok (s, rest).
Proof.
  induction s as [|c s IH]; [reflexivity |].
  cbn [escape]. rewrite append_assoc, parse_str_char, IH. reflexivity.
Qed.

Lemma parse_str_dumps (s rest : string) :
  take_char quote (dumps_str s +:+ rest) = Some (escape s +:+ String quote rest).
Proof.
  unfold dumps_str. rewrite append_cons. cbn [take_char].
  rewrite Ascii.eqb_refl, append_assoc. by rewrite append_cons, append_nil_l.
Qed.

(** ** Integers *)

(** What may follow a value: nothing, a comma or a closing bracket. *)
Definition delimited (rest : string) : Prop :=
  rest = "" \/ exists c r, rest = String c r /\
    (c = "," \/ c = "]" \/ c = "}")%char.

Lemma delimited_no_digit (rest : string) :
  delimited rest -> fst (span is_digit rest) = "" /\ snd (span is_digit rest) = rest.
Proof.
  intros [-> | (c & r & -> & [-> | [-> | ->]])]; by cbn.
Qed.

Lemma span_digits (d : Decimal.uint) (rest : string) :
  delimited rest ->
  span is_digit (NilEmpty.string_of_uint d +:+ rest)
  = (NilEmpty.string_of_uint d, rest).
Proof.
  intros Hrest. induction d as [|d IH|d IH|d IH|d IH|d IH|d IH|d IH|d IH|d IH|d IH];
    cbn [NilEmpty.string_of_uint]; rewrite ?append_cons, ?append_nil_l;
    [| cbn [span]; change (is_digit _) with true; cbn iota; by rewrite IH ..].
  destruct (delimited_no_digit rest Hrest) as [H1 H2].
  by destruct (span is_digit rest); cbn in *; subst.
Qed.

Lemma to_uint_canonical (n : N) : N.to_uint n = Decimal.unorm (N.to_uint n).
Proof.
  rewrite <- (DecimalN.Unsigned.of_to n) at 1.
  apply DecimalN.Unsigned.to_of.
Qed.

Lemma unorm_leading_zero (d d' : Decimal.uint) :
  Decimal.unorm d = Decimal.D0 d' -> d' = Decimal.Nil.
Proof.
  unfold Decimal.unorm. destruct (Decimal.nzhead d) eqn:Hd; try done.
  - by intros [= <-].
  - by apply DecimalFacts.nzhead_nonzero in Hd.
Qed.

Lemma int_of_digits_str (n : N) : int_of_digits (str_of_N n) = n.
Proof.
  unfold int_of_digits, str_of_N. rewrite NilEmpty.usu.
  apply DecimalN.Unsigned.of_to.
Qed.

(** The digits of a number: at least one, a digit first, and no zero in
    front of another digit. *)
Lemma str_of_N_head (n : N) :
  exists c t, str_of_N n = String c t /\ is_digit c = true /\
              leading_zero (String c t) = false.
Proof.
  unfold str_of_N. pose proof (to_uint_canonical n) as Hc.
  destruct (N.to_uint n) as [|u|u|u|u|u|u|u|u|u|u] eqn:Hu;
    cbn [NilEmpty.string_of_uint]; [done | | |..].
  - symmetry in Hc. apply unorm_leading_zero in Hc as ->.
    by eexists _, _.
  - eexists _, _. repeat split. cbn. by destruct (NilEmpty.string_of_uint u).
  - eexists _, _. repeat split. cbn. by destruct (NilEmpty.string_of_uint u).
  - eexists _, _. repeat split. cbn. by destruct (NilEmpty.string_of_uint u).
  - eexists _, _. repeat split. cbn. by destruct (NilEmpty.string_of_uint u).
  - eexists _, _. repeat split. cbn. by destruct (NilEmpty.string_of_uint u).
  - eexists _, _. repeat split. cbn. by destruct (NilEmpty.string_of_uint u).
  - eexists _, _. repeat split. cbn. by destruct (NilEmpty.string_of_uint u).
  - eexists _, _. repeat split. cbn. by destruct (NilEmpty.string_of_uint u).
  - eexists _, _. repeat split. cbn. by destruct (NilEmpty.string_of_uint u).
Qed.

Lemma is_digit_not (c d : ascii) :
  is_digit c = true -> is_digit d = false -> Ascii.eqb c d = false.
Proof.
  intros Hc Hd. destruct (Ascii.eqb c d) eqn:Heq; [| done].
  apply Ascii.eqb_eq in Heq as ->. congruence.
Qed.

Lemma is_fraction_delimited (rest : string) :
  delimited rest -> is_fraction rest = false.
Proof. intros [-> | (c & r & -> & [-> | [-> | ->]])]; by cbn. Qed.

Lemma parse_digits (n : N) (rest : string) :
  delimited rest ->
  parse_int (str_of_N n +:+ rest) = Ok (PyInt (Z.of_N n), rest).
Proof.
  intros Hrest. destruct (str_of_N_head n) as (c & t & Hs & Hc & Hz).
  unfold parse_int.
  assert (take_char "-" (str_of_N n +:+ rest) = None) as ->.
  { rewrite Hs, append_cons. cbn [take_char].
    by rewrite (is_digit_not c "-"). }
  unfold str_of_N at 1. rewrite span_digits by done. fold (str_of_N n).
  rewrite int_of_digits_str, Hs. cbn [String.eqb]. rewrite Hz.
  by rewrite is_fraction_delimited.
Qed.

Lemma parse_int_str_of_Z (z : Z) (rest : string) :
  delimited rest ->
  parse_int (str_of_Z z +:+ rest) = Ok (PyInt z, rest).
Proof.
  intros Hrest. unfold str_of_Z. destruct (Z.ltb_spec z 0) as [Hneg | Hpos].
  - rewrite append_cons, append_nil_l, append_cons.
    destruct (str_of_N_head (Z.to_N (- z))) as (c & t & Hs & Hc & Hz).
    unfold parse_int. cbn [take_char]. rewrite Ascii.eqb_refl.
    unfold str_of_N at 1. rewrite span_digits by done. fold (str_of_N (Z.to_N (- z))).
    rewrite int_of_digits_str, Hs. cbn [String.eqb]. rewrite Hz.
    rewrite is_fraction_delimited by done.
    by replace (- Z.of_N (Z.to_N (- z)))%Z with z by lia.
  - rewrite parse_digits by done.
    by replace (Z.of_N (Z.to_N z)) with z by lia.
Qed.

(** ** Values *)

(** An induction over values that reaches the items of lists and dicts. *)
Fixpoint value_nested_ind (P : value -> Prop)
    (HNone : P PyNone) (HStr : forall s, P (PyStr s))
    (HBool : forall b, P (PyBool b)) (HInt : forall z, P (PyInt z))
    (HFloat : forall f, P (PyFloat f))
    (HList : forall items, All P items -> P (PyList items))
    (HDict : forall items, All (fun member => P (snd member)) items ->
                           P (PyDict items))
    (HObj : forall id, P (PyObj id)) (v : value) : P v :=
  let go := value_nested_ind P HNone HStr HBool HInt HFloat HList HDict HObj in
  match v with
  | PyNone => HNone
  | PyStr s => HStr s
  | PyBool b => HBool b
  | PyInt z => HInt z
  | PyFloat f => HFloat f
  | PyList items =>
      HList items
        ((fix each (l : list value) : All P l :=
            match l with
            | [] => I
            | x :: rest => conj (go x) (each rest)
            end) items)
  | PyDict items =>
      HDict items
        ((fix each (l : list (value * value))
            : All (fun member => P (snd member)) l :=
            match l with
            | [] => I
            | member :: rest => conj (go (snd member)) (each rest)
            end) items)
  | PyObj id => HObj id
  end.

(** The fuel that parsing the text of a value takes at most. *)
Fixpoint weight (v : value) : nat :=
  match v with
  | PyList items => S (sum_of (fun x => S (weight x)) items)
  | PyDict items => S (sum_of (fun member => S (weight (snd member))) items)
  | _ => 1
  end.

Lemma length_append (a b : string) :
  String.length (a +:+ b) = String.length a + String.length b.
Proof.
  induction a as [|c a IH]; [done |]. rewrite append_cons. cbn. by rewrite IH.
Qed.

(** The first character of the text of a value: no blank, and no closing
    bracket. *)
Definition value_head (text : string) : Prop :=
  exists c t, text = String c t /\ is_space c = false /\
              Ascii.eqb c "]" = false /\ Ascii.eqb c "}" = false.

Lemma value_head_skip (text rest : string) :
  value_head text -> skip_ws (text +:+ rest) = text +:+ rest.
Proof.
  intros (c & t & -> & Hc & _). rewrite append_cons. cbn. by rewrite Hc.
Qed.

Lemma value_head_take (text rest : string) :
  value_head text ->
  take_char "]" (text +:+ rest) = None /\ take_char "}" (text +:+ rest) = None.
Proof.
  intros (c & t & -> & _ & H1 & H2). rewrite append_cons. cbn.
  by rewrite H1, H2.
Qed.

Lemma value_head_app (a b : string) : value_head a -> value_head (a +:+ b).
Proof.
  intros (c & t & -> & H). exists c, (t +:+ b). by rewrite append_cons.
Qed.

(** A value whose text parses back, whatever follows it. *)
Definition roundtrips (v : value) : Prop :=
  exists text,
    ref_json_dumps v = Ok text /\
    value_head text /\
    weight v <= S (String.length text) /\
    forall fuel rest,
      weight v <= fuel -> delimited rest ->
      parse_value fuel (text +:+ rest) = Ok (v, rest).

Lemma parse_value_space (fuel : nat) (s : string) :
  parse_value fuel (String " " s) = parse_value fuel s.
Proof. by destruct fuel. Qed.

Lemma parse_items_space (fuel : nat) (s : string) :
  parse_items fuel (String " " s) = parse_items fuel s.
Proof. destruct fuel; [done |]. cbn [parse_items]. by rewrite parse_value_space. Qed.

Lemma parse_members_space (fuel : nat) (seen : list (value * value)) (s : string) :
  parse_members fuel seen (String " " s) = parse_members fuel seen s.
Proof. by destruct fuel. Qed.

Lemma delimited_comma (r : string) : delimited (String "," r).
Proof. right. exists ","%char, r. split; [done | by left]. Qed.

Lemma delimited_bracket (r : string) : delimited (String "]" r).
Proof. right. exists "]"%char, r. split; [done | right; by left]. Qed.

Lemma delimited_brace (r : string) : delimited (String "}" r).
Proof. right. exists "}"%char, r. split; [done | right; by right]. Qed.

Lemma join_str_cons (sep x : string) (rest : list string) :
  rest <> [] -> join_str sep (x :: rest) = x +:+ sep +:+ join_str sep rest.
Proof. by destruct rest. Qed.

Lemma mapM_cons {A B} (f : A -> result B) (x : A) (rest : list A)
    (y : B) (ys : list B) :
  f x = Ok y -> mapM f rest = Ok ys -> mapM f (x :: rest) = Ok (y :: ys).
Proof. intros Hx Hrest. cbn [mapM]. by rewrite Hx, Hrest. Qed.

Lemma mapM_nonempty {A B} (f : A -> result B) (items : list A) (ys : list B) :
  mapM f items = Ok ys -> items <> [] -> ys <> [].
Proof.
  destruct items as [|x rest]; [done |]. cbn [mapM].
  destruct (f x); [| done]. cbn. destruct (mapM f rest); [| done].
  cbn. by intros [= <-].
Qed.

(** The items of a list, from the first item to the closing bracket. *)
Lemma roundtrip_items (items : list value) :
  All roundtrips items -> items <> [] ->
  exists parts,
    mapM ref_json_dumps items = Ok parts /\
    value_head (join_str ", " parts) /\
    sum_of (fun x => S (weight x)) items
    <= String.length (join_str ", " parts) + 2 /\
    forall fuel rest,
      sum_of (fun x => S (weight x)) items <= fuel ->
      parse_items fuel (join_str ", " parts +:+ String "]" rest)
      = Ok (items, rest).
Proof.
  induction items as [|x items IH]; [done |]. intros [Hx Hitems] _.
  destruct Hx as (t & Hdumps & Hhead & Hweight & Hparse).
  destruct items as [|y items].
  - exists [t]. split; [by apply mapM_cons |]. cbn [join_str sum_of].
    split; [done |]. split; [lia |].
    intros fuel rest Hfuel. destruct fuel as [|fuel]; [lia |].
    cbn [parse_items]. rewrite Hparse by (lia || apply delimited_bracket).
    reflexivity.
  - destruct (IH Hitems ltac:(done)) as (parts & Hparts & Hhead' & Hsum & Hrest).
    exists (t :: parts). split; [by apply mapM_cons |].
    rewrite join_str_cons by (by eapply mapM_nonempty).
    set (J := join_str ", " parts) in *.
    set (W := sum_of (fun x => S (weight x)) (y :: items)) in *.
    split; [by apply value_head_app |]. split.
    { rewrite !length_append. subst W. cbn [sum_of String.length] in *. lia. }
    intros fuel rest Hfuel.
    assert (S (weight x) + W <= fuel) as Hfuel' by exact Hfuel. clear Hfuel.
    destruct fuel as [|fuel]; [lia |]. cbn [parse_items].
    rewrite !append_assoc, !append_cons, append_nil_l.
    rewrite Hparse by (lia || apply delimited_comma).
    cbn [mbind result_bind]. cbn [skip_ws is_space take_char]. cbn.
    rewrite parse_items_space, Hrest by lia. reflexivity.
Qed.

(** The text of a member of a dict. *)
Definition member_text (member : value * value) : result string :=
  key ← dumps_key (fst member);
  part ← ref_json_dumps (snd member);
  Ok (key +:+ ": " +:+ part).

Lemma dict_set_fresh (k : string) (v : value) (seen : list (value * value)) :
  (forall member, In member seen -> exists s, fst member = PyStr s) ->
  ~ In (PyStr k) (map fst seen) ->
  dict_set k v seen = seen ++ [(PyStr k, v)].
Proof.
  induction seen as [|[key x] seen IH]; [done |]. intros Hkeys Hfresh.
  destruct (Hkeys (key, x)) as [s Hs]; [by left |]. cbn in Hs. subst key.
  cbn [dict_set]. destruct (String.eqb s k) eqn:Hsk.
  - apply String.eqb_eq in Hsk as ->. exfalso. apply Hfresh. by left.
  - cbn [app]. f_equal. apply IH.
    + intros member Hin. apply Hkeys. by right.
    + intros Hin. apply Hfresh. by right.
Qed.

Lemma dumps_str_head (k : string) : value_head (dumps_str k).
Proof.
  unfold dumps_str.
  exists quote, (escape k +:+ String quote ""). by repeat split.
Qed.

(** The members of a dict, from the first key to the closing brace. *)
Lemma roundtrip_members (items : list (value * value)) :
  forall seen,
    All (fun member => (exists k, fst member = PyStr k) /\ roundtrips (snd member))
        items ->
    items <> [] ->
    NoDup (map fst (seen ++ items)) ->
    (forall member, In member seen -> exists s, fst member = PyStr s) ->
    exists parts,
      mapM member_text items = Ok parts /\
      value_head (join_str ", " parts) /\
      sum_of (fun member => S (weight (snd member))) items
      <= String.length (join_str ", " parts) + 2 /\
      forall fuel rest,
        sum_of (fun member => S (weight (snd member))) items <= fuel ->
        parse_members fuel seen (join_str ", " parts +:+ String "}" rest)
        = Ok (seen ++ items, rest).
Proof.
  induction items as [|[key x] items IH]; [done |].
  intros seen [[[k Hk] Hx] Hitems] _ Hnd Hseen. cbn in Hk. subst key.
  destruct Hx as (t & Hdumps & Hhead & Hweight & Hparse). cbn [snd] in *.
  assert (member_text (PyStr k, x) = Ok (dumps_str k +:+ ": " +:+ t)) as Hmember.
  { unfold member_text. cbn [fst snd dumps_key mbind result_bind].
    by rewrite Hdumps. }
  assert (dict_set k x seen = seen ++ [(PyStr k, x)]) as Hset.
  { apply dict_set_fresh; [done |]. rewrite map_app in Hnd.
    apply NoDup_app in Hnd as (_ & Hnd & _). intros Hin.
    apply (Hnd (PyStr k)); [by apply list_elem_of_In |]. cbn. left. }
  assert (forall fuel tail,
            weight x <= fuel -> delimited tail ->
            parse_members (S fuel) seen ((dumps_str k +:+ ": " +:+ t) +:+ tail)
            = match take_char "," tail, take_char "}" tail with
              | Some rest, _ => parse_members fuel (seen ++ [(PyStr k, x)]) rest
              | _, Some rest => Ok (seen ++ [(PyStr k, x)], rest)
              | None, None => Raise (ValueError "Expecting ',' delimiter")
              end) as Hstep.
  { intros fuel tail Hfuel Htail. cbn [parse_members].
    rewrite !append_assoc.
    rewrite value_head_skip by apply dumps_str_head.
    rewrite parse_str_dumps, parse_str_escape. cbn [mbind result_bind].
    rewrite !append_cons, append_nil_l. cbn [skip_ws is_space take_char]. cbn.
    rewrite parse_value_space, Hparse by done. cbn [mbind result_bind].
    rewrite Hset.
    destruct Htail as [-> | (c & r & -> & [-> | [-> | ->]])]; reflexivity. }
  destruct items as [|member items].
  - exists [dumps_str k +:+ ": " +:+ t]. split; [by apply mapM_cons |].
    cbn [join_str sum_of snd]. split; [apply value_head_app, dumps_str_head |]. split.
    { rewrite !length_append. cbn. lia. }
    intros fuel rest Hfuel. destruct fuel as [|fuel]; [lia |].
    rewrite Hstep by (lia || apply delimited_brace). reflexivity.
  - destruct (IH (seen ++ [(PyStr k, x)]) Hitems ltac:(done))
      as (parts & Hparts & Hhead' & Hsum & Hrest).
    { by rewrite <- app_assoc. }
    { intros m [Hm | [<- | []]]%in_app_or; [by apply Hseen | by exists k]. }
    exists ((dumps_str k +:+ ": " +:+ t) :: parts).
    split; [by apply mapM_cons |].
    rewrite join_str_cons by (by eapply mapM_nonempty).
    set (J := join_str ", " parts) in *.
    set (W := sum_of (fun m => S (weight (snd m))) (member :: items)) in *.
    split; [apply value_head_app, value_head_app, dumps_str_head |]. split.
    { rewrite !length_append. subst W. cbn [sum_of snd String.length] in *. lia. }
    intros fuel rest Hfuel.
    assert (S (weight x) + W <= fuel) as Hfuel' by exact Hfuel. clear Hfuel.
    destruct fuel as [|fuel]; [lia |].
    rewrite (append_assoc _ (", " +:+ J)), (append_assoc ", " J).
    rewrite Hstep by (lia || (rewrite append_cons; apply delimited_comma)).
    rewrite !append_cons, append_nil_l. cbn [take_char]. cbn.
    rewrite parse_members_space, Hrest by lia.
    by rewrite <- app_assoc.
Qed.

Lemma All_impl {A} (P Q : A -> Prop) (items : list A) :
  All (fun x => P x -> Q x) items -> All P items -> All Q items.
Proof.
  induction items as [|x items IH]; [done |].
  intros [Hx Hitems] [Px Pitems]. split; [by apply Hx | by apply IH].
Qed.

(** The first character of the text of an integer. *)
Definition int_head (c : ascii) : Prop := c = "-"%char \/ is_digit c = true.

Lemma str_of_Z_head (z : Z) :
  exists c t, str_of_Z z = String c t /\ int_head c.
Proof.
  unfold str_of_Z. destruct (z <? 0)%Z.
  - rewrite append_cons. eexists _, _. split; [done | by left].
  - destruct (str_of_N_head (Z.to_N z)) as (c & t & -> & Hc & _).
    exists c, t. split; [done | by right].
Qed.

Lemma int_head_other (c d : ascii) :
  int_head c -> Ascii.eqb d "-" = false -> is_digit d = false ->
  Ascii.eqb c d = false.
Proof.
  intros [-> | Hc] Hminus Hdigit; [by rewrite Ascii.eqb_sym |].
  by apply is_digit_not.
Qed.

Lemma int_head_value (c : ascii) (t : string) :
  int_head c -> value_head (String c t).
Proof.
  intros Hc. exists c, t. unfold is_space.
  by rewrite !(int_head_other c) by done.
Qed.

Lemma parse_value_int (fuel : nat) (c : ascii) (t : string) :
  int_head c -> parse_value (S fuel) (String c t) = parse_int (String c t).
Proof.
  intros Hc. cbn [parse_value skip_ws].
  destruct (int_head_value c t Hc) as (c' & t' & [= <- <-] & -> & _).
  cbn [take_char strip_prefix].
  rewrite (Ascii.eqb_sym "n" c), (Ascii.eqb_sym "t" c), (Ascii.eqb_sym "f" c).
  by rewrite !(int_head_other c) by done.
Qed.

(** Every value of the JSON shape is printed and parsed back. *)
Lemma json_shaped_roundtrips (v : value) : json_shaped v -> roundtrips v.
Proof.
  induction v as [|s|b|z|f|items IH|items IH|id] using value_nested_ind;
    intros Hshape; try done.
  - exists "null". repeat split; [by eexists _, _ | cbn; lia |].
    intros [|fuel] rest Hfuel _; [cbn in Hfuel; lia | reflexivity].
  - exists (dumps_str s). split; [done |]. split; [| split; [cbn; lia |]].
    { apply dumps_str_head. }
    intros [|fuel] rest Hfuel _; [cbn in Hfuel; lia |].
    cbn [parse_value]. rewrite value_head_skip by apply dumps_str_head.
    rewrite parse_str_dumps.
    unfold dumps_str at 1 2. rewrite !append_cons. cbn [take_char]. cbn.
    by rewrite parse_str_escape.
  - destruct b.
    + exists "true". repeat split; [by eexists _, _ | cbn; lia |].
      intros [|fuel] rest Hfuel _; [cbn in Hfuel; lia | reflexivity].
    + exists "false". repeat split; [by eexists _, _ | cbn; lia |].
      intros [|fuel] rest Hfuel _; [cbn in Hfuel; lia | reflexivity].
  - exists (str_of_Z z). split; [done |].
    destruct (str_of_Z_head z) as (c & t & Hs & Hc).
    split; [rewrite Hs; by apply int_head_value |].
    split; [cbn; lia |].
    intros [|fuel] rest Hfuel Hrest; [cbn in Hfuel; lia |].
    rewrite <- (parse_int_str_of_Z z rest Hrest), Hs, append_cons.
    by apply parse_value_int.
  - cbn [json_shaped] in Hshape. pose proof (All_impl _ _ _ IH Hshape) as Hall.
    destruct items as [|x items].
    { exists "[]". repeat split; [by eexists _, _ | cbn; lia |].
      intros [|fuel] rest Hfuel _; [cbn in Hfuel; lia | reflexivity]. }
    destruct (roundtrip_items (x :: items) Hall ltac:(done))
      as (parts & Hparts & Hhead & Hsum & Hparse).
    exists ("[" +:+ join_str ", " parts +:+ "]"). split.
    { cbn [ref_json_dumps]. by rewrite Hparts. }
    split; [by eexists _, _ |].
    split.
    { rewrite !length_append. cbn [weight String.length]. lia. }
    intros [|fuel] rest Hfuel Hrest; [cbn in Hfuel; lia |].
    cbn [weight] in Hfuel.
    rewrite !append_cons, !append_nil_l, append_assoc, append_cons, append_nil_l.
    cbn [parse_value skip_ws is_space take_char]. cbn.
    rewrite value_head_skip by done.
    destruct (value_head_take _ (String "]" rest) Hhead) as [-> _].
    rewrite Hparse by lia. reflexivity.
  - cbn [json_shaped] in Hshape. destruct Hshape as [Hshape Hnd].
    assert (All (fun member => (exists k, fst member = PyStr k) /\
                               roundtrips (snd member)) items) as Hall.
    { clear Hnd. induction items as [|member items IHitems]; [done |].
      destruct IH as [Hx IH], Hshape as [[Hk Hs] Hshape].
      split; [split; [done | by apply Hx] | by apply IHitems]. }
    destruct items as [|member items].
    { exists "{}". repeat split; [by eexists _, _ | cbn; lia |].
      intros [|fuel] rest Hfuel _; [cbn in Hfuel; lia | reflexivity]. }
    destruct (roundtrip_members (member :: items) [] Hall ltac:(done) Hnd
                ltac:(by intros ? []))
      as (parts & Hparts & Hhead & Hsum & Hparse).
    exists ("{" +:+ join_str ", " parts +:+ "}"). split.
    { cbn [ref_json_dumps]. fold member_text. by rewrite Hparts. }
    split; [by eexists _, _ |].
    split.
    { rewrite !length_append. cbn [weight String.length]. lia. }
    intros [|fuel] rest Hfuel Hrest; [cbn in Hfuel; lia |].
    cbn [weight] in Hfuel.
    rewrite !append_cons, !append_nil_l, append_assoc, append_cons, append_nil_l.
    cbn [parse_value skip_ws is_space take_char]. cbn.
    rewrite value_head_skip by done.
    destruct (value_head_take _ (String "}" rest) Hhead) as [_ ->].
    rewrite Hparse by lia. reflexivity.
Qed.

(** [json.loads(json.dumps(v))] is [v] on this host, for every value made of
    [None], booleans, integers, strings, lists and dicts with distinct string
    keys. *)
Lemma ref_json_roundtrip (v : value) :
  json_shaped v ->
  exists text, ref_json_dumps v = Ok text /\ ref_json_loads text = Ok v.
Proof.
  intros Hshape.
  destruct (json_shaped_roundtrips v Hshape) as (text & Hdumps & _ & Hweight & Hparse).
  exists text. split; [done |]. unfold ref_json_loads.
  rewrite <- (append_nil_r text) at 2.
  rewrite Hparse by (lia || by left). reflexivity.
Qed.

End ReferenceFacts.

(* ===================================================================== *)
(** * Properties of pipeline.py *)
(* ===================================================================== *)

Module PipelineSpec.
Import Py Gaffer Pipeline GafferFacts.

Section WithHost.
Variable host : Host.

(** ** [get_containers] *)

(** A node is a container when it has a [user] plug with the six required
    keys and the value of [user.id] is one of the two container ids. *)
Definition is_container (node : Node) : bool :=
  has_plug ["user"] (node_plugs node) &&
  forallb (fun key => has_plug ["user"; key] (node_plugs node)) required &&
  match find_plug ["user"; "id"] (node_plugs node) with
  | Some plug =>
      match getValue plug with
      | Ok v => is_container_id host v
      | Raise _ => false
      end
  | None => false
  end.

(** The plugs under the required keys hold values. *)
Definition value_plugs (node : Node) : Prop :=
  forall key plug,
    In key required ->
    find_plug ["user"; key] (node_plugs node) = Some plug ->
    plug_data plug <> CompoundPlug.

(** The dict that is yielded for a container node. *)
Definition yielded_for (script : ScriptNode) (node : Node) (c : Container) : Prop :=
  map fst c = required ++ ["objectName"; "_node"] /\
  (forall key, In key required ->
     exists plug v,
       find_plug ["user"; key] (node_plugs node) = Some plug /\
       getValue plug = Ok v /\ container_get key c = Ok v) /\
  container_get "objectName" c = Ok (PyStr (fullName script node)) /\
  container_get "_node" c = Ok (PyObj (node_id node)).

Lemma getValue_value_plug (plug : Plug) :
  plug_data plug <> CompoundPlug -> exists v, getValue plug = Ok v.
Proof. unfold getValue. destruct (plug_data plug); eauto. done. Qed.

Lemma existsb_negb_forallb {A} (f : A -> bool) (l : list A) :
  existsb (fun x => negb (f x)) l = negb (forallb f l).
Proof.
  induction l as [|x l IH]; [done |]. cbn. rewrite IH.
  by destruct (f x), (forallb f l).
Qed.

Lemma container_of_spec (script : ScriptNode) (node : Node) :
  value_plugs node ->
  (is_container node = false /\ container_of host script node = Ok None) \/
  (is_container node = true /\
   exists c, container_of host script node = Ok (Some c) /\
             yielded_for script node c).
Proof.
  intros Hval. unfold container_of, is_container.
  destruct (has_plug ["user"] (node_plugs node)); cbn [negb andb]; [| by left].
  rewrite existsb_negb_forallb.
  destruct (forallb _ required) eqn:Hall; cbn [negb andb]; [| by left].
  assert (forall key, In key required ->
            exists plug v, find_plug ["user"; key] (node_plugs node) = Some plug
                           /\ getValue plug = Ok v) as Hkeys.
  { intros key Hkey. rewrite forallb_forall in Hall.
    specialize (Hall key Hkey). unfold has_plug in Hall.
    destruct (find_plug ["user"; key] (node_plugs node)) as [plug|] eqn:Hf;
      [| done].
    destruct (getValue_value_plug plug) as [v Hv]; [by eapply Hval | eauto]. }
  destruct (Hkeys "schema") as (p1 & v1 & Hf1 & Hv1); [cbn; tauto |].
  destruct (Hkeys "id") as (p2 & v2 & Hf2 & Hv2); [cbn; tauto |].
  destruct (Hkeys "name") as (p3 & v3 & Hf3 & Hv3); [cbn; tauto |].
  destruct (Hkeys "namespace") as (p4 & v4 & Hf4 & Hv4); [cbn; tauto |].
  destruct (Hkeys "representation") as (p5 & v5 & Hf5 & Hv5); [cbn; tauto |].
  destruct (Hkeys "loader") as (p6 & v6 & Hf6 & Hv6); [cbn; tauto |].
  unfold getitem_plug, required; cbn [app read_keys].
  unfold getitem_plug; cbn [app].
  rewrite Hf1, Hf2, Hf3, Hf4, Hf5, Hf6. cbn [mbind result_bind].
  rewrite Hv1, Hv2, Hv3, Hv4, Hv5, Hv6. cbn [mbind result_bind].
  destruct (is_container_id host v2); cbn [negb]; [right | by left].
  split; [done |]. eexists. split; [reflexivity |].
  split; [reflexivity |]. split; [| split; reflexivity].
  intros key Hkey. cbn in Hkey.
  destruct Hkey as [<- | [<- | [<- | [<- | [<- | [<- | []]]]]]];
    eexists _, _; (split; [eassumption |]); (split; [eassumption |]);
    reflexivity.
Qed.


Lemma node_id_inj (nodes : list Node) (a b : Node) :
  NoDup (map node_id nodes) ->
  In a nodes -> In b nodes -> node_id a = node_id b -> a = b.
Proof.
  induction nodes as [|n nodes IH]; [done |].
  cbn [map]. intros [Hn Hnd]%NoDup_cons [<- | Ha] [<- | Hb] Hid; try done.
  - exfalso. apply Hn. rewrite Hid. apply list_elem_of_In. by apply in_map.
  - exfalso. apply Hn. rewrite <- Hid. apply list_elem_of_In. by apply in_map.
  - by apply IH.
Qed.


(** *** The generator *)

(** The six keys of the container schema. *)
Definition container_keys : list string :=
  ["schema"; "id"; "name"; "namespace"; "representation"; "loader"].

(** A node is recognised when it has a [user] plug with the six keys and
    the plug [user.id] holds one of the two container ids. *)
Definition recognised (node : Node) : Prop :=
  has_plug ["user"] (node_plugs node) = true /\
  (forall key, In key container_keys ->
     has_plug ["user"; key] (node_plugs node) = true) /\
  exists plug,
    find_plug ["user"; "id"] (node_plugs node) = Some plug /\
    (getValue plug = Ok (PyStr (AYON_CONTAINER_ID host)) \/
     getValue plug = Ok (PyStr (AVALON_CONTAINER_ID host))).

(** The dict of a node: the six keys, each with the value of its plug, then
    the full name of the node and the node. *)
Definition container_for (script : ScriptNode) (node : Node) (c : Container)
    : Prop :=
  map fst c = container_keys ++ ["objectName"; "_node"] /\
  (forall key, In key container_keys ->
     exists plug v,
       find_plug ["user"; key] (node_plugs node) = Some plug /\
       getValue plug = Ok v /\ container_get key c = Ok v) /\
  container_get "objectName" c = Ok (PyStr (fullName script node)) /\
  container_get "_node" c = Ok (PyObj (node_id node)).

Lemma is_container_id_ids (v : value) :
  is_container_id host v = true ->
  v = PyStr (AYON_CONTAINER_ID host) \/ v = PyStr (AVALON_CONTAINER_ID host).
Proof.
  destruct v as [|s| | | | | |]; try done. cbn [is_container_id].
  intros [->%String.eqb_eq | ->%String.eqb_eq]%orb_true_iff; auto.
Qed.

(** A dict that the body of the loop gives is the dict of a recognised
    node. *)
Lemma container_of_some (script : ScriptNode) (node : Node) (c : Container) :
  container_of host script node = Ok (Some c) ->
  recognised node /\ container_for script node c.
Proof.
  unfold container_of.
  destruct (has_plug ["user"] (node_plugs node)) eqn:Huser; cbn [negb];
    [| done].
  rewrite existsb_negb_forallb.
  destruct (forallb _ required) eqn:Hall; cbn [negb]; [| done].
  rewrite forallb_forall in Hall.
  assert (forall key, In key container_keys ->
            exists plug, find_plug ["user"; key] (node_plugs node) = Some plug)
    as Hkeys.
  { intros key Hkey. specialize (Hall key Hkey). unfold has_plug in Hall.
    destruct (find_plug ["user"; key] (node_plugs node)); [eauto | done]. }
  destruct (Hkeys "schema") as (p1 & Hf1); [cbn; tauto |].
  destruct (Hkeys "id") as (p2 & Hf2); [cbn; tauto |].
  destruct (Hkeys "name") as (p3 & Hf3); [cbn; tauto |].
  destruct (Hkeys "namespace") as (p4 & Hf4); [cbn; tauto |].
  destruct (Hkeys "representation") as (p5 & Hf5); [cbn; tauto |].
  destruct (Hkeys "loader") as (p6 & Hf6); [cbn; tauto |].
  unfold getitem_plug, required; cbn [app read_keys].
  unfold getitem_plug; cbn [app].
  rewrite Hf1, Hf2, Hf3, Hf4, Hf5, Hf6. cbn [mbind result_bind].
  destruct (getValue p2) as [v2|] eqn:Hv2; [| done]. cbn [mbind result_bind].
  destruct (is_container_id host v2) eqn:Hid; cbn [negb]; [| done].
  destruct (getValue p1) as [v1|] eqn:Hv1; [| done]. cbn [mbind result_bind].
  destruct (getValue p3) as [v3|] eqn:Hv3; [| done]. cbn [mbind result_bind].
  destruct (getValue p4) as [v4|] eqn:Hv4; [| done]. cbn [mbind result_bind].
  destruct (getValue p5) as [v5|] eqn:Hv5; [| done]. cbn [mbind result_bind].
  destruct (getValue p6) as [v6|] eqn:Hv6; [| done]. cbn [mbind result_bind].
  intros [= <-]. split.
  - split; [done |]. split; [exact Hall |]. exists p2. split; [done |].
    rewrite Hv2. destruct (is_container_id_ids v2 Hid) as [-> | ->]; auto.
  - split; [reflexivity |]. split; [| split; reflexivity].
    intros key Hkey. cbn in Hkey.
    destruct Hkey as [<- | [<- | [<- | [<- | [<- | [<- | []]]]]]];
      eexists _, _; (split; [eassumption |]); (split; [eassumption |]);
      reflexivity.
Qed.

Lemma recognised_is_container (node : Node) :
  recognised node -> is_container node = true.
Proof.
  intros (Huser & Hkeys & plug & Hfind & Hid). unfold is_container.
  rewrite Huser, Hfind. cbn [andb].
  assert (forallb (fun key => has_plug ["user"; key] (node_plugs node))
                  required = true) as ->.
  { apply forallb_forall. exact Hkeys. }
  cbn [andb]. destruct Hid as [-> | ->]; cbn [is_container_id];
    rewrite String.eqb_refl; [done | apply orb_true_r].
Qed.

(** With values under the required keys the body of the loop does not
    raise, and a recognised node gets its dict. *)
Lemma container_of_value_plugs (script : ScriptNode) (node : Node) :
  value_plugs node ->
  (exists found, container_of host script node = Ok found) /\
  (recognised node -> exists c, container_of host script node = Ok (Some c)).
Proof.
  intros Hval.
  destruct (container_of_spec script node Hval)
    as [[Hno Hc] | [_ (c & Hc & _)]].
  - split; [eauto |]. intros Hyes%recognised_is_container. congruence.
  - split; eauto.
Qed.

(** What has been yielded comes from a child. *)
Lemma get_containers_yield_elem (script : ScriptNode) (nodes : list Node)
    (c : Container) :
  In c (fst (get_containers_yield host script nodes)) ->
  exists node, In node nodes /\ container_of host script node = Ok (Some c).
Proof.
  induction nodes as [|n nodes IH]; [done |]. cbn [get_containers_yield].
  destruct (container_of host script n) as [found|] eqn:Hn; [| done].
  destruct (get_containers_yield host script nodes) as [rest ending].
  cbn [fst] in *. destruct found as [c0|].
  - intros [<- | Hin].
    + exists n. split; [by left | done].
    + destruct (IH Hin) as (node & Hnode & Hc). exists node.
      split; [by right | done].
  - intros Hin. destruct (IH Hin) as (node & Hnode & Hc). exists node.
    split; [by right | done].
Qed.

(** The dict of a child is yielded when no child before it raises. *)
Lemma get_containers_yield_reaches (script : ScriptNode)
    (before after : list Node) (node : Node) (c : Container) :
  (forall n, In n before -> value_plugs n) ->
  container_of host script node = Ok (Some c) ->
  In c (fst (get_containers_yield host script (before ++ node :: after))).
Proof.
  intros Hbefore Hc. induction before as [|n before IH];
    cbn [app get_containers_yield].
  - rewrite Hc. destruct (get_containers_yield host script after). by left.
  - destruct (container_of_value_plugs script n) as [[found ->] _];
      [apply Hbefore; by left |].
    specialize (IH (fun m Hm => Hbefore m (or_intror Hm))).
    destruct (get_containers_yield host script (before ++ node :: after))
      as [rest ending].
    cbn [fst] in *. destruct found; [by right | done].
Qed.

(** The run to the end gives what the generator has yielded, or the
    exception that has ended it. *)
Lemma get_containers_yield_run (script : ScriptNode) (nodes : list Node) :
  get_containers_loop host script nodes
  = match get_containers_yield host script nodes with
    | (yielded, None) => Ok yielded
    | (_, Some e) => Raise e
    end.
Proof.
  induction nodes as [|n nodes IH]; [done |].
  cbn [get_containers_loop get_containers_yield]. rewrite IH.
  destruct (container_of host script n) as [found|]; [| done].
  cbn [mbind result_bind].
  by destruct (get_containers_yield host script nodes) as [rest [e|]].
Qed.

Lemma get_containers_yield_ends (script : ScriptNode) (nodes : list Node) :
  (forall n, In n nodes -> value_plugs n) ->
  snd (get_containers_yield host script nodes) = None.
Proof.
  induction nodes as [|n nodes IH]; intros Hval; [done |].
  cbn [get_containers_yield].
  destruct (container_of_value_plugs script n) as [[found ->] _];
    [apply Hval; by left |].
  specialize (IH (fun m Hm => Hval m (or_intror Hm))).
  by destruct (get_containers_yield host script nodes) as [rest ending].
Qed.

(** C1 (as amended).  For a child of the root script whose plugs under the
    six keys hold values, as do those of the children before it, in a script
    whose nodes are distinct objects: the generator yields a dict that refers
    to the child if and only if the child has a [user] plug with the six keys
    and the plug [user.id] holds one of the two container ids; the dict maps
    each of the six keys to the value of its plug and carries the full name
    of the node under [objectName] and the node under [_node].  When the
    plugs of the children behind it hold values too, the generator ends
    without an exception, and a generator that ends so has yielded the list
    of a run to the end. *)
Theorem get_containers_recognised (script : ScriptNode)
    (before after : list Node) (node : Node) :
  script_nodes script = before ++ node :: after ->
  NoDup (map node_id (script_nodes script)) ->
  (forall n, In n before -> value_plugs n) ->
  value_plugs node ->
  exists yielded ending,
    get_containers_yield host script (script_nodes script)
    = (yielded, ending) /\
    ((exists c, In c yielded /\
                container_get "_node" c = Ok (PyObj (node_id node)))
     <-> recognised node) /\
    (forall c, In c yielded ->
               container_get "_node" c = Ok (PyObj (node_id node)) ->
               container_for script node c) /\
    ((forall n, In n after -> value_plugs n) -> ending = None) /\
    (ending = None -> get_containers host script = Ok yielded).
Proof.
  intros Hnodes Hids Hbefore Hnode.
  destruct (get_containers_yield host script (script_nodes script))
    as [yielded ending] eqn:Hrun.
  exists yielded, ending. split; [done |].
  assert (In node (script_nodes script)) as Hin.
  { rewrite Hnodes. apply in_app_iff. right. by left. }
  assert (forall c, In c yielded ->
            container_get "_node" c = Ok (PyObj (node_id node)) ->
            recognised node /\ container_for script node c) as Hback.
  { intros c Hc Hid.
    pose proof (get_containers_yield_elem script (script_nodes script) c)
      as Helem.
    rewrite Hrun in Helem. destruct (Helem Hc) as (n & Hn & Hcn).
    destruct (container_of_some script n c Hcn) as [Hrec Hfor].
    assert (n = node) as ->; [| done].
    apply (node_id_inj (script_nodes script)); try done.
    destruct Hfor as (_ & _ & _ & Hn'). congruence. }
  split; [split |]; [| | split; [| split]].
  - intros (c & Hc & Hid). by apply (Hback c).
  - intros Hrec.
    destruct (container_of_value_plugs script node Hnode) as [_ Hsome].
    destruct (Hsome Hrec) as [c Hc]. exists c. split.
    + pose proof (get_containers_yield_reaches script before after node c
                    Hbefore Hc) as Hreach.
      by rewrite <- Hnodes, Hrun in Hreach.
    + by destruct (container_of_some script node c Hc) as [_ (_ & _ & _ & ?)].
  - intros c Hc Hid. by apply (Hback c).
  - intros Hafter.
    pose proof (get_containers_yield_ends script (script_nodes script)) as Hend.
    rewrite Hrun in Hend. apply Hend. intros n. rewrite Hnodes.
    intros [Hn | [<- | Hn]]%in_app_iff; auto.
  - intros ->. unfold get_containers.
    by rewrite get_containers_yield_run, Hrun.
Qed.


(** ** [imprint] and [imprint_container] *)

(** What the host promises of [setValue] on a string: once it has returned,
    the plug holds the string. *)
Definition setValue_stores : Prop :=
  forall plug s plug',
    setValue host plug (PyStr s) = Ok plug' -> getValue plug' = Ok (PyStr s).

Definition is_str (v : value) : Prop := exists s, v = PyStr s.

Lemma imprint_item_str (section : string) (node : Node)
    (log : list log_record) (key s : string) :
  setValue_stores ->
  has_plug ["user"] (node_plugs node) = true ->
  exists node' log' plug,
    imprint_item host section (node, log) (key, PyStr s) = Ok (node', log') /\
    node_id node' = node_id node /\
    node_name node' = node_name node /\
    find_plug ["user"; key] (node_plugs node') = Some plug /\
    getValue plug = Ok (PyStr s) /\
    (forall q, is_prefix ["user"; key] q = false ->
       find_plug q (node_plugs node') = find_plug q (node_plugs node)).
Proof.
  intros Hhost Huser. unfold imprint_item, getitem_plug, dict_to_json.
  cbn [app mbind result_bind]. unfold has_plug in Huser.
  destruct (find_plug ["user"] (node_plugs node)) as [user|] eqn:Hu; [| done].
  cbn [mbind result_bind].
  destruct (find_plug ["user"; key] (node_plugs node)) as [old|] eqn:Hold.
  - destruct (setValue host old (PyStr s)) as [plug'|e] eqn:Hset.
    + eexists _, _, plug'. split; [reflexivity |].
      cbn [node_id node_name node_plugs].
      split; [done |]. split; [done |]. split.
      * apply find_store_same. unfold has_plug. by rewrite Hold.
      * split; [by eapply Hhost |]. intros q Hq. apply find_store_other.
        intros ->. by rewrite is_prefix_refl in Hq.
    + eexists _, _, _. split; [reflexivity |].
      cbn [node_id node_name node_plugs].
      split; [done |]. split; [done |]. split.
      * apply (find_setitem_same ["user"] key).
      * split; [done |]. intros q Hq. by apply (find_setitem_other ["user"] key).
  - eexists _, _, _. split; [reflexivity |].
    cbn [node_id node_name node_plugs].
    split; [done |]. split; [done |]. split.
    + apply (find_setitem_same ["user"] key).
    + split; [done |]. intros q Hq. by apply (find_setitem_other ["user"] key).
Qed.

Lemma is_prefix_user_key (key key' : string) :
  key <> key' -> is_prefix ["user"; key] ["user"; key'] = false.
Proof.
  intros Hne. cbn. destruct (String.eqb key key') eqn:Heq; [| done].
  by apply String.eqb_eq in Heq.
Qed.

(** A run of [imprint] over string values ends; every key is then a plug
    under [user] that holds its string, and the plugs that are not under one
    of the keys are as before. *)
Lemma imprint_loop_str (section : string) (items : list (string * value)) :
  setValue_stores ->
  Forall (fun item => is_str (snd item)) items ->
  NoDup (map fst items) ->
  forall node log,
    has_plug ["user"] (node_plugs node) = true ->
    exists node' log',
      imprint_loop host section (node, log) items = Ok (node', log') /\
      node_id node' = node_id node /\
      node_name node' = node_name node /\
      (forall key v, In (key, v) items ->
         exists plug, find_plug ["user"; key] (node_plugs node') = Some plug /\
                      getValue plug = Ok v) /\
      (forall q, (forall key, In key (map fst items) ->
                    is_prefix ["user"; key] q = false) ->
         find_plug q (node_plugs node') = find_plug q (node_plugs node)).
Proof.
  intros Hhost. induction items as [|[key v] items IH];
    intros Hstr Hkeys node log Huser.
  - exists node, log. by repeat split.
  - apply Forall_cons in Hstr as [[s Hs] Hstr]. cbn in Hs. subst v.
    cbn [map fst] in Hkeys. apply NoDup_cons in Hkeys as [Hkey Hkeys].
    destruct (imprint_item_str section node log key s Hhost Huser)
      as (node1 & log1 & plug & Hitem & Hid1 & Hname1 & Hfind & Hval & Hother).
    assert (has_plug ["user"] (node_plugs node1) = true) as Huser1.
    { unfold has_plug in *. by rewrite Hother. }
    destruct (IH Hstr Hkeys node1 log1 Huser1)
      as (node2 & log2 & Hrun & Hid2 & Hname2 & Hitems & Hframe).
    exists node2, log2. cbn [imprint_loop]. rewrite Hitem.
    cbn [mbind result_bind]. split; [done |].
    split; [congruence |]. split; [congruence |]. split.
    + intros key' v' [[= <- <-] | Hin]; [| by apply Hitems].
      exists plug. split; [| done]. rewrite Hframe; [done |].
      intros key' Hkey'. apply is_prefix_user_key. intros ->.
      apply Hkey. by apply list_elem_of_In.
    + intros q Hq. rewrite Hframe, Hother; [done | |].
      * apply Hq. by left.
      * intros key' Hkey'. apply Hq. by right.
Qed.


(** The items that [imprint_container] hands to [imprint]. *)
Definition container_items (name namespace loader rid : value)
    : list (string * value) :=
  [("schema", PyStr "openpype:container-2.0");
   ("id", PyStr (AYON_CONTAINER_ID host));
   ("name", PyStr (str host name));
   ("namespace", PyStr (str host namespace));
   ("loader", PyStr (str host loader));
   ("representation", PyStr (str host rid))].

Lemma container_items_str (name namespace loader rid : value) :
  Forall (fun item => is_str (snd item))
         (container_items name namespace loader rid).
Proof. repeat constructor; by eexists. Qed.

Lemma container_items_keys (name namespace loader rid : value) :
  NoDup (map fst (container_items name namespace loader rid)).
Proof.
  apply NoDup_ListNoDup. cbn.
  repeat (constructor; [cbn; intuition discriminate |]). constructor.
Qed.



(** *** Best effort per key *)









(** ** Context data *)

(** What [update_context_data] stores is what [get_context_data] decodes. *)
Lemma update_then_get_context_data (script : ScriptNode) (data changes : value)
    (text : string) :
  has_plug ["user"] (script_plugs script) = true ->
  json_dumps host data = Ok text ->
  exists script',
    update_context_data host script data changes = Ok script' /\
    (exists plug,
       find_plug ["user"; _context_plug] (script_plugs script') = Some plug /\
       getValue plug = Ok (PyStr text)) /\
    get_context_data host script' = json_loads host text.
Proof.
  intros Huser Hdumps. unfold update_context_data, getitem_plug.
  rewrite Hdumps. cbn [app mbind result_bind].
  pose proof Huser as Huser'. unfold has_plug in Huser'.
  destruct (find_plug ["user"] (script_plugs script)); [| done].
  cbn [mbind result_bind]. eexists. split; [reflexivity |].
  cbn [script_plugs]. split.
  - eexists. split; [apply (find_setitem_same ["user"] _context_plug) | done].
  - unfold get_context_data, getitem_plug. cbn [script_plugs app].
    rewrite (has_setitem_other ["user"] _context_plug) by done.
    rewrite Huser, (has_setitem_same ["user"] _context_plug).
    cbn [andb]. by rewrite (find_setitem_same ["user"] _context_plug).
Qed.

(** C3 (as amended).  After [update_context_data(data, changes)] the reserved
    plug holds the JSON text of the data and [get_context_data] returns what
    the decoder makes of that text: the data itself whenever the codec gives
    the data back.  While the reserved plug does not exist the result is the
    empty dict. *)
Theorem context_data_roundtrip (script : ScriptNode) (data changes : value)
    (text : string) :
  (has_plug ["user"] (script_plugs script) = true ->
   json_dumps host data = Ok text ->
   exists script',
     update_context_data host script data changes = Ok script' /\
     (exists plug,
        find_plug ["user"; _context_plug] (script_plugs script') = Some plug /\
        getValue plug = Ok (PyStr text)) /\
     get_context_data host script' = json_loads host text /\
     (json_loads host text = Ok data ->
      get_context_data host script' = Ok data)) /\
  (has_plug ["user"; _context_plug] (script_plugs script) = false ->
   get_context_data host script = Ok (PyDict [])).
Proof.
  split.
  - intros Huser Hdumps.
    destruct (update_then_get_context_data script data changes text Huser Hdumps)
      as (script' & Hupdate & Hplug & Hget).
    exists script'. split; [done |]. split; [done |].
    split; [done | intros Hloads; by rewrite Hget].
  - intros Hnone. unfold get_context_data. rewrite Hnone.
    by rewrite andb_false_r.
Qed.

(** ** Workfiles *)

Lemma _on_scene_new_raises (script : ScriptNode) :
  exists script' e, _on_scene_new host script = (script', Raise e).
Proof.
  unfold _on_scene_new.
  destruct (update_project_root_directory host script) as [script1 [[]|e]];
    [| by eexists _, _].
  unfold update_root_context_variables.
  destruct (get_current_context host); by eexists _, _.
Qed.

(** C5.  For a path that does not exist [open_workfile] raises
    [RuntimeError] and the root script is as before.  For a path that exists
    the call does not return the path: once the file name is set and the
    script is loaded, [_on_scene_new] calls a function that lib.py does not
    define, and the call ends with an exception. *)
Theorem open_workfile_raises (root : option ScriptNode) (filepath : string) :
  (path_exists host filepath = false ->
   open_workfile host root filepath
   = (root, Raise (RuntimeError ("File does not exist: " +:+ filepath)))) /\
  (exists root' e, open_workfile host root filepath = (root', Raise e)).
Proof.
  unfold open_workfile. split.
  - by intros ->.
  - destruct (path_exists host filepath); cbn [negb]; [| by eexists _, _].
    destruct root as [script|]; [| by eexists _, _].
    destruct (script_setValue _ _ _ _ script) as [script1 [[]|e]];
      [| by eexists _, _].
    destruct (load host script1) as [script2 [[]|e]]; [| by eexists _, _].
    destruct (_on_scene_new_raises script2) as (script3 & e & ->).
    by eexists _, _.
Qed.

End WithHost.

(** ** The reference host *)

Lemma ref_setValue_stores : setValue_stores Reference.host.
Proof.
  intros plug s plug'. cbn [setValue Reference.host].
  unfold Reference.ref_setValue, getValue.
  destruct (plug_input plug); [done |].
  destruct (plug_data plug); try done. by intros [= <-].
Qed.

Lemma loaded_script_value_plugs (node : Node) :
  In node (script_nodes Reference.loaded_script) -> value_plugs node.
Proof.
  intros [<- | [<- | []]] key plug Hkey Hfind; cbn in Hkey;
    destruct Hkey as [<- | [<- | [<- | [<- | [<- | [<- | []]]]]]];
    vm_compute in Hfind; try discriminate; by injection Hfind as <-.
Qed.

Lemma sample_ids (script : ScriptNode) :
  map node_id (script_nodes script) = [1; 2] ->
  NoDup (map node_id (script_nodes script)).
Proof.
  intros ->. apply NoDup_ListNoDup.
  repeat (constructor; [cbn; lia |]). constructor.
Qed.

Lemma get_containers_recognised_witness :
  exists yielded ending,
    get_containers_yield Reference.host Reference.loaded_script
      (script_nodes Reference.loaded_script)
    = (yielded, ending) /\
    ((exists c, In c yielded /\
                container_get "_node" c
                = Ok (PyObj (node_id Reference.container_node)))
     <-> recognised Reference.host Reference.container_node) /\
    (forall c, In c yielded ->
               container_get "_node" c
               = Ok (PyObj (node_id Reference.container_node)) ->
               container_for Reference.loaded_script Reference.container_node
                             c) /\
    ((forall n, In n [Reference.plain_node] -> value_plugs n) ->
     ending = None) /\
    (ending = None ->
     get_containers Reference.host Reference.loaded_script = Ok yielded).
Proof.
  apply (get_containers_recognised Reference.host Reference.loaded_script
           [] [Reference.plain_node] Reference.container_node).
  - reflexivity.
  - apply sample_ids. reflexivity.
  - intros n [].
  - apply loaded_script_value_plugs. by left.
Defined.

(** A node with a [user] plug, the six keys and a container id, whose
    [name] is a plug without a value; it comes behind the nodes of the
    loaded script. *)
Definition unnamed_node : Node :=
  {| node_id := 3; node_name := "Reader";
     node_plugs :=
       [(["user"], Reference.plug_of CompoundPlug None);
        (["user"; "schema"],
         Reference.plug_of (StringPlug "" "openpype:container-2.0") None);
        (["user"; "id"],
         Reference.plug_of
           (StringPlug "" (AYON_CONTAINER_ID Reference.host)) None);
        (["user"; "name"], Reference.plug_of CompoundPlug None);
        (["user"; "namespace"], Reference.plug_of (StringPlug "" "sh020") None);
        (["user"; "representation"],
         Reference.plug_of (StringPlug "" "0a1b2c") None);
        (["user"; "loader"],
         Reference.plug_of (StringPlug "" "GafferLoadScene") None)] |}.

Definition unnamed_script : ScriptNode :=
  with_nodes (script_nodes Reference.loaded_script ++ [unnamed_node])
             Reference.loaded_script.

(** C1 (as stated) fails for a node whose plug under a required key holds
    no value: the node has the [user] plug, the six keys and a container id,
    and the generator raises [AttributeError] when it comes to the node, so
    that no dict is yielded for it; the dict of the node before it has been
    yielded by then, and a run to the end gives the exception only. *)
Lemma get_containers_unnamed_node :
  In unnamed_node (script_nodes unnamed_script) /\
  recognised Reference.host unnamed_node /\
  (exists c,
     get_containers_yield Reference.host unnamed_script
       (script_nodes unnamed_script)
     = ([c], Some (AttributeError "getValue")) /\
     container_get "_node" c = Ok (PyObj 1)) /\
  ~ (exists c,
       In c (fst (get_containers_yield Reference.host unnamed_script
                    (script_nodes unnamed_script))) /\
       container_get "_node" c = Ok (PyObj (node_id unnamed_node))) /\
  get_containers Reference.host unnamed_script
  = Raise (AttributeError "getValue").
Proof.
  split; [right; right; by left |]. split.
  { split; [reflexivity |]. split.
    - intros key Hkey. cbn in Hkey.
      by destruct Hkey as [<- | [<- | [<- | [<- | [<- | [<- | []]]]]]].
    - eexists. split; [reflexivity |]. by left. }
  split; [eexists; split; vm_compute; reflexivity |].
  split; [| vm_compute; reflexivity].
  intros (c & Hc & Hid). vm_compute in Hc. destruct Hc as [<- | []].
  vm_compute in Hid. discriminate.
Qed.

Example get_containers_loaded_script :
  get_containers Reference.host Reference.loaded_script
  = Ok [[("schema", PyStr "openpype:container-2.0");
         ("id", PyStr "ayon.load.container");
         ("name", PyStr "modelMain");
         ("namespace", PyStr "sh010");
         ("representation", PyStr "a1b2c3");
         ("loader", PyStr "GafferLoadScene");
         ("objectName", PyStr "ScriptNode.modelMain");
         ("_node", PyObj 1)]].
Proof. vm_compute. reflexivity. Qed.




Example imprint_list_raises :
  imprint Reference.host Reference.plain_node
    [("note", PyList [PyInt 1]); ("other", PyStr "x")] "Ayon"
  = Raise (TypeError "Unsupported value type: list").
Proof. vm_compute. reflexivity. Qed.

Definition sample_data : value :=
  PyDict [(PyStr "project", PyStr "proj"); (PyStr "frames", PyList [PyInt 1001; PyInt 1100])].

(** The JSON text of the sample data. *)
Definition sample_text : string :=
  match json_dumps Reference.host sample_data with
  | Ok text => text
  | Raise _ => ""
  end.

Lemma context_data_roundtrip_witness :
  has_plug ["user"] (script_plugs Reference.sample_script) = true /\
  json_dumps Reference.host sample_data = Ok sample_text /\
  json_loads Reference.host sample_text = Ok sample_data /\
  exists script',
    update_context_data Reference.host Reference.sample_script sample_data PyNone
    = Ok script' /\
    get_context_data Reference.host script' = Ok sample_data.
Proof.
  split; [reflexivity |]. split; [vm_compute; reflexivity |].
  split; [vm_compute; reflexivity |].
  destruct (proj1 (context_data_roundtrip Reference.host Reference.sample_script
                     sample_data PyNone sample_text)
              eq_refl ltac:(vm_compute; reflexivity))
    as (script' & Hupdate & _ & _ & Hget).
  exists script'. split; [exact Hupdate |]. apply Hget. vm_compute. reflexivity.
Defined.

(** C3 (as stated) fails for a dict with an integer key: [json.dumps]
    writes the key as a string, and a dict with the string [1] as its key
    comes back. *)
Lemma context_data_int_key :
  ~ (forall (script : ScriptNode) (data changes : value) (text : string)
            (script' : ScriptNode),
       has_plug ["user"] (script_plugs script) = true ->
       json_dumps Reference.host data = Ok text ->
       update_context_data Reference.host script data changes = Ok script' ->
       get_context_data Reference.host script' = Ok data).
Proof.
  intros H.
  specialize (H Reference.sample_script (PyDict [(PyInt 1, PyInt 2)]) PyNone).
  destruct (update_context_data Reference.host Reference.sample_script
              (PyDict [(PyInt 1, PyInt 2)]) PyNone) as [script'|] eqn:Hupdate;
    [| vm_compute in Hupdate; discriminate].
  specialize (H _ script' eq_refl ltac:(vm_compute; reflexivity) eq_refl).
  vm_compute in Hupdate. injection Hupdate as <-.
  vm_compute in H. discriminate.
Qed.

Example context_data_int_key_result :
  (script' ← update_context_data Reference.host Reference.sample_script
               (PyDict [(PyInt 1, PyInt 2)]) PyNone;
   get_context_data Reference.host script')
  = Ok (PyDict [(PyStr "1", PyInt 2)]).
Proof. vm_compute. reflexivity. Qed.

(** On the reference host the context data comes back for every dict made of
    [None], booleans, integers, strings, lists and dicts with distinct string
    keys. *)
Corollary context_data_reference (script : ScriptNode) (data changes : value) :
  has_plug ["user"] (script_plugs script) = true ->
  Reference.json_shaped data ->
  exists script',
    update_context_data Reference.host script data changes = Ok script' /\
    get_context_data Reference.host script' = Ok data.
Proof.
  intros Huser Hshape.
  destruct (ReferenceFacts.ref_json_roundtrip data Hshape)
    as (text & Hdumps & Hloads).
  destruct (update_then_get_context_data Reference.host script data changes text
              Huser Hdumps) as (script' & Hupdate & _ & Hget).
  exists script'. split; [done |]. by rewrite Hget.
Qed.

Lemma open_workfile_raises_witness :
  path_exists Reference.host "/proj/missing.gfr" = false /\
  open_workfile Reference.host (Some Reference.sample_script) "/proj/missing.gfr"
  = (Some Reference.sample_script,
     Raise (RuntimeError "File does not exist: /proj/missing.gfr")).
Proof.
  split; [reflexivity |].
  exact (proj1 (open_workfile_raises Reference.host
                  (Some Reference.sample_script) "/proj/missing.gfr") eq_refl).
Defined.

(** On the reference host, with the root script set and the workfile on
    disk, the file name is set, the script is loaded, the project root is
    written, and the call ends in [AttributeError]. *)
Example open_workfile_existing :
  path_exists Reference.host Reference.workfile = true /\
  exists script',
    open_workfile Reference.host (Some Reference.sample_script) Reference.workfile
    = (Some script', Raise (AttributeError "update_root_context_variables")) /\
    (getitem_plug [] "fileName" (script_plugs script') ≫= getValue)
    = Ok (PyStr Reference.workfile).
Proof. split; [reflexivity |]. eexists. split; vm_compute; reflexivity. Qed.

End PipelineSpec.

(* ===================================================================== *)
(** * Properties of load_scene.py *)
(* ===================================================================== *)

Module GafferLoadSceneSpec.
Import Py Gaffer Pipeline GafferLoadScene GafferFacts.

Section WithHost.
Variable host : Host.

Lemma with_node_ok (id : nat) (f : Node -> Node * result unit)
    (nodes nodes' : list Node) :
  with_node id f nodes = (nodes', Ok ()) ->
  exists pre node node' post,
    nodes = pre ++ node :: post /\
    nodes' = pre ++ node' :: post /\
    node_id node = id /\
    f node = (node', Ok ()).
Proof.
  revert nodes'. induction nodes as [|n rest IH]; intros nodes'; [done |].
  cbn [with_node]. destruct (Nat.eqb (node_id n) id) eqn:Hid.
  - apply Nat.eqb_eq in Hid. destruct (f n) as [n' r] eqn:Hf.
    intros [= <- ->]. by exists [], n, n', rest.
  - destruct (with_node id f rest) as [rest' r] eqn:Hrest.
    intros [= <- ->].
    destruct (IH rest' eq_refl) as (pre & node & node' & post & -> & -> & ? & ?).
    by exists (n :: pre), node, node', post.
Qed.

Lemma update_node_ok (representation : value) (path : string)
    (node node' : Node) :
  update_node host representation path node = (node', Ok ()) ->
  exists fileName fileName' rep rep' rid,
    find_plug ["fileName"] (node_plugs node) = Some fileName /\
    setValue host fileName (PyStr path) = Ok fileName' /\
    find_plug ["user"; "representation"] (node_plugs node) = Some rep /\
    getitem representation "_id" = Ok rid /\
    setValue host rep (PyStr (str host rid)) = Ok rep' /\
    node' = {| node_id := node_id node; node_name := node_name node;
               node_plugs :=
                 store_plug ["user"; "representation"] rep'
                   (store_plug ["fileName"] fileName' (node_plugs node)) |}.
Proof.
  unfold update_node, getitem_plug. cbn [app node_plugs].
  destruct (find_plug ["fileName"] (node_plugs node)) as [fileName|] eqn:Hf;
    [| done].
  destruct (setValue host fileName (PyStr path)) as [fileName'|] eqn:Hset;
    [| done].
  rewrite !(find_store_other ["fileName"]) by done.
  destruct (find_plug ["user"] (node_plugs node)); [| done].
  cbn [mbind result_bind].
  destruct (find_plug ["user"; "representation"] (node_plugs node))
    as [rep|] eqn:Hr; [| done].
  cbn [mbind result_bind].
  destruct (getitem representation "_id") as [rid|] eqn:Hrid; [| done].
  cbn [mbind result_bind].
  destruct (setValue host rep (PyStr (str host rid))) as [rep'|] eqn:Hset';
    [| done].
  intros [= <-]. by exists fileName, fileName', rep, rep', rid.
Qed.

Lemma store_plug_paths (path : list string) (plug : Plug) (plugs : Plugs) :
  map fst (store_plug path plug plugs) = map fst plugs.
Proof.
  induction plugs as [|[q old] rest IH]; [done |]. cbn [store_plug].
  destruct (path_eqb path q); [done |]. cbn [map fst]. by rewrite IH.
Qed.

(** [stored] is [path] with every backslash turned into a slash: the two
    have the same length and the same characters, but for a slash where
    [path] has a backslash. *)
Definition slashed (path stored : string) : Prop :=
  String.length stored = String.length path /\
  forall i, String.get i stored
            = (fun c => if Ascii.eqb c "\" then "/"%char else c)
                <$> String.get i path.

(** C8.  [switch] is [update]: on every container, representation and
    script the two calls end in the same script with the same outcome.  On a
    host that keeps the string it is given, a call that returns has set the
    [fileName] plug of the node of the container to the path of the
    representation with every backslash turned into a slash, and the
    [representation] plug under [user] to the string of the id of the
    representation: the two plugs read back so, the stored path holds no
    backslash, and the other plugs of the node, its identity and name, the
    other nodes and the plugs of the script are as before. *)
Theorem switch_is_update (container : Container) (representation : value)
    (script : ScriptNode) :
  PipelineSpec.setValue_stores host ->
  switch host container representation script
  = update host container representation script /\
  forall script',
    update host container representation script = (script', Ok ()) ->
    exists id path rid pre node post fileName fileName' rep rep' stored node',
      container_get "_node" container = Ok (PyObj id) /\
      get_representation_path host representation = Ok path /\
      getitem representation "_id" = Ok rid /\
      script_nodes script = pre ++ node :: post /\
      node_id node = id /\
      find_plug ["fileName"] (node_plugs node) = Some fileName /\
      setValue host fileName (PyStr (replace_char "\" "/" path)) = Ok fileName' /\
      find_plug ["user"; "representation"] (node_plugs node) = Some rep /\
      setValue host rep (PyStr (str host rid)) = Ok rep' /\
      script' =
        with_nodes
          (pre ++
           {| node_id := node_id node; node_name := node_name node;
              node_plugs :=
                store_plug ["user"; "representation"] rep'
                  (store_plug ["fileName"] fileName' (node_plugs node)) |}
           :: post)
          script /\
      (* what the call has left *)
      script_fullName script' = script_fullName script /\
      script_plugs script' = script_plugs script /\
      script_nodes script' = pre ++ node' :: post /\
      node_id node' = node_id node /\
      node_name node' = node_name node /\
      map fst (node_plugs node') = map fst (node_plugs node) /\
      (forall q, q <> ["fileName"] -> q <> ["user"; "representation"] ->
         find_plug q (node_plugs node') = find_plug q (node_plugs node)) /\
      (getitem_plug [] "fileName" (node_plugs node') ≫= getValue)
      = Ok (PyStr stored) /\
      slashed path stored /\
      contains_char "\" stored = false /\
      (getitem_plug ["user"] "representation" (node_plugs node') ≫= getValue)
      = Ok (PyStr (str host rid)).
Proof.
  intros Hstores. split; [reflexivity |]. intros script'. unfold update.
  destruct (get_representation_path host representation) as [path|] eqn:Hpath;
    [| done].
  cbn [mbind result_bind].
  destruct (container_get "_node" container) as [ref|] eqn:Hnode; [| done].
  cbn [mbind result_bind]. destruct ref as [| | | | | | |id]; try done.
  destruct (with_node id _ (script_nodes script)) as [nodes r] eqn:Hwith.
  intros [= <- ->].
  apply with_node_ok in Hwith as (pre & node & node' & post & Hpre & -> & Hid & Hf).
  apply update_node_ok in Hf
    as (fileName & fileName' & rep & rep' & rid & Hfile & Hset & Hrep & Hrid
        & Hset' & ->).
  exists id, path, rid, pre, node, post, fileName, fileName', rep, rep',
    (replace_char "\" "/" path),
    {| node_id := node_id node; node_name := node_name node;
       node_plugs :=
         store_plug ["user"; "representation"] rep'
           (store_plug ["fileName"] fileName' (node_plugs node)) |}.
  do 15 (split; [done |]). cbn [node_id node_name node_plugs].
  split; [by rewrite !store_plug_paths |].
  split; [intros q Hq Hq'; by rewrite !find_store_other |].
  assert (has_plug ["fileName"] (node_plugs node) = true) as Hhas
    by (unfold has_plug; by rewrite Hfile).
  assert (has_plug ["user"; "representation"]
            (store_plug ["fileName"] fileName' (node_plugs node)) = true)
    as Hhas'.
  { rewrite has_store. unfold has_plug. by rewrite Hrep. }
  split.
  { unfold getitem_plug. cbn [app].
    rewrite find_store_other by done. rewrite find_store_same by done.
    cbn [mbind result_bind]. by apply (Hstores fileName). }
  split; [split; [apply PyFacts.replace_char_length
                 | apply PyFacts.replace_char_get] |].
  split; [by apply PyFacts.replace_char_clean |].
  unfold getitem_plug. cbn [app]. rewrite find_store_same by done.
  cbn [mbind result_bind]. by apply (Hstores rep).
Qed.

End WithHost.

(** ** On the reference host *)

(** The container of the sample script and a newer representation of it. *)
Definition sample_container : Container :=
  match get_containers Reference.host Reference.loaded_script with
  | Ok [c] => c
  | _ => []
  end.

Definition newer : value :=
  PyDict [(PyStr "_id", PyStr "d4e5f6");
          (PyStr "path", PyStr "C:\proj\model_v002.abc")].

Definition updated_script : ScriptNode :=
  fst (update Reference.host sample_container newer Reference.loaded_script).

Lemma switch_is_update_witness :
  update Reference.host sample_container newer Reference.loaded_script
  = (updated_script, Ok ()) /\
  exists id path rid pre node post fileName fileName' rep rep' stored node',
    container_get "_node" sample_container = Ok (PyObj id) /\
    get_representation_path Reference.host newer = Ok path /\
    getitem newer "_id" = Ok rid /\
    script_nodes Reference.loaded_script = pre ++ node :: post /\
    node_id node = id /\
    find_plug ["fileName"] (node_plugs node) = Some fileName /\
    setValue Reference.host fileName (PyStr (replace_char "\" "/" path))
    = Ok fileName' /\
    find_plug ["user"; "representation"] (node_plugs node) = Some rep /\
    setValue Reference.host rep (PyStr (str Reference.host rid)) = Ok rep' /\
    updated_script =
      with_nodes
        (pre ++
         {| node_id := node_id node; node_name := node_name node;
            node_plugs :=
              store_plug ["user"; "representation"] rep'
                (store_plug ["fileName"] fileName' (node_plugs node)) |}
         :: post)
        Reference.loaded_script /\
    script_fullName updated_script = script_fullName Reference.loaded_script /\
    script_plugs updated_script = script_plugs Reference.loaded_script /\
    script_nodes updated_script = pre ++ node' :: post /\
    node_id node' = node_id node /\
    node_name node' = node_name node /\
    map fst (node_plugs node') = map fst (node_plugs node) /\
    (forall q, q <> ["fileName"] -> q <> ["user"; "representation"] ->
       find_plug q (node_plugs node') = find_plug q (node_plugs node)) /\
    (getitem_plug [] "fileName" (node_plugs node') ≫= getValue)
    = Ok (PyStr stored) /\
    slashed path stored /\
    contains_char "\" stored = false /\
    (getitem_plug ["user"] "representation" (node_plugs node') ≫= getValue)
    = Ok (PyStr (str Reference.host rid)).
Proof.
  split; [vm_compute; reflexivity |].
  apply (proj2 (switch_is_update Reference.host sample_container newer
                  Reference.loaded_script PipelineSpec.ref_setValue_stores)).
  vm_compute. reflexivity.
Defined.

Example update_sample_container :
  (node ← match find_node 1 (script_nodes updated_script) with
          | Some node => Ok node
          | None => Raise (KeyError "modelMain")
          end;
   fileName ← getitem_plug [] "fileName" (node_plugs node) ≫= getValue;
   representation ←
     getitem_plug ["user"] "representation" (node_plugs node) ≫= getValue;
   Ok (fileName, representation))
  = Ok (PyStr "C:/proj/model_v002.abc", PyStr "d4e5f6").
Proof. vm_compute. reflexivity. Qed.

End GafferLoadSceneSpec.

(* ===================================================================== *)
(** * Properties of lib.py *)
(* ===================================================================== *)

Module LibSpec.
Import Py Gaffer Lib PyFacts GafferFacts.

Lemma append_present (plug v : string) :
  str_in v (split comma plug) = true ->
  append_to_csv_plug plug v false = plug.
Proof.
  intros Hin. unfold append_to_csv_plug. rewrite Hin. cbn.
  apply join_split.
Qed.

Lemma append_absent (plug v : string) :
  str_in v (split comma plug) = false ->
  append_to_csv_plug plug v false = plug +:+ String comma v.
Proof.
  intros Hin. unfold append_to_csv_plug. rewrite Hin. cbn.
  rewrite join_snoc by apply split_nonempty. by rewrite join_split.
Qed.

Lemma append_dup (plug v : string) :
  append_to_csv_plug plug v true = plug +:+ String comma v.
Proof.
  unfold append_to_csv_plug.
  rewrite join_snoc by apply split_nonempty. by rewrite join_split.
Qed.

Lemma split_snoc_field (plug v : string) :
  contains_char comma v = false ->
  split comma (plug +:+ String comma v) = split comma plug ++ [v].
Proof.
  intros Hv.
  rewrite <- (join_split comma plug) at 1.
  rewrite <- join_snoc by apply split_nonempty.
  apply split_join.
  - by destruct (split comma plug).
  - apply Forall_app; split; [apply split_fields_clean |].
    by repeat constructor.
Qed.

(** C10 (as amended).  Without duplicates allowed, a value that is already a
    field leaves the plug equal to the join of its split, which is the plug
    value itself; for a value that holds no comma a second call changes
    nothing.  With duplicates allowed the value is always appended after a
    comma, and it is one new trailing field when it holds no comma. *)
Theorem append_to_csv_plug_idempotent (plug v : string) :
  (str_in v (split comma plug) = true ->
     append_to_csv_plug plug v false = join comma (split comma plug) /\
     append_to_csv_plug plug v false = plug) /\
  (contains_char comma v = false ->
     append_to_csv_plug (append_to_csv_plug plug v false) v false
     = append_to_csv_plug plug v false) /\
  append_to_csv_plug plug v true = join comma (split comma plug ++ [v]) /\
  append_to_csv_plug plug v true = plug +:+ String comma v /\
  (contains_char comma v = false ->
     split comma (append_to_csv_plug plug v true) = split comma plug ++ [v]).
Proof.
  split; [| split; [| split; [| split]]].
  - intros Hin. rewrite append_present by done. by rewrite join_split.
  - intros Hv. destruct (str_in v (split comma plug)) eqn:Hin.
    + rewrite (append_present plug v Hin). by apply append_present.
    + rewrite (append_absent plug v Hin).
      apply append_present. rewrite split_snoc_field by done.
      apply str_in_snoc.
  - reflexivity.
  - apply append_dup.
  - intros Hv. rewrite append_dup. by apply split_snoc_field.
Qed.

Lemma append_to_csv_plug_idempotent_witness :
  contains_char comma "c" = false /\
  append_to_csv_plug (append_to_csv_plug "a,b" "c" false) "c" false
  = append_to_csv_plug "a,b" "c" false.
Proof.
  split; [reflexivity |].
  exact (proj1 (proj2 (append_to_csv_plug_idempotent "a,b" "c")) eq_refl).
Defined.

(** C10 (as stated) fails for a value that holds a comma: the second call
    does not find the value among the fields and appends it again. *)
Lemma append_to_csv_plug_not_idempotent :
  ~ (forall plug v : string,
       append_to_csv_plug (append_to_csv_plug plug v false) v false
       = append_to_csv_plug plug v false).
Proof. intros H. specialize (H "x" "a,b"). vm_compute in H. discriminate. Qed.

(** ** [get_next_valid_name] *)

Lemma match_template_at_padding (s head padding tail : string) :
  match_template_at s = Some (head, padding, tail) -> padding <> "".
Proof.
  unfold match_template_at.
  destruct (span is_word s) as [h r]. destruct (span (Ascii.eqb "#") r) as [pd r'].
  destruct pd; [done |]. destruct (span is_word r'). by intros [= <- <- <-].
Qed.

Lemma search_template_padding (s head padding tail : string) :
  search_template s = Some (head, padding, tail) -> padding <> "".
Proof.
  induction s as [|c s IH]; cbn [search_template];
    destruct (match_template_at _) as [[[h pd] t]|] eqn:Hm; try done;
    intros [= <- <- <-]; by eapply match_template_at_padding.
Qed.

(** When no child matches the head and tail of the template, the number 1 is
    used, padded with zeros to the length of the block of [#]. *)
Lemma get_next_valid_name_first (template head padding tail : string)
    (children : list string) :
  search_template template = Some (head, padding, tail) ->
  (forall name, In name children -> match_head_tail head tail name = false) ->
  get_next_valid_name template children
  = Ok (head +:+ zfill (String.length padding) "1" +:+ tail).
Proof.
  intros Hs Hnone. unfold get_next_valid_name. rewrite Hs.
  pose proof (search_template_padding _ _ _ _ Hs) as Hpad.
  destruct padding as [|c pd]; [done |].
  replace (List.filter _ children) with (@nil string); [done |].
  symmetry. induction children as [|n ns IH]; [done |].
  cbn [List.filter]. rewrite Hnone by (by left).
  apply IH. intros name Hin. apply Hnone. by right.
Qed.

Lemma get_next_valid_name_first_witness :
  get_next_valid_name "node_###" ["fileName"; "Box"] = Ok "node_001".
Proof.
  apply (get_next_valid_name_first "node_###" "node_" "###" "").
  - reflexivity.
  - intros name [<- | [<- | []]]; reflexivity.
Defined.

(** C4.  The number is taken from the last digit of the greatest matching
    name, so with [node_001] and [node_010] in the script the template
    [node_###] yields [node_001] again: the result is the name of an existing
    child that matches the head and tail of the template. *)
Theorem get_next_valid_name_collides :
  let children := ["node_001"; "node_010"] in
  get_next_valid_name "node_###" children = Ok "node_001" /\
  search_template "node_###" = Some ("node_", "###", "") /\
  In "node_001" children /\
  match_head_tail "node_" "" "node_001" = true.
Proof. cbn zeta. repeat split; try (vm_compute; reflexivity). by left. Qed.

(** The documented example: with [node_001] and [node_002] the next name is
    [node_003]. *)
Example get_next_valid_name_doc_example :
  get_next_valid_name "node_###" ["node_001"; "node_002"] = Ok "node_003".
Proof. vm_compute. reflexivity. Qed.

(** A matching name without a digit leaves [next_number] unbound. *)
Example get_next_valid_name_unbound :
  get_next_valid_name "node_#" ["node_x"]
  = Raise (UnboundLocalError "next_number").
Proof. vm_compute. reflexivity. Qed.

(** ** [traverse_scene] *)

Section Traverse.
Variable scene_plug : ScenePlug.

(** The child paths of the paths of one level, in order. *)
Definition next_level (paths : list string) : list string :=
  flat_map (fun path => map (child_path path) (childNames scene_plug path))
           paths.

(** The paths at depth [d] below [root], from left to right. *)
Definition level (root : string) (d : nat) : list string :=
  Nat.iter d next_level [root].

(** The first [depth] levels under [paths], one after the other. *)
Fixpoint level_order (depth : nat) (paths : list string) : list string :=
  match depth with
  | O => []
  | S depth => paths ++ level_order depth (next_level paths)
  end.

Lemma put_children (path : string) (names : list string) (queue : list string) :
  fold_left (fun q child_name => q ++ [child_path path child_name]) names queue
  = queue ++ map (child_path path) names.
Proof.
  revert queue. induction names as [|n ns IH]; intros queue; cbn.
  - by rewrite app_nil_r.
  - by rewrite IH, <- app_assoc.
Qed.

Lemma traverse_loop_cons (fuel : nat) (path : string) (queue : list string) :
  traverse_loop scene_plug (S fuel) (path :: queue)
  = cons path <$> traverse_loop scene_plug fuel
                    (queue ++ map (child_path path) (childNames scene_plug path)).
Proof. cbn [traverse_loop]. by rewrite put_children. Qed.

Lemma next_level_app (a b : list string) :
  next_level (a ++ b) = next_level a ++ next_level b.
Proof. unfold next_level. by rewrite flat_map_app. Qed.

(** The loop empties the current level [cur] while it collects the next level
    behind what was queued already. *)
Lemma traverse_loop_level (cur queued out : list string) (fuel : nat) :
  traverse_loop scene_plug fuel (queued ++ next_level cur) = Some out ->
  traverse_loop scene_plug (length cur + fuel) (cur ++ queued)
  = Some (cur ++ out).
Proof.
  revert queued. induction cur as [|path cur IH]; intros queued Hrest.
  - cbn. by rewrite app_nil_r in Hrest.
  - change (length (path :: cur) + fuel) with (S (length cur + fuel)).
    change ((path :: cur) ++ queued) with (path :: (cur ++ queued)).
    rewrite traverse_loop_cons, <- app_assoc.
    rewrite (IH (queued ++ map (child_path path) (childNames scene_plug path))).
    + done.
    + rewrite <- app_assoc. exact Hrest.
Qed.

Lemma traverse_loop_level_order (depth : nat) (paths : list string) :
  Nat.iter depth next_level paths = [] ->
  traverse_loop scene_plug (length (level_order depth paths)) paths
  = Some (level_order depth paths).
Proof.
  revert paths. induction depth as [|d IH]; intros paths Hend.
  - cbn in Hend. by subst paths.
  - cbn [level_order]. rewrite length_app.
    pose proof (traverse_loop_level paths []
                  (level_order d (next_level paths))
                  (length (level_order d (next_level paths)))) as Hlevel.
    rewrite app_nil_r in Hlevel. apply Hlevel. cbn [app]. apply IH.
    rewrite Nat.iter_succ_r in Hend. exact Hend.
Qed.

(** More fuel does not change what a finished traversal yields. *)
Lemma traverse_loop_more_fuel (fuel fuel' : nat) (queue out : list string) :
  traverse_loop scene_plug fuel queue = Some out ->
  fuel <= fuel' ->
  traverse_loop scene_plug fuel' queue = Some out.
Proof.
  revert fuel' queue out. induction fuel as [|f IH]; intros fuel' queue out.
  - destruct queue; [| done]. intros [= <-] _. by destruct fuel'.
  - destruct queue as [|path queue]; [intros [= <-] _; by destruct fuel' |].
    intros Hrun Hle. destruct fuel' as [|f']; [lia |].
    rewrite traverse_loop_cons in *.
    destruct (traverse_loop scene_plug f _) as [out'|] eqn:Hrest; [| done].
    rewrite (IH f' _ out' Hrest) by lia. exact Hrun.
Qed.

Lemma level_order_levels (root : string) (depth : nat) :
  level_order depth [root] = concat (map (level root) (seq 0 depth)).
Proof.
  unfold level. generalize [root] as paths.
  induction depth as [|d IH]; intros paths; [done |].
  cbn [level_order seq map concat]. f_equal.
  rewrite IH, <- seq_shift, map_map. f_equal.
  apply map_ext. intros k. cbn [Nat.iter]. by rewrite Nat.iter_succ_r.
Qed.

(** [s] is [path] without its trailing slashes: [path] is [s] followed by
    slashes only, and [s] does not end in a slash. *)
Definition without_trailing_slashes (path s : string) : Prop :=
  (exists k, path = s +:+ string_of_list_ascii (repeat "/"%char k)) /\
  (forall t, s <> t +:+ "/").

Lemma rstrip_slashes (c : ascii) (path : string) :
  exists k,
    path = rstrip c path +:+ string_of_list_ascii (repeat c k).
Proof.
  induction path as [|d path [k IH]]; [by exists 0 |]. cbn [rstrip].
  destruct (rstrip c path) as [|x kept] eqn:Hkept.
  - rewrite append_nil_l in IH.
    destruct (Ascii.eqb_spec d c) as [-> | Hd].
    + exists (S k). cbn. by rewrite IH at 1.
    + exists k. rewrite append_cons, append_nil_l. by rewrite IH at 1.
  - exists k. rewrite append_cons. by rewrite IH at 1.
Qed.

Lemma append_snoc_empty (t : string) (c : ascii) : t +:+ String c "" <> "".
Proof. by destruct t. Qed.

Lemma rstrip_ends (c : ascii) (path t : string) :
  rstrip c path <> t +:+ String c "".
Proof.
  revert t. induction path as [|d path IH]; intros t.
  - cbn. intros H. exact (append_snoc_empty t c (eq_sym H)).
  - cbn [rstrip]. destruct (rstrip c path) as [|x kept] eqn:Hkept.
    + destruct (Ascii.eqb_spec d c) as [-> | Hd].
      * intros H. exact (append_snoc_empty t c (eq_sym H)).
      * destruct t as [|y t]; rewrite ?append_nil_l, ?append_cons.
        -- congruence.
        -- intros [= _ H]. exact (append_snoc_empty t c (eq_sym H)).
    + destruct t as [|y t]; rewrite ?append_nil_l, ?append_cons.
      * congruence.
      * intros [= _ H]. by apply (IH t).
Qed.

Lemma rstrip_without_trailing_slashes (path : string) :
  without_trailing_slashes path (rstrip "/" path).
Proof. split; [apply rstrip_slashes | apply rstrip_ends]. Qed.

(** C9.  For a scene that is empty below some depth, the traversal ends and
    yields the levels under [root] one after the other: the root first, then
    every path of depth 1, then every path of depth 2 and so on, each
    location once; the paths of a level are the child paths of the level
    above, built from the parent path without its trailing slashes, a slash
    and the child name. *)
Theorem traverse_scene_breadth_first (root : string) (depth : nat) :
  level root depth = [] ->
  exists fuel yielded,
    (forall fuel', fuel <= fuel' ->
       traverse_scene scene_plug fuel' root = Some yielded) /\
    yielded = concat (map (level root) (seq 0 depth)) /\
    head yielded = Some root /\
    level root 0 = [root] /\
    exists strip : string -> string,
      (forall path, without_trailing_slashes path (strip path)) /\
      forall d, level root (S d)
        = flat_map (fun path => map (fun child_name =>
                      strip path +:+ "/" +:+ child_name)
                      (childNames scene_plug path))
                   (level root d).
Proof.
  intros Hend.
  exists (length (level_order depth [root])), (level_order depth [root]).
  split; [| split; [| split; [| split]]].
  - intros fuel' Hle. unfold traverse_scene.
    eapply traverse_loop_more_fuel; [| exact Hle].
    by apply traverse_loop_level_order.
  - apply level_order_levels.
  - destruct depth; [done | done].
  - done.
  - exists (rstrip "/"). split; [apply rstrip_without_trailing_slashes | done].
Qed.

End Traverse.

(** A small scene: [/] holds [a] and [b], and [/a] holds [c]. *)
Definition sample_scene : ScenePlug :=
  {| childNames := fun path =>
       if String.eqb path "/" then ["a"; "b"]
       else if String.eqb path "/a" then ["c"]
       else [] |}.

Example traverse_sample_scene :
  traverse_scene sample_scene 10 "/" = Some ["/"; "/a"; "/b"; "/a/c"].
Proof. reflexivity. Qed.

Lemma traverse_scene_breadth_first_witness :
  level sample_scene "/" 3 = [] /\
  exists fuel yielded,
    (forall fuel', fuel <= fuel' ->
       traverse_scene sample_scene fuel' "/" = Some yielded) /\
    yielded = ["/"; "/a"; "/b"; "/a/c"] /\
    head yielded = Some "/" /\
    level sample_scene "/" 0 = ["/"] /\
    exists strip : string -> string,
      (forall path, without_trailing_slashes path (strip path)) /\
      forall d, level sample_scene "/" (S d)
        = flat_map (fun path => map (fun child_name =>
                      strip path +:+ "/" +:+ child_name)
                      (childNames sample_scene path))
                   (level sample_scene "/" d).
Proof.
  split; [reflexivity |].
  destruct (traverse_scene_breadth_first sample_scene "/" 3 eq_refl)
    as (fuel & yielded & Hrun & Hlevels & Hhead & Hroot & Hstrip).
  exists fuel, yielded. split; [exact Hrun |].
  split; [rewrite Hlevels; reflexivity |]. by repeat split.
Defined.

(** ** [replace_node] *)

Section Replace.
Variable host : Host.

(** One call of [setInput]: the plug and its new input. *)
Definition wiring : Type := PlugId * option PlugId.

Definition apply_wirings (ops : list wiring) (nodes : list Node) : list Node :=
  fold_left (fun nodes o => setInput (fst o) (snd o) nodes) ops nodes.

(** The calls of [setInput] for one entry of the connections. *)
Definition wirings_for (target : option PlugId) (pluginfo : plugmap)
    : list wiring :=
  match target with
  | Some t => map (fun plug => (t, Some plug)) (plug_in pluginfo)
  | None => []
  end ++ map (fun plug => (plug, target)) (plug_out pluginfo).

Lemma apply_wirings_app (a b : list wiring) (nodes : list Node) :
  apply_wirings (a ++ b) nodes = apply_wirings b (apply_wirings a nodes).
Proof. apply fold_left_app. Qed.

Lemma paths_of_apply_wirings (ops : list wiring) (nodes : list Node) (id : nat) :
  paths_of (apply_wirings ops nodes) id = paths_of nodes id.
Proof.
  revert nodes. induction ops as [|o ops IH]; intros nodes; [done |].
  cbn [apply_wirings fold_left]. fold (apply_wirings ops).
  by rewrite IH, paths_of_setInput.
Qed.

Lemma descendant_paths (parts : list string) (a b : Plugs) :
  map fst a = map fst b -> descendant a parts = descendant b parts.
Proof.
  intros Hab. unfold descendant. generalize (Some (@nil string)) as reached.
  induction parts as [|part parts IH]; intros reached; [done |].
  cbn [fold_left]. rewrite IH. f_equal.
  destruct reached as [path|]; [| done].
  by rewrite (has_plug_paths _ a b).
Qed.

Lemma source_plug_paths (new_id : nat) (a b : list Node) (src : string) :
  paths_of a new_id = paths_of b new_id ->
  source_plug new_id a src = source_plug new_id b src.
Proof.
  unfold paths_of, source_plug.
  destruct (find_node new_id a) as [na|], (find_node new_id b) as [nb|];
    try done.
  intros [= Hpaths]. by rewrite (descendant_paths _ _ _ Hpaths).
Qed.

Lemma fold_left_map {A B C} (f : A -> B -> A) (g : C -> B) (l : list C) (a : A) :
  fold_left f (map g l) a = fold_left (fun a c => f a (g c)) l a.
Proof. revert a. induction l as [|c l IH]; intros a; [done | apply IH]. Qed.

Lemma fold_left_id {A B} (l : list B) (a : A) :
  fold_left (fun a _ => a) l a = a.
Proof. induction l as [|b l IH]; [done | exact IH]. Qed.

Lemma rewire_wirings (new_id : nat) (nodes : list Node)
    (connection : string * plugmap) :
  rewire new_id nodes connection
  = apply_wirings
      (wirings_for (source_plug new_id nodes (fst connection)) (snd connection))
      nodes.
Proof.
  destruct connection as [src pluginfo]. cbn [fst snd].
  unfold rewire, wirings_for. rewrite apply_wirings_app.
  unfold apply_wirings. rewrite fold_left_map. f_equal.
  destruct (source_plug new_id nodes src); cbn [fold_left].
  - by rewrite fold_left_map.
  - apply fold_left_id.
Qed.

(** All the calls of [setInput] that the loop over the connections makes. *)
Definition all_wirings (new_id : nat) (nodes : list Node)
    (connections : list (string * plugmap)) : list wiring :=
  flat_map (fun c => wirings_for (source_plug new_id nodes (fst c)) (snd c))
           connections.

Lemma fold_rewire_wirings (new_id : nat)
    (connections : list (string * plugmap)) (nodes : list Node) :
  fold_left (rewire new_id) connections nodes
  = apply_wirings (all_wirings new_id nodes connections) nodes.
Proof.
  revert nodes. induction connections as [|c cs IH]; intros nodes; [done |].
  cbn [fold_left all_wirings flat_map]. rewrite IH, rewire_wirings.
  rewrite apply_wirings_app. f_equal. unfold all_wirings.
  apply flat_map_ext. intros c' . f_equal.
  apply source_plug_paths, paths_of_apply_wirings.
Qed.


(** *** The values that are carried over leave the connections alone *)








(** *** Removing the old node and naming the new one *)


Lemma find_node_removeChild_same (old_id : nat) (nodes : list Node) :
  find_node old_id (removeChild old_id nodes) = None.
Proof.
  unfold removeChild. induction nodes as [|n rest IH]; [done |].
  cbn [List.filter]. destruct (Nat.eqb (node_id n) old_id) eqn:Hn;
    cbn [negb map find_node node_with_plugs node_id]; [done |].
  by rewrite Hn.
Qed.

Definition cut_input (old_id : nat) (plug : Plug) : Plug :=
  match plug_input plug with
  | Some src =>
      if Nat.eqb (fst src) old_id then plug_with_input None plug else plug
  | None => plug
  end.

Lemma removeChild_cut (old_id : nat) (plugs : Plugs) :
  map (fun entry =>
         match plug_input (snd entry) with
         | Some src =>
             if Nat.eqb (fst src) old_id
             then (fst entry, plug_with_input None (snd entry))
             else entry
         | None => entry
         end) plugs
  = map (fun entry => (fst entry, cut_input old_id (snd entry))) plugs.
Proof.
  apply map_ext. intros [r plug]. unfold cut_input. cbn [fst snd].
  destruct (plug_input plug) as [src|]; [| done].
  by destruct (Nat.eqb (fst src) old_id).
Qed.




Lemma find_node_setName (id id' : nat) (name : string) (nodes : list Node) :
  find_node id' (setName id name nodes)
  = (fun node => if Nat.eqb (node_id node) id
                 then {| node_id := node_id node; node_name := name;
                         node_plugs := node_plugs node |}
                 else node) <$> find_node id' nodes.
Proof.
  unfold setName. apply find_node_map.
  intros n. by destruct (Nat.eqb (node_id n) id).
Qed.



(** *** The walk down a relative name *)

Lemma descendant_none (plugs : Plugs) (parts : list string) :
  fold_left
    (fun reached part =>
       match reached with
       | Some path =>
           if has_plug (path ++ [part]) plugs then Some (path ++ [part])
           else None
       | None => None
       end) parts None = None.
Proof. induction parts as [|part parts IH]; [done | exact IH]. Qed.

Lemma descendant_from (plugs : Plugs) (parts acc d : list string) :
  fold_left
    (fun reached part =>
       match reached with
       | Some path =>
           if has_plug (path ++ [part]) plugs then Some (path ++ [part])
           else None
       | None => None
       end) parts (Some acc) = Some d ->
  d = acc ++ parts /\ (parts <> [] -> has_plug (acc ++ parts) plugs = true).
Proof.
  revert acc. induction parts as [|part parts IH]; intros acc; cbn [fold_left].
  - intros [= <-]. by rewrite app_nil_r.
  - destruct (has_plug (acc ++ [part]) plugs) eqn:Hhas.
    + intros [-> Hrest]%IH. rewrite <- app_assoc. split; [done |].
      intros _. destruct parts as [|part' parts'].
      * by rewrite app_nil_r in *.
      * rewrite <- app_assoc in Hrest. by apply Hrest.
    + by rewrite descendant_none.
Qed.

Lemma descendant_some (plugs : Plugs) (parts d : list string) :
  descendant plugs parts = Some d ->
  d = parts /\ (parts <> [] -> has_plug parts plugs = true).
Proof. intros H. by apply (descendant_from plugs parts [] d). Qed.



(** *** The outputs of a plug *)




(** *** The connections of the old node *)

Definition inputs_outside (old_id : nat) (plug : Plug) : list PlugId :=
  match plug_input plug with
  | Some src => if Nat.eqb (fst src) old_id then [] else [src]
  | None => []
  end.

Definition outputs_outside (nodes : list Node) (old_id : nat)
    (path : list string) : list PlugId :=
  List.filter (fun o => negb (Nat.eqb (fst o) old_id))
              (outputs nodes (old_id, path)).

Lemma connections_elem (nodes : list Node) (old_node : Node)
    (key : string) (pluginfo : plugmap) :
  In (key, pluginfo) (get_node_connections host nodes old_node) <->
  exists path plug,
    In (path, plug) (node_plugs old_node) /\
    serialisable host plug = true /\
    key = relativeName path /\
    plug_in pluginfo = inputs_outside (node_id old_node) plug /\
    plug_out pluginfo = outputs_outside nodes (node_id old_node) path /\
    (plug_in pluginfo <> [] \/ plug_out pluginfo <> []).
Proof.
  unfold get_node_connections, get_all_plugs. rewrite in_flat_map. split.
  - intros ([path plug] & Hentry & Hin). exists path, plug.
    split; [done |]. 
    destruct (serialisable host plug); cbn [negb] in Hin; [| done].
    split; [done |].
    fold (inputs_outside (node_id old_node) plug) in Hin.
    fold (outputs_outside nodes (node_id old_node) path) in Hin.
    assert (In (key, pluginfo)
              match inputs_outside (node_id old_node) plug,
                    outputs_outside nodes (node_id old_node) path with
              | [], [] => []
              | _, _ =>
                  [(relativeName path,
                    {| plug_in := inputs_outside (node_id old_node) plug;
                       plug_out := outputs_outside nodes (node_id old_node) path |})]
              end) as Hin'.
    { destruct (plug_input plug), (outputs nodes (node_id old_node, path));
        try done. }
    clear Hin.
    destruct (inputs_outside _ plug) eqn:Hi,
             (outputs_outside nodes _ path) eqn:Ho; try done;
      destruct Hin' as [[= <- <-] | []]; cbn [plug_in plug_out];
      repeat split; auto; first [by left | by right].
  - intros (path & plug & Hentry & Hser & -> & Hin & Hout & Hany).
    exists (path, plug). split; [done |]. rewrite Hser. cbn [negb].
    fold (inputs_outside (node_id old_node) plug).
    fold (outputs_outside nodes (node_id old_node) path).
    destruct pluginfo as [ins outs]. cbn [plug_in plug_out] in *. subst.
    assert (match plug_input plug, outputs nodes (node_id old_node, path) with
            | None, [] => False
            | _, _ => True
            end) as Hsome.
    { unfold inputs_outside, outputs_outside in Hany.
      destruct (plug_input plug), (outputs nodes (node_id old_node, path));
        try done. cbn in Hany. by destruct Hany. }
    destruct (plug_input plug) eqn:Hp,
             (outputs nodes (node_id old_node, path)) eqn:Ho; try done;
      destruct (inputs_outside _ plug) eqn:Hi,
               (outputs_outside nodes _ path) eqn:Ho'; try (by left);
      by destruct Hany.
Qed.



End Replace.

(** *** On the reference host *)


Definition graph_old : Node :=
  default Reference.scene_reader (find_node 2 (script_nodes Reference.graph)).
Definition graph_replaced : list Node :=
  match replace_node Reference.host Reference.graph 2 3 [] with
  | Ok script' => script_nodes script'
  | Raise _ => []
  end.




(** The plug of the writer read from the plug [out] of the old node; the new
    node has no plug [out], and the writer is left without an input. *)
Example replace_node_disconnects :
  getInput (script_nodes Reference.graph) (4, ["in"]) = Some (2, ["out"]) /\
  getInput graph_replaced (4, ["in"]) = None.
Proof. split; vm_compute; reflexivity. Qed.

End LibSpec.

(* ===================================================================== *)
(** * More properties of [get_next_valid_name] and [append_to_csv_plug] *)
(* ===================================================================== *)

Module NamesSpec.
Import Py Lib PyFacts.

(** Every character of [s] satisfies [p]. *)
Fixpoint all_chars (p : ascii -> bool) (s : string) : bool :=
  match s with
  | "" => true
  | String c s' => p c && all_chars p s'
  end.

Lemma all_chars_app (p : ascii -> bool) (a b : string) :
  all_chars p (a +:+ b) = all_chars p a && all_chars p b.
Proof.
  induction a as [|c a IH]; [by rewrite append_nil_l |].
  rewrite append_cons. cbn. by rewrite IH, andb_assoc.
Qed.

Lemma all_chars_impl (p q : ascii -> bool) (s : string) :
  (forall c, p c = true -> q c = true) ->
  all_chars p s = true -> all_chars q s = true.
Proof.
  intros Hpq. induction s as [|c s IH]; [done |]. cbn.
  intros [Hc Hs]%andb_prop. by rewrite (Hpq c Hc), IH.
Qed.

Lemma span_app (p : ascii -> bool) (s a b : string) :
  span p s = (a, b) -> s = a +:+ b /\ all_chars p a = true.
Proof.
  revert a b. induction s as [|c s IH]; intros a b; cbn [span].
  - by intros [= <- <-].
  - destruct (p c) eqn:Hc; [| by intros [= <- <-]].
    destruct (span p s) as [run rest]. intros [= <- <-].
    destruct (IH run rest eq_refl) as [-> Hrun].
    rewrite append_cons. cbn. by rewrite Hc, Hrun.
Qed.

Lemma span_none (p : ascii -> bool) (s : string) :
  all_chars (fun c => negb (p c)) s = true -> span p s = ("", s).
Proof. destruct s as [|c s]; [done |]. cbn. by destruct (p c). Qed.

Lemma contains_char_app (c : ascii) (a b : string) :
  contains_char c (a +:+ b) = contains_char c a || contains_char c b.
Proof.
  induction a as [|d a IH]; [by rewrite append_nil_l |].
  rewrite append_cons. cbn. by rewrite IH, orb_assoc.
Qed.

(** ** A template without a block of [#] *)

Lemma match_template_at_none (s : string) :
  contains_char "#" s = false -> match_template_at s = None.
Proof.
  intros Hs. unfold match_template_at.
  destruct (span is_word s) as [h r] eqn:Hh.
  destruct (span_app _ _ _ _ Hh) as [-> _].
  rewrite contains_char_app in Hs. apply orb_false_elim in Hs as [_ Hr].
  destruct r as [|c r]; [done |]. cbn [span]. cbn in Hr.
  apply orb_false_elim in Hr as [Hc _]. rewrite Ascii.eqb_sym, Hc. done.
Qed.

Lemma search_template_none (s : string) :
  contains_char "#" s = false -> search_template s = None.
Proof.
  induction s as [|c s IH]; intros Hs; cbn [search_template];
    rewrite match_template_at_none by done; [done |].
  apply IH. cbn in Hs. by apply orb_false_elim in Hs as [_ Hs].
Qed.

(** X1.  A template that holds no [#] comes back as it is, whatever the
    children of the script are called: no number is added, and the name of an
    existing child can come back. *)
Theorem get_next_valid_name_without_block (template : string)
    (children : list string) :
  contains_char "#" template = false ->
  get_next_valid_name template children = Ok template.
Proof.
  intros Hs. unfold get_next_valid_name. rewrite search_template_none by done.
  by rewrite append_nil_l, append_nil_r.
Qed.

Lemma get_next_valid_name_without_block_witness :
  contains_char "#" "Box" = false /\
  get_next_valid_name "Box" ["Box"; "Box1"] = Ok "Box".
Proof.
  split; [reflexivity |].
  apply (get_next_valid_name_without_block "Box" ["Box"; "Box1"]). reflexivity.
Defined.

(** ** The number that is read from a name *)

Lemma match_number_at_greedy (s d : string) :
  match_number_at s = Some d -> exists d', match_greedy_number s = Some d'.
Proof.
  destruct s as [|c s]; [done |]. intros Hd. cbn [match_greedy_number].
  destruct (is_dot c); [| eauto]. destruct (match_greedy_number s); eauto.
Qed.

Lemma is_digit_underscore (c : ascii) :
  is_digit c = true -> Ascii.eqb "_" c = false.
Proof.
  intros Hc. destruct (Ascii.eqb_spec "_" c) as [<- |]; [done | done].
Qed.

(** With nothing further to the right, the digits that match are one digit:
    a longer run of any characters would have left the last digit only. *)
Lemma match_number_at_last (c : ascii) (s d : string) :
  match_greedy_number s = None ->
  match_number_at (String c s) = Some d ->
  exists c', d = String c' "" /\ is_digit c' = true.
Proof.
  intros Hnone. unfold match_number_at at 1. cbn [span].
  destruct (Ascii.eqb "_" c) eqn:Hu.
  - destruct (span (Ascii.eqb "_") s) as [us rest] eqn:Hus.
    intros Hd. exfalso.
    destruct (match_number_at_greedy s d) as [d' Hd']; [| congruence].
    unfold match_number_at. by rewrite Hus.
  - cbn [span]. destruct (is_digit c) eqn:Hc; [| done].
    destruct (span is_digit s) as [run rest] eqn:Hrun.
    destruct run as [|c2 run]; [intros [= <-]; eauto |]. intros _. exfalso.
    destruct (match_number_at_greedy s (String c2 run)) as [d' Hd'];
      [| congruence].
    destruct s as [|c3 s]; [done |]. cbn [span] in Hrun.
    destruct (is_digit c3) eqn:Hc3; [| done].
    unfold match_number_at. cbn [span].
    rewrite (is_digit_underscore c3 Hc3). cbn [span]. rewrite Hc3.
    destruct (span is_digit s). by injection Hrun as <- <- <-.
Qed.

Lemma match_greedy_number_digit (s d : string) :
  match_greedy_number s = Some d ->
  exists c, d = String c "" /\ is_digit c = true.
Proof.
  revert d. induction s as [|c s IH]; intros d; [done |].
  cbn [match_greedy_number]. destruct (is_dot c) eqn:Hdot.
  - destruct (match_greedy_number s) as [d0|] eqn:Hs.
    + intros [= <-]. by apply IH.
    + by apply match_number_at_last.
  - unfold is_dot in Hdot. apply negb_false_iff, Ascii.eqb_eq in Hdot as ->.
    done.
Qed.

Lemma search_number_digit (s d : string) :
  search_number s = Some d ->
  exists c, d = String c "" /\ is_digit c = true.
Proof.
  induction s as [|c s IH]; cbn [search_number].
  - destruct (match_greedy_number "") eqn:Hm; [| done].
    intros [= <-]. by eapply match_greedy_number_digit.
  - destruct (match_greedy_number (String c s)) eqn:Hm; [| done].
    intros [= <-]. by eapply match_greedy_number_digit.
Qed.

Lemma int_of_digit_bound (c : ascii) :
  is_digit c = true -> (int_of_digits (String c "") <= 9)%N.
Proof.
  destruct c as [[] [] [] [] [] [] [] []]; try discriminate; intros _;
    vm_compute; discriminate.
Qed.

Lemma string_of_uint_digits (d : Decimal.uint) :
  all_chars is_digit (NilEmpty.string_of_uint d) = true.
Proof. induction d; cbn; done. Qed.

Lemma str_of_N_digits (n : N) : all_chars is_digit (str_of_N n) = true.
Proof. apply string_of_uint_digits. Qed.

Lemma is_digit_word (c : ascii) : is_digit c = true -> is_word c = true.
Proof. unfold is_word. intros ->. by rewrite orb_true_r. Qed.

Lemma zeros_digits (k : nat) :
  all_chars is_digit (string_of_list_ascii (repeat "0"%char k)) = true.
Proof. induction k as [|k IH]; [done |]. cbn. exact IH. Qed.

Lemma zeros_length (k : nat) :
  String.length (string_of_list_ascii (repeat "0"%char k)) = k.
Proof. induction k as [|k IH]; [done |]. cbn. by rewrite IH. Qed.

Lemma zfill_digits (width : nat) (s : string) :
  all_chars is_digit s = true -> all_chars is_digit (zfill width s) = true.
Proof.
  intros Hs. unfold zfill. by rewrite all_chars_app, zeros_digits, Hs.
Qed.

Lemma zfill_length (width : nat) (s : string) :
  String.length (zfill width s) = Nat.max width (String.length s).
Proof.
  unfold zfill. rewrite ReferenceFacts.length_append, zeros_length. lia.
Qed.

Lemma match_template_at_word (s head padding tail : string) :
  match_template_at s = Some (head, padding, tail) ->
  all_chars is_word head = true /\ all_chars is_word tail = true.
Proof.
  unfold match_template_at.
  destruct (span is_word s) as [h r] eqn:Hh.
  destruct (span (Ascii.eqb "#") r) as [pd r'].
  destruct pd; [done |]. destruct (span is_word r') as [t r''] eqn:Ht.
  intros [= <- <- <-].
  split; [by eapply span_app | by eapply span_app].
Qed.

Lemma search_template_word (s head padding tail : string) :
  search_template s = Some (head, padding, tail) ->
  all_chars is_word head = true /\ all_chars is_word tail = true.
Proof.
  induction s as [|c s IH]; cbn [search_template];
    destruct (match_template_at _) as [[[h pd] t]|] eqn:Hm; try done;
    intros [= <- <- <-]; by eapply match_template_at_word.
Qed.

(** X2.  For a template with a block of [#] the call either raises
    [UnboundLocalError] or returns the head, a number between 1 and 10 padded
    with zeros to the length of the block at least, and the tail: the number
    is one more than a single digit, so it never goes beyond 10, and the name
    is made of word characters only. *)
Theorem get_next_valid_name_number (template head padding tail : string)
    (children : list string) :
  search_template template = Some (head, padding, tail) ->
  get_next_valid_name template children
  = Raise (UnboundLocalError "next_number") \/
  exists (n : N) (name : string),
    get_next_valid_name template children = Ok name /\
    (1 <= n <= 10)%N /\
    name = head +:+ zfill (String.length padding) (str_of_N n) +:+ tail /\
    all_chars is_word name = true /\
    String.length head + String.length padding + String.length tail
    <= String.length name.
Proof.
  intros Hs. unfold get_next_valid_name. rewrite Hs.
  pose proof (LibSpec.search_template_padding _ _ _ _ Hs) as Hpad.
  destruct (search_template_word _ _ _ _ Hs) as [Hhead Htail].
  destruct padding as [|c pd]; [done |].
  set (pad_len := String.length (String c pd)).
  assert (forall n : N, (1 <= n <= 10)%N ->
            exists (n' : N) (name : string),
              Ok (head +:+ zfill pad_len (str_of_N n) +:+ tail) = Ok name /\
              (1 <= n' <= 10)%N /\
              name = head +:+ zfill pad_len (str_of_N n') +:+ tail /\
              all_chars is_word name = true /\
              String.length head + pad_len + String.length tail
              <= String.length name) as Hok.
  { intros n Hn. exists n, (head +:+ zfill pad_len (str_of_N n) +:+ tail).
    split; [done |]. split; [done |]. split; [done |]. split.
    - rewrite !all_chars_app, Hhead, Htail, andb_true_r. cbn [andb].
      apply (all_chars_impl is_digit); [apply is_digit_word |].
      apply zfill_digits, str_of_N_digits.
    - rewrite !ReferenceFacts.length_append, zfill_length. lia. }
  destruct (sort_desc _) as [|last_name others]; [right; apply Hok; lia |].
  destruct (search_number last_name) as [digits|] eqn:Hnum; [| by left].
  right. apply Hok.
  destruct (search_number_digit _ _ Hnum) as (d & -> & Hd).
  pose proof (int_of_digit_bound d Hd). lia.
Qed.

Lemma get_next_valid_name_number_witness :
  search_template "node_###" = Some ("node_", "###", "") /\
  exists (n : N) (name : string),
    get_next_valid_name "node_###" ["node_019"; "node_007"] = Ok name /\
    (1 <= n <= 10)%N /\
    name = "node_" +:+ zfill 3 (str_of_N n) +:+ "" /\
    all_chars is_word name = true /\
    5 + 3 + 0 <= String.length name.
Proof.
  split; [reflexivity |].
  destruct (get_next_valid_name_number "node_###" "node_" "###" ""
              ["node_019"; "node_007"] eq_refl) as [Hraise | Hok].
  - vm_compute in Hraise. discriminate.
  - exact Hok.
Defined.

(** The greatest name of the example ends in 9: the next name holds 10. *)
Example get_next_valid_name_ten :
  get_next_valid_name "node_###" ["node_019"; "node_007"] = Ok "node_010".
Proof. vm_compute. reflexivity. Qed.

(** ** A name without a digit *)

Definition no_digit (s : string) : bool :=
  all_chars (fun c => negb (is_digit c)) s.

Lemma no_digit_app (a b : string) :
  no_digit (a +:+ b) = no_digit a && no_digit b.
Proof. apply all_chars_app. Qed.

Lemma match_number_at_no_digit (s : string) :
  no_digit s = true -> match_number_at s = None.
Proof.
  intros Hs. unfold match_number_at.
  destruct (span (Ascii.eqb "_") s) as [us rest] eqn:Hus.
  destruct (span_app _ _ _ _ Hus) as [-> _].
  rewrite no_digit_app in Hs. apply andb_prop in Hs as [_ Hrest].
  by rewrite (span_none is_digit rest).
Qed.

Lemma match_greedy_number_no_digit (s : string) :
  no_digit s = true -> match_greedy_number s = None.
Proof.
  induction s as [|c s IH]; intros Hs; cbn [match_greedy_number];
    [by apply match_number_at_no_digit |].
  rewrite (match_number_at_no_digit (String c s)) by done.
  cbn in Hs. apply andb_prop in Hs as [_ Hs]. rewrite IH by done.
  by destruct (is_dot c).
Qed.

Lemma search_number_no_digit (s : string) :
  no_digit s = true -> search_number s = None.
Proof.
  induction s as [|c s IH]; intros Hs; cbn [search_number];
    rewrite match_greedy_number_no_digit by done; [done |].
  apply IH. cbn in Hs. by apply andb_prop in Hs as [_ Hs].
Qed.

Lemma insert_desc_In (x y : string) (sorted : list string) :
  In y (insert_desc x sorted) <-> y = x \/ In y sorted.
Proof.
  induction sorted as [|z sorted IH]; cbn [insert_desc].
  - cbn. intuition.
  - destruct (String.ltb x z); cbn [In]; [rewrite IH |]; intuition.
Qed.

Lemma sort_desc_In (y : string) (items : list string) :
  In y (sort_desc items) <-> In y items.
Proof.
  induction items as [|x items IH]; [done |].
  cbn [sort_desc fold_right]. fold (sort_desc items).
  rewrite insert_desc_In, IH. cbn. intuition.
Qed.

(** X3.  When some child matches the head and the tail of the template and
    no matching child holds a digit, the call raises [UnboundLocalError]:
    [next_number] is bound only when a digit is found in the greatest
    matching name. *)
Theorem get_next_valid_name_unbound_number (template head padding tail : string)
    (children : list string) (child : string) :
  search_template template = Some (head, padding, tail) ->
  In child children ->
  match_head_tail head tail child = true ->
  (forall name, In name children -> match_head_tail head tail name = true ->
                no_digit name = true) ->
  get_next_valid_name template children
  = Raise (UnboundLocalError "next_number").
Proof.
  intros Hs Hchild Hmatch Hnone. unfold get_next_valid_name. rewrite Hs.
  pose proof (LibSpec.search_template_padding _ _ _ _ Hs) as Hpad.
  destruct padding as [|c pd]; [done |].
  destruct (sort_desc _) as [|last_name others] eqn:Hsort.
  - exfalso. assert (In child (@nil string)) as []. rewrite <- Hsort.
    apply sort_desc_In, filter_In. by split.
  - assert (In last_name (sort_desc (List.filter (match_head_tail head tail)
                                                 children))) as Hin
      by (rewrite Hsort; by left).
    apply sort_desc_In, filter_In in Hin as [Hin Hm].
    by rewrite (search_number_no_digit last_name (Hnone _ Hin Hm)).
Qed.

Lemma get_next_valid_name_unbound_number_witness :
  get_next_valid_name "Box#" ["Box"; "Reader"]
  = Raise (UnboundLocalError "next_number").
Proof.
  apply (get_next_valid_name_unbound_number "Box#" "Box" "#" ""
           ["Box"; "Reader"] "Box").
  - reflexivity.
  - by left.
  - reflexivity.
  - intros name [<- | [<- | []]]; [reflexivity | discriminate].
Defined.

(** ** [append_to_csv_plug] *)

(** X4.  For a value without a comma, the fields of the plug after the call
    are the fields before it, followed by the value when it was not among
    them: no field is lost or reordered, and the value is a field
    afterwards. *)
Theorem append_to_csv_plug_fields (plug v : string) :
  contains_char comma v = false ->
  split comma (append_to_csv_plug plug v false)
  = (if str_in v (split comma plug) then split comma plug
     else split comma plug ++ [v]) /\
  str_in v (split comma (append_to_csv_plug plug v false)) = true.
Proof.
  intros Hv. destruct (str_in v (split comma plug)) eqn:Hin.
  - rewrite (LibSpec.append_present plug v Hin). by split.
  - rewrite (LibSpec.append_absent plug v Hin).
    rewrite LibSpec.split_snoc_field by done. split; [done |].
    apply str_in_snoc.
Qed.

Lemma append_to_csv_plug_fields_witness :
  contains_char comma "gpu" = false /\
  split comma (append_to_csv_plug "nuke,maya" "gpu" false)
  = ["nuke"; "maya"; "gpu"] /\
  str_in "gpu" (split comma (append_to_csv_plug "nuke,maya" "gpu" false)) = true.
Proof.
  split; [reflexivity |].
  exact (append_to_csv_plug_fields "nuke,maya" "gpu" eq_refl).
Defined.

(** X5.  On a plug that holds the empty string the list has one empty
    field: a value that is not empty is appended behind a comma, so the new
    plug value starts with a comma, and the empty value changes nothing
    unless duplicates are allowed. *)
Theorem append_to_csv_plug_empty_plug (v : string) :
  append_to_csv_plug "" v false
  = (if String.eqb v "" then "" else String comma v) /\
  append_to_csv_plug "" v true = String comma v.
Proof.
  split; [| by rewrite LibSpec.append_dup, append_nil_l].
  unfold append_to_csv_plug. cbn [split str_in existsb].
  destruct (String.eqb v "") eqn:Hv; cbn [orb negb]; [done |].
  cbn [app join]. by rewrite append_nil_l.
Qed.

End NamesSpec.

(* ===================================================================== *)
(** * lib.py: paths by type and the nodes below a node *)
(* ===================================================================== *)

Module LibScene.
Import Py Gaffer Lib.

(** The objects of a scene, as far as the search sees them:
    [scene_plug.object(path).typeName()]. *)
Record SceneObjects : Type := { typeName : string -> string }.

(** [find_paths_by_type(scene_plug, object_type_name, root)]: the loop over
    the traversal appends the paths whose object has the type. *)
Definition find_paths_by_type (scene_plug : ScenePlug) (objects : SceneObjects)
    (fuel : nat) (object_type_name : string) (root : string)
    : option (list string) :=
  paths ← traverse_scene scene_plug fuel root;
  Some (fold_left
          (fun result path =>
             if String.eqb (typeName objects path) object_type_name
             then result ++ [path] else result)
          paths []).

(** [find_camera_paths(scene_plug, root)] *)
Definition find_camera_paths (scene_plug : ScenePlug) (objects : SceneObjects)
    (fuel : nat) (root : string) : option (list string) :=
  find_paths_by_type scene_plug objects fuel "Camera" root.

(** A node with the nodes that are its children, [node.children(Gaffer.Node)]
    in order. *)
Inductive GraphNode : Type :=
| GNode (node : Node) (children : list GraphNode).

Definition node_of (g : GraphNode) : Node :=
  match g with GNode node _ => node end.

Definition children_of (g : GraphNode) : list GraphNode :=
  match g with GNode _ children => children end.

(** [traverse_nodegraph(root_node, result)]: [result] is the list that the
    calls append to. *)
Fixpoint traverse_nodegraph (root_node : GraphNode) (result : list Node)
    : list Node :=
  match root_node with
  | GNode _ children =>
      match children with
      | [] => result
      | _ =>
          fold_left
            (fun result child =>
               traverse_nodegraph child (result ++ [node_of child]))
            children result
      end
  end.

(** [get_all_children(root_node)] *)
Definition get_all_children (root_node : GraphNode) : list Node :=
  let all_nodes := [] in
  traverse_nodegraph root_node all_nodes.

End LibScene.

Module LibSceneSpec.
Import Py Gaffer Lib LibScene.

(** ** [find_paths_by_type] *)

Lemma append_matching (p : string -> bool) (paths result : list string) :
  fold_left (fun result path => if p path then result ++ [path] else result)
            paths result
  = result ++ List.filter p paths.
Proof.
  revert result. induction paths as [|path paths IH]; intros result; cbn.
  - by rewrite app_nil_r.
  - rewrite IH. destruct (p path); [by rewrite <- app_assoc | done].
Qed.

(** X6.  For a scene that is empty below some depth, and with one turn of
    the loop for every location, the search ends and returns the locations
    from [root] down whose object has the given type, in the order of the
    breadth-first traversal: level by level, each level from left to right;
    [find_camera_paths] is the search for the type [Camera]. *)
Theorem find_paths_by_type_level_order (scene_plug : ScenePlug)
    (objects : SceneObjects) (object_type_name root : string)
    (depth fuel : nat) :
  LibSpec.level scene_plug root depth = [] ->
  length (concat (map (LibSpec.level scene_plug root) (seq 0 depth))) <= fuel ->
  find_paths_by_type scene_plug objects fuel object_type_name root
  = Some (List.filter
            (fun path => String.eqb (typeName objects path) object_type_name)
            (concat (map (LibSpec.level scene_plug root) (seq 0 depth)))) /\
  find_camera_paths scene_plug objects fuel root
  = Some (List.filter
            (fun path => String.eqb (typeName objects path) "Camera")
            (concat (map (LibSpec.level scene_plug root) (seq 0 depth)))).
Proof.
  intros Hend Hle.
  assert (traverse_scene scene_plug fuel root
          = Some (concat (map (LibSpec.level scene_plug root) (seq 0 depth))))
    as Hrun.
  { rewrite <- LibSpec.level_order_levels in *. unfold traverse_scene.
    eapply LibSpec.traverse_loop_more_fuel; [| exact Hle].
    by apply LibSpec.traverse_loop_level_order. }
  unfold find_camera_paths, find_paths_by_type. rewrite Hrun. cbn.
  by rewrite !append_matching.
Qed.

(** A scene with two cameras. *)
Definition sample_objects : SceneObjects :=
  {| typeName := fun path =>
       if String.eqb path "/b" then "Camera"
       else if String.eqb path "/a/c" then "Camera"
       else "NullObject" |}.

Lemma find_paths_by_type_level_order_witness :
  LibSpec.level LibSpec.sample_scene "/" 3 = [] /\
  find_paths_by_type LibSpec.sample_scene sample_objects 4 "NullObject" "/"
  = Some ["/"; "/a"] /\
  find_camera_paths LibSpec.sample_scene sample_objects 4 "/"
  = Some ["/b"; "/a/c"].
Proof.
  split; [reflexivity |].
  apply (find_paths_by_type_level_order LibSpec.sample_scene sample_objects
           "NullObject" "/" 3 4); [reflexivity | vm_compute; lia].
Defined.

(** ** [get_all_children] *)

(** An induction over nodes that reaches the children. *)
Fixpoint GraphNode_nested_ind (P : GraphNode -> Prop)
    (H : forall node children, All P children -> P (GNode node children))
    (g : GraphNode) : P g :=
  match g with
  | GNode node children =>
      H node children
        ((fix go (l : list GraphNode) : All P l :=
            match l with
            | [] => I
            | c :: l' => conj (GraphNode_nested_ind P H c) (go l')
            end) children)
  end.

(** The number of nodes of a graph, the root included. *)
Fixpoint size (g : GraphNode) : nat :=
  match g with
  | GNode _ children => S (sum_of size children)
  end.

Lemma traverse_children (children : list GraphNode) (result : list Node) :
  All (fun child => forall result,
         traverse_nodegraph child result
         = result ++ traverse_nodegraph child []) children ->
  fold_left
    (fun result child => traverse_nodegraph child (result ++ [node_of child]))
    children result
  = result ++ flat_map (fun child =>
                          node_of child :: traverse_nodegraph child [])
                       children.
Proof.
  revert result. induction children as [|c children IH]; intros result.
  - intros _. cbn. by rewrite app_nil_r.
  - intros [Hc Hchildren]. cbn [fold_left flat_map].
    rewrite IH by done. rewrite Hc, <- !app_assoc. done.
Qed.

Lemma traverse_nodegraph_appends (root_node : GraphNode) :
  forall result,
    traverse_nodegraph root_node result
    = result ++ traverse_nodegraph root_node [].
Proof.
  induction root_node as [node children IH] using GraphNode_nested_ind.
  intros result. destruct children as [|c children]; [cbn; by rewrite app_nil_r |].
  cbn [traverse_nodegraph].
  by rewrite (traverse_children (c :: children) result),
             (traverse_children (c :: children) []).
Qed.

(** X7.  [get_all_children] lists the nodes below [root_node] in pre-order:
    every child is followed by the nodes below it and then by its younger
    siblings, the root itself is not listed, and the list has one entry for
    every node below the root; [traverse_nodegraph] only appends to the list
    that it is given. *)
Theorem get_all_children_preorder (root_node : GraphNode) :
  get_all_children root_node
  = flat_map (fun child => node_of child :: get_all_children child)
             (children_of root_node) /\
  (forall result,
     traverse_nodegraph root_node result
     = result ++ get_all_children root_node) /\
  S (length (get_all_children root_node)) = size root_node.
Proof.
  split; [| split].
  - unfold get_all_children. destruct root_node as [node children].
    destruct children as [|c children]; [done |].
    cbn [traverse_nodegraph children_of].
    rewrite (traverse_children (c :: children) []); [done |].
    clear. generalize (c :: children) as l.
    induction l as [|x l IH]; [done |].
    split; [apply traverse_nodegraph_appends | done].
  - apply traverse_nodegraph_appends.
  - unfold get_all_children.
    induction root_node as [node children IH] using GraphNode_nested_ind.
    destruct children as [|c children]; [done |].
    cbn [traverse_nodegraph size].
    rewrite (traverse_children (c :: children) []).
    + f_equal. cbn [app]. generalize dependent (c :: children).
      induction l as [|x l IHl]; [done |]. intros [Hx Hl].
      cbn [flat_map sum_of]. rewrite length_app. cbn [length].
      rewrite IHl by done. lia.
    + clear. generalize (c :: children) as l.
      induction l as [|x l IH]; [done |].
      split; [apply traverse_nodegraph_appends | done].
Qed.

End LibSceneSpec.

(* ===================================================================== *)
(** * More properties of [imprint] *)
(* ===================================================================== *)

Module ImprintSpec.
Import Py Gaffer Pipeline GafferFacts.

Section WithHost.
Variable host : Host.

(** What a value is written as: [None] becomes a string. *)
Definition written (v : value) : value :=
  match v with
  | PyNone => PyStr "<None>"
  | _ => v
  end.

(** One turn of the loop leaves the node its identity and its name, and
    every plug that is not under the key as it was. *)
Lemma imprint_item_frame (section : string) (node node' : Node)
    (log log' : list log_record) (key : string) (v : value) :
  imprint_item host section (node, log) (key, v) = Ok (node', log') ->
  node_id node' = node_id node /\
  node_name node' = node_name node /\
  (forall q, is_prefix ["user"; key] q = false ->
     find_plug q (node_plugs node') = find_plug q (node_plugs node)).
Proof.
  unfold imprint_item, getitem_plug. cbn [app].
  destruct (dict_to_json host v) as [v'|]; [| done]. cbn [mbind result_bind].
  destruct (find_plug ["user"] (node_plugs node)); [| done].
  cbn [mbind result_bind].
  assert (forall plug l,
            Ok ({| node_id := node_id node; node_name := node_name node;
                   node_plugs := setitem_plug ["user"] key plug (node_plugs node) |},
                l) = Ok (node', log') ->
            node_id node' = node_id node /\
            node_name node' = node_name node /\
            (forall q, is_prefix ["user"; key] q = false ->
               find_plug q (node_plugs node') = find_plug q (node_plugs node)))
    as Hfresh.
  { intros plug l [= <- _]. cbn [node_id node_name node_plugs].
    split; [done |]. split; [done |].
    intros q Hq. by apply (find_setitem_other ["user"] key). }
  destruct (find_plug ["user"; key] (node_plugs node)) as [old|].
  - destruct (setValue host old v') as [plug'|err].
    + intros [= <- _]. cbn [node_id node_name node_plugs].
      split; [done |]. split; [done |].
      intros q Hq. apply find_store_other.
      intros ->. by rewrite is_prefix_refl in Hq.
    + destruct (new_plug_data (written v')) as [data|] eqn:Hdata;
        unfold written in Hdata; rewrite Hdata; [| done].
      cbn [mbind result_bind]. apply Hfresh.
  - destruct (new_plug_data (written v')) as [data|] eqn:Hdata;
      unfold written in Hdata; rewrite Hdata; [| done].
    cbn [mbind result_bind]. apply Hfresh.
Qed.

(** X8.  A call of [imprint] that returns has left the node its identity and
    its name, and has changed no plug except the plugs under [user] that are
    named by the keys of the data (and what is below them). *)
Theorem imprint_touches_keys_only (section : string)
    (data : list (string * value)) (node node' : Node)
    (log : list log_record) :
  imprint host node data section = Ok (node', log) ->
  node_id node' = node_id node /\
  node_name node' = node_name node /\
  (forall q, (forall key, In key (map fst data) ->
                is_prefix ["user"; key] q = false) ->
     find_plug q (node_plugs node') = find_plug q (node_plugs node)).
Proof.
  unfold imprint. generalize (@nil log_record) as log0. revert node.
  induction data as [|[key v] data IH]; intros node log0.
  - intros [= <- <-]. by repeat split.
  - cbn [imprint_loop].
    destruct (imprint_item host section (node, log0) (key, v))
      as [[node1 log1]|] eqn:Hitem; [| done].
    cbn [mbind result_bind]. intros Hrun.
    destruct (imprint_item_frame _ _ _ _ _ _ _ Hitem) as (Hid1 & Hname1 & Hframe1).
    destruct (IH _ _ Hrun) as (Hid & Hname & Hframe).
    split; [congruence |]. split; [congruence |].
    intros q Hq. rewrite Hframe, Hframe1; [done | |].
    + apply Hq. by left.
    + intros key' Hkey'. apply Hq. by right.
Qed.

(** What the host promises of [setValue]: once it has returned, the plug
    holds the value. *)
Definition setValue_holds : Prop :=
  forall plug v plug',
    setValue host plug v = Ok plug' -> getValue plug' = Ok v.





End WithHost.

(** ** On the reference host *)

Lemma ref_setValue_holds : setValue_holds Reference.host.
Proof.
  intros plug v plug'. cbn [setValue Reference.host].
  unfold Reference.ref_setValue, getValue.
  destruct (plug_input plug); [done |].
  destruct (plug_data plug), v; try done; by intros [= <-].
Qed.

(** Data for the node that holds an integer under [note]. *)
Definition sample_items : list (string * value) :=
  [("note", PyStr "seven"); ("count", PyInt 3); ("owner", PyNone);
   ("frames", PyDict [(PyStr "start", PyInt 1001)])].

Definition imprinted : Node * list log_record :=
  match imprint Reference.host Reference.plain_node sample_items "Ayon" with
  | Ok state => state
  | Raise _ => (Reference.plain_node, [])
  end.

Lemma imprint_touches_keys_only_witness :
  imprint Reference.host Reference.plain_node sample_items "Ayon"
  = Ok (fst imprinted, snd imprinted) /\
  node_id (fst imprinted) = 2 /\
  node_name (fst imprinted) = "Group" /\
  find_plug ["in"] (node_plugs (fst imprinted))
  = find_plug ["in"] (node_plugs Reference.plain_node).
Proof.
  split; [vm_compute; reflexivity |].
  destruct (imprint_touches_keys_only Reference.host "Ayon" sample_items
              Reference.plain_node (fst imprinted) (snd imprinted))
    as (Hid & Hname & Hframe); [vm_compute; reflexivity |].
  split; [exact Hid |]. split; [exact Hname |].
  apply Hframe. intros key Hkey. reflexivity.
Defined.


(** What the plugs hold afterwards. *)
Example imprint_sample_items :
  map (fun key => getitem_plug ["user"] key (node_plugs (fst imprinted))
                  ≫= getValue)
      ["note"; "count"; "owner"]
  = [Ok (PyStr "seven"); Ok (PyInt 3); Ok (PyStr "<None>")].
Proof. vm_compute. reflexivity. Qed.

End ImprintSpec.

(* ===================================================================== *)
(** * load_scene.py: [load] and [remove]; lib.py: [set_node_color] *)
(* ===================================================================== *)

Module Loader.
Import Py Gaffer.

(** The exceptions of Python that the functions above do not meet. *)
Inductive error : Type :=
| Exn (e : exn)
| AssertionError (msg : string)
| IndexError (msg : string)
| ImportError (msg : string).

(** The outcome of a call that can end in one of them. *)
Inductive outcome (A : Type) : Type :=
| Done (a : A)
| Fail (e : error).
Arguments Done {A} a.
Arguments Fail {A} e.

#[export] Instance outcome_ret : MRet outcome := fun A a => Done a.
#[export] Instance outcome_bind : MBind outcome := fun A B f m =>
  match m with
  | Done a => f a
  | Fail e => Fail e
  end.

Definition lift {A} (r : result A) : outcome A :=
  match r with
  | Ok a => Done a
  | Raise e => Fail (Exn e)
  end.

(** The values that [Gaffer.Metadata.registerValue] has registered on nodes:
    the node object, the key and the value, the latest first. *)
Definition Registry : Type := list (nat * string * value).

Section WithHost.
Variable host : Host.

(** [imath.Color3f] of the components of a colour. *)
Variable Color3f : list value -> result value.

(** [GafferScene.SceneReader()]: the node object that the call returns. *)
Variable SceneReader : Node.

(** [node.setName(name)] on a node without a parent: the host can refuse a
    name. *)
Variable check_name : string -> result unit.

(** The name that [parent.addChild(node)] leaves a node with, given the names
    of the children that the parent has. *)
Variable unique_name : list string -> string -> string.

(** [self.filepath_from_context(context)] *)
Variable filepath_from_context : value -> result string.

(** [set_node_color(node, color)] *)
Definition set_node_color (node : Node) (color : list value)
    (registry : Registry) : outcome Registry :=
  if negb (Nat.eqb (length color) 3)
  then Fail (AssertionError "Color must be three float values")
  else
    c ← lift (Color3f color);
    Done ((node_id node, "nodeGadget:color", c) :: registry).

(** The colour of a loaded scene: the doubles [0.369], [0.82] and [0.118]. *)
Definition load_color : list value :=
  [PyFloat 4600318932967904772; PyFloat 4605561122934164029;
   PyFloat 4593167216759640424].

(** [GafferLoadScene.load(context, name, namespace, data)].  [root] is what
    [get_root()] returns.  The root script and the registry come back as the
    call left them.  [imprint_container] raises before it has changed the
    node or not at all: its values are strings. *)
Definition load (root : option ScriptNode) (registry : Registry)
    (context : value) (name : string) (namespace data : value)
    : option ScriptNode * Registry * list log_record * outcome unit :=
  let script := root in
  let node := SceneReader in
  match check_name name with
  | Raise e => (root, registry, [], Fail (Exn e))
  | Ok _ =>
      let node := {| node_id := node_id node; node_name := name;
                     node_plugs := node_plugs node |} in
      match path ← filepath_from_context context;
            let path := replace_char "\" "/" path in
            plug ← getitem_plug [] "fileName" (node_plugs node);
            setValue host plug (PyStr path) with
      | Raise e => (root, registry, [], Fail (Exn e))
      | Ok plug' =>
          let node := node_with_plugs
                        (store_plug ["fileName"] plug' (node_plugs node)) node in
          match script with
          | None => (root, registry, [], Fail (Exn (AttributeError "addChild")))
          | Some script =>
              let node :=
                {| node_id := node_id node;
                   node_name :=
                     unique_name (map node_name (script_nodes script))
                                 (node_name node);
                   node_plugs := node_plugs node |} in
              let script := with_nodes (script_nodes script ++ [node]) script in
              (* Colorize based on family *)
              match set_node_color node load_color registry with
              | Fail e => (Some script, registry, [], Fail e)
              | Done registry =>
                  match Pipeline.imprint_container host node (PyStr name)
                          namespace context (PyStr "GafferLoadScene") with
                  | Raise e => (Some script, registry, [], Fail (Exn e))
                  | Ok (node, log) =>
                      (Some (with_nodes (store_node node (script_nodes script))
                                        script),
                       registry, log, Done ())
                  end
              end
          end
      end
  end.

(** [GafferLoadScene.remove(container)]; the parent of a node is the root
    script, or [None] once the node has been removed. *)
Definition remove (container : Pipeline.Container) : Pipeline.Method unit :=
  fun script =>
    match Pipeline.container_get "_node" container with
    | Raise e => (script, Raise e)
    | Ok (PyObj id) =>
        match find_node id (script_nodes script) with
        | Some _ =>
            (with_nodes (removeChild id (script_nodes script)) script, Ok ())
        | None => (script, Raise (AttributeError "removeChild"))
        end
    | Ok _ => (script, Raise (TypeError "not subscriptable"))
    end.

End WithHost.

End Loader.

Module LoaderSpec.
Import Py Gaffer Pipeline GafferLoadScene Loader GafferFacts.

Section WithHost.
Variable host : Host.

(** ** What [get_containers] reads *)

(** The node that a container refers to. *)
Definition node_ref (c : Container) : option nat :=
  match container_get "_node" c with
  | Ok (PyObj id) => Some id
  | _ => None
  end.

(** Two sets of plugs that agree on [user] and on the types and values of
    its children. *)
Definition same_user (a b : Plugs) : Prop :=
  has_plug ["user"] a = has_plug ["user"] b /\
  forall key,
    plug_data <$> find_plug ["user"; key] a
    = plug_data <$> find_plug ["user"; key] b.

Lemma same_user_has (a b : Plugs) (key : string) :
  same_user a b -> has_plug ["user"; key] a = has_plug ["user"; key] b.
Proof.
  intros [_ H]. specialize (H key). unfold has_plug.
  by destruct (find_plug ["user"; key] a), (find_plug ["user"; key] b).
Qed.

Lemma getValue_data (p q : Plug) :
  plug_data p = plug_data q -> getValue p = getValue q.
Proof. unfold getValue. by intros ->. Qed.

Lemma read_keys_same (a b : Plugs) (keys : list string) :
  same_user a b -> read_keys a keys = read_keys b keys.
Proof.
  intros [_ H]. induction keys as [|key keys IH]; [done |].
  cbn [read_keys]. unfold getitem_plug. pose proof (H key) as Hk.
  cbn [app].
  destruct (find_plug ["user"; key] a) as [p|],
           (find_plug ["user"; key] b) as [q|]; try done.
  cbn [mbind result_bind]. injection Hk as Hk.
  by rewrite (getValue_data p q Hk), IH.
Qed.

Lemma existsb_pointwise {A} (f g : A -> bool) (l : list A) :
  (forall x, f x = g x) -> existsb f l = existsb g l.
Proof. intros H. induction l as [|x l IH]; [done |]. cbn. by rewrite H, IH. Qed.

Lemma container_of_same (script script' : ScriptNode) (node node' : Node) :
  script_fullName script' = script_fullName script ->
  node_id node' = node_id node ->
  node_name node' = node_name node ->
  same_user (node_plugs node) (node_plugs node') ->
  container_of host script' node' = container_of host script node.
Proof.
  intros Hs Hid Hname H. unfold container_of, fullName.
  rewrite <- (proj1 H).
  rewrite (existsb_pointwise
             (fun key => negb (has_plug ["user"; key] (node_plugs node')))
             (fun key => negb (has_plug ["user"; key] (node_plugs node))))
    by (intros key; by rewrite (same_user_has _ _ key H)).
  rewrite <- (read_keys_same _ _ required H), Hs, Hid, Hname.
  unfold getitem_plug. pose proof (proj2 H "id") as Hk. cbn [app].
  destruct (find_plug ["user"; "id"] (node_plugs node)) as [p|],
           (find_plug ["user"; "id"] (node_plugs node')) as [q|]; try done.
  cbn [mbind result_bind]. injection Hk as Hk.
  by rewrite (getValue_data p q Hk).
Qed.

Lemma container_of_script (script script' : ScriptNode) (node : Node) :
  script_fullName script' = script_fullName script ->
  container_of host script' node = container_of host script node.
Proof. intros Hs. by apply container_of_same. Qed.

Lemma get_containers_loop_script (script script' : ScriptNode)
    (nodes : list Node) :
  script_fullName script' = script_fullName script ->
  get_containers_loop host script' nodes = get_containers_loop host script nodes.
Proof.
  intros Hs. induction nodes as [|n nodes IH]; [done |].
  cbn [get_containers_loop]. by rewrite (container_of_script script script'), IH.
Qed.

Lemma read_keys_keys (user : Plugs) (keys : list string)
    (items : list (string * value)) :
  read_keys user keys = Ok items -> map fst items = keys.
Proof.
  revert items. induction keys as [|key keys IH]; intros items; cbn [read_keys].
  - by intros [= <-].
  - destruct (getitem_plug ["user"] key user) as [plug|]; [| done].
    cbn [mbind result_bind]. destruct (getValue plug) as [v|]; [| done].
    cbn [mbind result_bind]. destruct (read_keys user keys) as [rest|]; [| done].
    cbn [mbind result_bind]. intros [= <-]. cbn. by rewrite (IH rest).
Qed.

Lemma container_get_skip (key : string) (items rest : Container) :
  ~ In key (map fst items) ->
  container_get key (items ++ rest) = container_get key rest.
Proof.
  induction items as [|[k v] items IH]; [done |]. cbn [map fst In app].
  intros Hk. cbn [container_get].
  destruct (String.eqb k key) eqn:Heq.
  - apply String.eqb_eq in Heq. exfalso. apply Hk. by left.
  - apply IH. intros Hin. apply Hk. by right.
Qed.

(** The container that is made for a node refers to that node. *)
Lemma container_of_ref (script : ScriptNode) (node : Node) (c : Container) :
  container_of host script node = Ok (Some c) ->
  node_ref c = Some (node_id node).
Proof.
  unfold container_of.
  destruct (negb (has_plug ["user"] (node_plugs node))); [done |].
  destruct (existsb _ required); [done |].
  destruct (getitem_plug ["user"] "id" (node_plugs node)) as [plug|]; [| done].
  cbn [mbind result_bind]. destruct (getValue plug) as [v|]; [| done].
  cbn [mbind result_bind]. destruct (negb (is_container_id host v)); [done |].
  destruct (read_keys (node_plugs node) required) as [items|] eqn:Hread; [| done].
  cbn [mbind result_bind]. intros [= <-]. unfold node_ref.
  apply read_keys_keys in Hread.
  rewrite <- app_assoc, container_get_skip.
  - reflexivity.
  - rewrite Hread. cbn. intuition discriminate.
Qed.

Lemma get_containers_loop_app (script : ScriptNode) (a b : list Node) :
  get_containers_loop host script (a ++ b)
  = (ca ← get_containers_loop host script a;
     cb ← get_containers_loop host script b;
     Ok (ca ++ cb)).
Proof.
  induction a as [|n a IH]; cbn [app get_containers_loop].
  - cbn [mbind result_bind]. by destruct (get_containers_loop host script b).
  - destruct (container_of host script n) as [found|]; [| done].
    cbn [mbind result_bind]. rewrite IH.
    destruct (get_containers_loop host script a) as [ca|]; [| done].
    cbn [mbind result_bind].
    destruct (get_containers_loop host script b) as [cb|]; [| done].
    cbn [mbind result_bind]. by destruct found.
Qed.

Lemma get_containers_loop_refs (script : ScriptNode) (nodes : list Node)
    (containers : list Container) :
  get_containers_loop host script nodes = Ok containers ->
  forall c, In c containers ->
    exists node, In node nodes /\ node_ref c = Some (node_id node).
Proof.
  revert containers. induction nodes as [|n nodes IH]; intros containers;
    cbn [get_containers_loop].
  - by intros [= <-].
  - destruct (container_of host script n) as [found|] eqn:Hn; [| done].
    cbn [mbind result_bind].
    destruct (get_containers_loop host script nodes) as [rest|]; [| done].
    cbn [mbind result_bind]. intros [= <-] c Hc.
    assert (In c rest -> exists node, In node (n :: nodes) /\
                                      node_ref c = Some (node_id node)) as Hrest.
    { intros Hin. destruct (IH rest eq_refl c Hin) as (node & Hnode & Href).
      exists node. split; [by right | done]. }
    destruct found as [c0|]; [| by apply Hrest].
    destruct Hc as [<- | Hc]; [| by apply Hrest].
    exists n. split; [by left |]. by eapply container_of_ref.
Qed.

(** ** [remove] *)

(** The containers that do not refer to the node [id]. *)
Definition others (id : nat) (containers : list Container) : list Container :=
  List.filter (fun c => match node_ref c with
                        | Some i => negb (Nat.eqb i id)
                        | None => true
                        end) containers.

Lemma removeChild_same_user (id : nat) (plugs : Plugs) :
  same_user plugs
    (map (fun entry =>
            match plug_input (snd entry) with
            | Some src =>
                if Nat.eqb (fst src) id
                then (fst entry, plug_with_input None (snd entry))
                else entry
            | None => entry
            end) plugs).
Proof.
  rewrite LibSpec.removeChild_cut.
  assert (forall q,
            plug_data <$> find_plug q plugs
            = plug_data <$>
                find_plug q (map (fun entry =>
                                    (fst entry, LibSpec.cut_input id (snd entry)))
                                 plugs)) as Hdata.
  { intros q. rewrite find_plug_map.
    destruct (find_plug q plugs) as [plug|]; [| done]. cbn. f_equal.
    unfold LibSpec.cut_input. destruct (plug_input plug) as [src|]; [| done].
    by destruct (Nat.eqb (fst src) id). }
  split; [| intros key; apply Hdata].
  unfold has_plug. specialize (Hdata ["user"]).
  by destruct (find_plug ["user"] plugs), (find_plug ["user"] (map _ plugs)).
Qed.

Lemma get_containers_loop_removeChild (script script' : ScriptNode) (id : nat)
    (nodes : list Node) (containers : list Container) :
  script_fullName script' = script_fullName script ->
  get_containers_loop host script nodes = Ok containers ->
  get_containers_loop host script' (removeChild id nodes)
  = Ok (others id containers).
Proof.
  intros Hs. revert containers. unfold removeChild.
  induction nodes as [|n nodes IH]; intros containers;
    cbn [get_containers_loop List.filter map].
  - by intros [= <-].
  - destruct (container_of host script n) as [found|] eqn:Hn; [| done].
    cbn [mbind result_bind].
    destruct (get_containers_loop host script nodes) as [rest|]; [| done].
    cbn [mbind result_bind]. intros [= <-].
    specialize (IH rest eq_refl).
    destruct (Nat.eqb (node_id n) id) eqn:Hid; cbn [negb map get_containers_loop].
    + rewrite IH. destruct found as [c|]; [| done].
      unfold others. cbn [List.filter].
      rewrite (container_of_ref _ _ _ Hn), Hid. done.
    + rewrite IH. cbn [mbind result_bind].
      rewrite (container_of_same script script' n); try done;
        [| apply removeChild_same_user].
      rewrite Hn. cbn [mbind result_bind]. destruct found as [c|]; [| done].
      unfold others. cbn [List.filter].
      rewrite (container_of_ref _ _ _ Hn), Hid. done.
Qed.

(** X10.  [remove] takes the node of the container out of the root script;
    afterwards [get_containers] yields the containers of the other nodes, as
    before and in the same order, and none for the node, and a second
    [remove] of the same container raises [AttributeError], since the node
    has no parent any more. *)
Theorem remove_forgets_container (script : ScriptNode) (container : Container)
    (id : nat) (node : Node) (containers : list Container) :
  container_get "_node" container = Ok (PyObj id) ->
  find_node id (script_nodes script) = Some node ->
  get_containers host script = Ok containers ->
  exists script',
    remove container script = (script', Ok ()) /\
    find_node id (script_nodes script') = None /\
    get_containers host script' = Ok (others id containers) /\
    remove container script' = (script', Raise (AttributeError "removeChild")).
Proof.
  intros Hc Hnode Hrun. unfold remove. rewrite Hc, Hnode.
  eexists. split; [reflexivity |]. cbn [script_nodes with_nodes].
  rewrite LibSpec.find_node_removeChild_same.
  split; [done |]. split; [| done].
  unfold get_containers. cbn [script_nodes with_nodes].
  by apply (get_containers_loop_removeChild script).
Qed.

(** ** [update] *)

(** A container with [v] under the key [representation]. *)
Definition set_representation (v : value) (c : Container) : Container :=
  map (fun item => if String.eqb (fst item) "representation"
                   then (fst item, v) else item) c.

(** The same for the containers that refer to the node [id]. *)
Definition with_representation (id : nat) (v : value) (c : Container)
    : Container :=
  match node_ref c with
  | Some i => if Nat.eqb i id then set_representation v c else c
  | None => c
  end.

Lemma read_keys_store (k : string) (plug' : Plug) (v : value) (plugs : Plugs)
    (keys : list string) (items : list (string * value)) :
  has_plug ["user"; k] plugs = true ->
  getValue plug' = Ok v ->
  read_keys plugs keys = Ok items ->
  read_keys (store_plug ["user"; k] plug' plugs) keys
  = Ok (map (fun item => if String.eqb (fst item) k then (fst item, v) else item)
            items).
Proof.
  intros Hhas Hv. revert items.
  induction keys as [|key keys IH]; intros items; cbn [read_keys].
  - by intros [= <-].
  - unfold getitem_plug. cbn [app].
    destruct (find_plug ["user"; key] plugs) as [plug|] eqn:Hf; [| done].
    cbn [mbind result_bind]. destruct (getValue plug) as [x|] eqn:Hx; [| done].
    cbn [mbind result_bind]. destruct (read_keys plugs keys) as [rest|]; [| done].
    cbn [mbind result_bind]. intros [= <-]. rewrite (IH rest eq_refl).
    cbn [map fst]. destruct (String.eqb key k) eqn:Hk.
    + apply String.eqb_eq in Hk as ->.
      rewrite find_store_same by done. cbn [mbind result_bind].
      by rewrite Hv.
    + rewrite find_store_other, Hf.
      * cbn [mbind result_bind]. by rewrite Hx.
      * intros [= ->]. by rewrite String.eqb_refl in Hk.
Qed.

Lemma container_of_store_representation (script : ScriptNode) (node : Node)
    (rep' : Plug) (v : value) (found : option Container) :
  has_plug ["user"; "representation"] (node_plugs node) = true ->
  getValue rep' = Ok v ->
  container_of host script node = Ok found ->
  container_of host script
    {| node_id := node_id node; node_name := node_name node;
       node_plugs := store_plug ["user"; "representation"] rep' (node_plugs node) |}
  = Ok (set_representation v <$> found).
Proof.
  intros Hhas Hv. unfold container_of, fullName. cbn [node_plugs node_id node_name].
  rewrite has_store.
  destruct (negb (has_plug ["user"] (node_plugs node))); [by intros [= <-] |].
  rewrite (existsb_pointwise
             (fun key => negb (has_plug ["user"; key]
                                 (store_plug ["user"; "representation"] rep'
                                             (node_plugs node))))
             (fun key => negb (has_plug ["user"; key] (node_plugs node))))
    by (intros key; by rewrite has_store).
  destruct (existsb _ required); [by intros [= <-] |].
  unfold getitem_plug. cbn [app]. rewrite find_store_other by done.
  destruct (find_plug ["user"; "id"] (node_plugs node)) as [plug|]; [| done].
  cbn [mbind result_bind]. destruct (getValue plug) as [x|]; [| done].
  cbn [mbind result_bind].
  destruct (negb (is_container_id host x)); [by intros [= <-] |].
  destruct (read_keys (node_plugs node) required) as [items|] eqn:Hread; [| done].
  rewrite (read_keys_store _ _ _ _ _ _ Hhas Hv Hread).
  cbn [mbind result_bind]. intros [= <-]. cbn [fmap option_fmap option_map].
  unfold set_representation. by rewrite !map_app.
Qed.

Lemma with_representation_others (id : nat) (v : value) (nodes : list Node)
    (containers : list Container) :
  ~ In id (map node_id nodes) ->
  (forall c, In c containers ->
     exists node, In node nodes /\ node_ref c = Some (node_id node)) ->
  map (with_representation id v) containers = containers.
Proof.
  intros Hid Hrefs. rewrite <- (map_id containers) at 2.
  apply map_ext_in. intros c Hc.
  destruct (Hrefs c Hc) as (node & Hnode & Href).
  unfold with_representation. rewrite Href.
  destruct (Nat.eqb (node_id node) id) eqn:Heq; [| done].
  apply Nat.eqb_eq in Heq. exfalso. apply Hid. rewrite <- Heq. by apply in_map.
Qed.

(** X11.  After [update] has returned, [get_containers] yields the same
    containers in the same order, and the container of the updated node holds
    the string of the id of the new representation under [representation];
    nothing else in the containers has changed.  The host is taken to keep
    the string that [setValue] was given. *)
Theorem update_keeps_containers (script script' : ScriptNode)
    (container : Container) (representation : value)
    (containers : list Container) :
  PipelineSpec.setValue_stores host ->
  NoDup (map node_id (script_nodes script)) ->
  get_containers host script = Ok containers ->
  update host container representation script = (script', Ok ()) ->
  exists id rid,
    container_get "_node" container = Ok (PyObj id) /\
    getitem representation "_id" = Ok rid /\
    get_containers host script'
    = Ok (map (with_representation id (PyStr (str host rid))) containers).
Proof.
  intros Hhost Hids Hrun. unfold update.
  destruct (get_representation_path host representation) as [path|]; [| done].
  cbn [mbind result_bind].
  destruct (container_get "_node" container) as [ref|] eqn:Hnode; [| done].
  cbn [mbind result_bind]. destruct ref as [| | | | | | |id]; try done.
  destruct (with_node id _ (script_nodes script)) as [nodes r] eqn:Hwith.
  intros [= <- ->].
  apply GafferLoadSceneSpec.with_node_ok in Hwith
    as (pre & node & node' & post & Hpre & -> & Hid & Hf).
  apply GafferLoadSceneSpec.update_node_ok in Hf
    as (fileName & fileName' & rep & rep' & rid & Hfile & Hset & Hrep & Hrid
        & Hset' & ->).
  exists id, rid. split; [done |]. split; [done |].
  unfold get_containers in *. cbn [script_nodes]. rewrite Hpre in Hrun, Hids.
  rewrite get_containers_loop_app in Hrun. cbn [get_containers_loop] in Hrun.
  destruct (get_containers_loop host script pre) as [c1|] eqn:Hc1; [| done].
  cbn [mbind result_bind] in Hrun.
  destruct (container_of host script node) as [found|] eqn:Hfound; [| done].
  cbn [mbind result_bind] in Hrun.
  destruct (get_containers_loop host script post) as [c2|] eqn:Hc2; [| done].
  cbn [mbind result_bind] in Hrun. injection Hrun as <-.
  rewrite map_app in Hids. apply NoDup_app in Hids as (_ & Hpre_post & Hpost).
  cbn [map] in Hpre_post, Hpost. apply NoDup_cons in Hpost as [Hpost _].
  set (script' := {| script_fullName := script_fullName script;
                     script_plugs := script_plugs script;
                     script_nodes := _ |}).
  rewrite get_containers_loop_app. cbn [get_containers_loop].
  rewrite !(get_containers_loop_script script script') by done.
  rewrite Hc1, Hc2. cbn [mbind result_bind].
  rewrite (container_of_script script script') by done.
  assert (container_of host script
            {| node_id := node_id node; node_name := node_name node;
               node_plugs :=
                 store_plug ["user"; "representation"] rep'
                   (store_plug ["fileName"] fileName' (node_plugs node)) |}
          = Ok (set_representation (PyStr (str host rid)) <$> found)) as ->.
  { apply (container_of_store_representation script
             {| node_id := node_id node; node_name := node_name node;
                node_plugs := store_plug ["fileName"] fileName' (node_plugs node) |}
             rep' (PyStr (str host rid)) found).
    - cbn [node_plugs]. rewrite has_store. unfold has_plug. by rewrite Hrep.
    - by eapply Hhost.
    - rewrite <- Hfound. apply container_of_same; try done. cbn [node_plugs].
      split; [by rewrite has_store |]. intros key.
      by rewrite find_store_other. }
  cbn [mbind result_bind]. f_equal. rewrite map_app.
  rewrite (with_representation_others id _ pre c1).
  - f_equal. destruct found as [c|]; cbn [fmap option_fmap option_map].
    + cbn [map]. rewrite (with_representation_others id _ post c2).
      * f_equal. unfold with_representation.
        by rewrite (container_of_ref _ _ _ Hfound), Hid, Nat.eqb_refl.
      * intros Hin. apply Hpost. rewrite Hid. by apply list_elem_of_In.
      * by eapply get_containers_loop_refs.
    + symmetry. apply (with_representation_others id _ post c2).
      * intros Hin. apply Hpost. rewrite Hid. by apply list_elem_of_In.
      * by eapply get_containers_loop_refs.
  - intros Hin. apply (Hpre_post id); [by apply list_elem_of_In |].
    rewrite Hid. left.
  - by eapply get_containers_loop_refs.
Qed.

(** ** [load] *)

Section Load.
Variable Color3f : list value -> result value.
Variable SceneReader : Node.
Variable check_name : string -> result unit.
Variable unique_name : list string -> string -> string.
Variable filepath_from_context : value -> result string.

Lemma store_node_fresh (node node' : Node) (nodes : list Node) :
  node_id node' = node_id node ->
  ~ In (node_id node) (map node_id nodes) ->
  store_node node' (nodes ++ [node]) = nodes ++ [node'].
Proof.
  intros Hid Hfresh. induction nodes as [|n nodes IH]; cbn [app store_node].
  - by rewrite Hid, Nat.eqb_refl.
  - destruct (Nat.eqb (node_id n) (node_id node')) eqn:Hn.
    + apply Nat.eqb_eq in Hn. exfalso. apply Hfresh. left. congruence.
    + rewrite IH; [done |]. intros Hin. apply Hfresh. by right.
Qed.

(** A node whose [user] plug holds the items of [imprint_container] is a
    container with those fields. *)
Lemma imprinted_container (script : ScriptNode) (node : Node)
    (name namespace loader rid : value) :
  has_plug ["user"] (node_plugs node) = true ->
  (forall key v,
     In (key, v) (PipelineSpec.container_items host name namespace loader rid) ->
     exists plug, find_plug ["user"; key] (node_plugs node) = Some plug /\
                  getValue plug = Ok v) ->
  exists c,
    container_of host script node = Ok (Some c) /\
    container_get "_node" c = Ok (PyObj (node_id node)) /\
    container_get "objectName" c = Ok (PyStr (fullName script node)) /\
    container_get "schema" c = Ok (PyStr "openpype:container-2.0") /\
    container_get "id" c = Ok (PyStr (AYON_CONTAINER_ID host)) /\
    container_get "name" c = Ok (PyStr (str host name)) /\
    container_get "namespace" c = Ok (PyStr (str host namespace)) /\
    container_get "loader" c = Ok (PyStr (str host loader)) /\
    container_get "representation" c = Ok (PyStr (str host rid)).
Proof.
  intros Huser Hitems.
  destruct (Hitems "schema" _ ltac:(cbn; eauto 10)) as (p1 & Hf1 & Hv1).
  destruct (Hitems "id" _ ltac:(cbn; eauto 10)) as (p2 & Hf2 & Hv2).
  destruct (Hitems "name" _ ltac:(cbn; eauto 10)) as (p3 & Hf3 & Hv3).
  destruct (Hitems "namespace" _ ltac:(cbn; eauto 10)) as (p4 & Hf4 & Hv4).
  destruct (Hitems "loader" _ ltac:(cbn; eauto 10)) as (p5 & Hf5 & Hv5).
  destruct (Hitems "representation" _ ltac:(cbn; eauto 10)) as (p6 & Hf6 & Hv6).
  unfold container_of, has_plug in *.
  destruct (find_plug ["user"] (node_plugs node)); [| done]. cbn [negb].
  cbn [existsb required]. rewrite Hf1, Hf2, Hf3, Hf4, Hf5, Hf6. cbn [negb orb].
  unfold getitem_plug. cbn [app read_keys required]. unfold getitem_plug.
  cbn [app]. rewrite Hf1, Hf2, Hf3, Hf4, Hf5, Hf6. cbn [mbind result_bind].
  rewrite Hv1, Hv2, Hv3, Hv4, Hv5, Hv6. cbn [mbind result_bind].
  unfold is_container_id. rewrite String.eqb_refl. cbn [orb negb].
  eexists. split; [reflexivity |]. by repeat split.
Qed.

(** X12.  When the calls to the host and to the framework return, [load]
    returns: the new scene reader is the last child of the root script,
    under the name that [addChild] leaves it with, its colour is registered,
    and [get_containers] yields the containers of before followed by one for
    the new node, with the name, the namespace, the loader
    [GafferLoadScene] and the id of the representation of the context. *)
Theorem load_is_recognised (script : ScriptNode) (registry : Registry)
    (context namespace data : value) (name path : string)
    (containers : list Container) (plug plug' : Plug)
    (c3 representation rid : value) :
  PipelineSpec.setValue_stores host ->
  ~ In (node_id SceneReader) (map node_id (script_nodes script)) ->
  get_containers host script = Ok containers ->
  check_name name = Ok () ->
  filepath_from_context context = Ok path ->
  find_plug ["fileName"] (node_plugs SceneReader) = Some plug ->
  setValue host plug (PyStr (replace_char "\" "/" path)) = Ok plug' ->
  has_plug ["user"] (node_plugs SceneReader) = true ->
  Color3f load_color = Ok c3 ->
  getitem context "representation" = Ok representation ->
  getitem representation "id" = Ok rid ->
  exists script' log node' c,
    load host Color3f SceneReader check_name unique_name filepath_from_context
         (Some script) registry context name namespace data
    = (Some script',
       (node_id SceneReader, "nodeGadget:color", c3) :: registry, log, Done ()) /\
    script_nodes script' = script_nodes script ++ [node'] /\
    node_id node' = node_id SceneReader /\
    node_name node'
    = unique_name (map node_name (script_nodes script)) name /\
    find_plug ["fileName"] (node_plugs node') = Some plug' /\
    get_containers host script' = Ok (containers ++ [c]) /\
    container_get "_node" c = Ok (PyObj (node_id SceneReader)) /\
    container_get "objectName" c = Ok (PyStr (fullName script' node')) /\
    container_get "schema" c = Ok (PyStr "openpype:container-2.0") /\
    container_get "id" c = Ok (PyStr (AYON_CONTAINER_ID host)) /\
    container_get "name" c = Ok (PyStr (str host (PyStr name))) /\
    container_get "namespace" c = Ok (PyStr (str host namespace)) /\
    container_get "loader" c = Ok (PyStr (str host (PyStr "GafferLoadScene"))) /\
    container_get "representation" c = Ok (PyStr (str host rid)).
Proof.
  intros Hhost Hfresh Hrun Hname Hpath Hfile Hset Huser Hcolor Hrep Hrid.
  unfold load. rewrite Hname, Hpath. cbn [mbind result_bind node_plugs].
  unfold getitem_plug. cbn [app]. rewrite Hfile. cbn [mbind result_bind].
  rewrite Hset. unfold set_node_color. cbn [length load_color Nat.eqb negb].
  fold load_color. rewrite Hcolor.
  cbn [lift mbind outcome_bind node_id node_name node_plugs node_with_plugs].
  set (node1 := {| node_id := node_id SceneReader;
                   node_name := unique_name (map node_name (script_nodes script)) name;
                   node_plugs := store_plug ["fileName"] plug' (node_plugs SceneReader) |}).
  unfold imprint_container. rewrite Hrep. cbn [mbind result_bind].
  rewrite Hrid. cbn [mbind result_bind]. unfold imprint.
  fold (PipelineSpec.container_items host (PyStr name) namespace
          (PyStr "GafferLoadScene") rid).
  assert (has_plug ["user"] (node_plugs node1) = true) as Huser1.
  { cbn [node1 node_plugs]. by rewrite has_store. }
  destruct (PipelineSpec.imprint_loop_str host "Ayon" _ Hhost
              (PipelineSpec.container_items_str host (PyStr name) namespace
                 (PyStr "GafferLoadScene") rid)
              (PipelineSpec.container_items_keys host (PyStr name) namespace
                 (PyStr "GafferLoadScene") rid)
              node1 [] Huser1)
    as (node' & log & Hloop & Hid & Hnm & Hitems & Hframe).
  rewrite Hloop. cbn [script_nodes with_nodes].
  rewrite (store_node_fresh node1 node') by done.
  set (script' := with_nodes (script_nodes script ++ [node'])
                    (with_nodes (script_nodes script ++ [node1]) script)).
  destruct (imprinted_container script' node' (PyStr name) namespace
              (PyStr "GafferLoadScene") rid) as (c & Hc & Hfields).
  { unfold has_plug in *. rewrite Hframe; [done |]. by intros key _. }
  { exact Hitems. }
  exists script', log, node', c.
  split; [done |]. split; [done |]. split; [done |]. split; [done |]. split.
  { rewrite Hframe by (by intros key _). cbn [node1 node_plugs].
    apply find_store_same. unfold has_plug. by rewrite Hfile. }
  split; [| rewrite Hid in Hfields; exact Hfields].
  unfold get_containers in *.
  replace (script_nodes script') with (script_nodes script ++ [node']) by done.
  rewrite get_containers_loop_app.
  rewrite (get_containers_loop_script script script' (script_nodes script))
    by done.
  rewrite Hrun. cbn [mbind result_bind get_containers_loop].
  by rewrite Hc.
Qed.

End Load.

(** ** [remove] after [load] *)

Lemma removeChild_unconnected (id : nat) (nodes : list Node) :
  ~ In id (map node_id nodes) ->
  (forall node path plug src,
     In node nodes -> In (path, plug) (node_plugs node) ->
     plug_input plug = Some src -> fst src <> id) ->
  removeChild id nodes = nodes.
Proof.
  intros Hid Hfree. unfold removeChild.
  induction nodes as [|n nodes IH]; [done |]. cbn [List.filter map].
  destruct (Nat.eqb (node_id n) id) eqn:Hn.
  { apply Nat.eqb_eq in Hn. exfalso. apply Hid. by left. }
  cbn [negb map]. rewrite IH.
  - f_equal. destruct n as [i nm plugs]. unfold node_with_plugs.
    cbn [node_id node_name node_plugs]. f_equal.
    rewrite <- (map_id plugs) at 2. apply map_ext_in. intros [path plug] Hin.
    cbn [snd fst]. destruct (plug_input plug) as [src|] eqn:Hsrc; [| done].
    destruct (Nat.eqb (fst src) id) eqn:Heq; [| done].
    apply Nat.eqb_eq in Heq. exfalso.
    eapply (Hfree _ path plug src); [by left | done | done | done].
  - intros Hin. apply Hid. by right.
  - intros node path plug src Hnode. apply Hfree. by right.
Qed.

Lemma removeChild_app (id : nat) (a b : list Node) :
  removeChild id (a ++ b) = removeChild id a ++ removeChild id b.
Proof. unfold removeChild. by rewrite List.filter_app, map_app. Qed.

(** X13.  [remove] undoes the [addChild] of [load]: when the node of the
    container is the last child of the root script, a node object that the
    script did not hold before and that no plug of the other nodes reads
    from, the script is afterwards what it was without the node. *)
Theorem remove_undoes_addChild (script : ScriptNode) (node : Node)
    (container : Container) :
  container_get "_node" container = Ok (PyObj (node_id node)) ->
  ~ In (node_id node) (map node_id (script_nodes script)) ->
  (forall n path plug src,
     In n (script_nodes script) -> In (path, plug) (node_plugs n) ->
     plug_input plug = Some src -> fst src <> node_id node) ->
  remove container (with_nodes (script_nodes script ++ [node]) script)
  = (script, Ok ()).
Proof.
  intros Hc Hid Hfree. unfold remove. rewrite Hc. cbn [script_nodes with_nodes].
  assert (find_node (node_id node) (script_nodes script ++ [node]) = Some node)
    as ->.
  { clear Hfree. induction (script_nodes script) as [|n nodes IH];
      cbn [app find_node]; [by rewrite Nat.eqb_refl |].
    destruct (Nat.eqb (node_id n) (node_id node)) eqn:Hn.
    - apply Nat.eqb_eq in Hn. exfalso. apply Hid. by left.
    - apply IH. intros Hin. apply Hid. by right. }
  rewrite removeChild_app, removeChild_unconnected by done.
  unfold removeChild. cbn [List.filter]. rewrite Nat.eqb_refl.
  cbn [negb map]. rewrite app_nil_r. by destruct script.
Qed.

End WithHost.

Lemma remove_forgets_container_witness :
  exists script',
    remove GafferLoadSceneSpec.sample_container Reference.loaded_script
    = (script', Ok ()) /\
    find_node 1 (script_nodes script') = None /\
    get_containers Reference.host script' = Ok [] /\
    remove GafferLoadSceneSpec.sample_container script'
    = (script', Raise (AttributeError "removeChild")).
Proof.
  apply (remove_forgets_container Reference.host Reference.loaded_script
           GafferLoadSceneSpec.sample_container 1 Reference.container_node
           [GafferLoadSceneSpec.sample_container]);
    vm_compute; reflexivity.
Defined.

Lemma update_keeps_containers_witness :
  get_containers Reference.host Reference.loaded_script
  = Ok [GafferLoadSceneSpec.sample_container] /\
  update Reference.host GafferLoadSceneSpec.sample_container
         GafferLoadSceneSpec.newer Reference.loaded_script
  = (GafferLoadSceneSpec.updated_script, Ok ()) /\
  exists id rid,
    container_get "_node" GafferLoadSceneSpec.sample_container = Ok (PyObj id) /\
    getitem GafferLoadSceneSpec.newer "_id" = Ok rid /\
    get_containers Reference.host GafferLoadSceneSpec.updated_script
    = Ok (map (with_representation id (PyStr (str Reference.host rid)))
              [GafferLoadSceneSpec.sample_container]).
Proof.
  split; [vm_compute; reflexivity |]. split; [vm_compute; reflexivity |].
  apply (update_keeps_containers Reference.host Reference.loaded_script
           GafferLoadSceneSpec.updated_script
           GafferLoadSceneSpec.sample_container GafferLoadSceneSpec.newer
           [GafferLoadSceneSpec.sample_container]).
  - exact PipelineSpec.ref_setValue_stores.
  - apply PipelineSpec.sample_ids. reflexivity.
  - vm_compute. reflexivity.
  - vm_compute. reflexivity.
Defined.

(** The containers of the sample script after the update. *)
Example update_sample_containers :
  (containers ← get_containers Reference.host GafferLoadSceneSpec.updated_script;
   Ok (map (container_get "representation") containers))
  = Ok [Ok (PyStr "d4e5f6")].
Proof. vm_compute. reflexivity. Qed.

(** A scene reader as the host makes it, and the calls of a session. *)
Definition new_reader : Node :=
  {| node_id := 3; node_name := "SceneReader";
     node_plugs :=
       [(["fileName"], Reference.plug_of (StringPlug "" "") None);
        (["out"], Reference.plug_of CompoundPlug None);
        (["user"], Reference.plug_of CompoundPlug None)] |}.

Definition ref_Color3f (color : list value) : result value := Ok (PyList color).

Definition ref_check_name (name : string) : result unit :=
  match name with
  | "" => Raise (RuntimeError "Invalid name")
  | _ => Ok ()
  end.

Definition ref_unique_name (names : list string) (name : string) : string :=
  if str_in name names then name +:+ "1" else name.

Definition ref_filepath (context : value) : result string :=
  representation ← getitem context "representation";
  get_representation_path Reference.host representation.

Definition char_context : value :=
  PyDict [(PyStr "representation",
           PyDict [(PyStr "id", PyStr "0f9e8d");
                   (PyStr "path", PyStr "C:\proj\char_v003.abc")])].

Lemma load_is_recognised_witness :
  exists script' log node' c,
    load Reference.host ref_Color3f new_reader ref_check_name ref_unique_name
         ref_filepath (Some Reference.loaded_script) [] char_context
         "charMain" (PyStr "sh010") PyNone
    = (Some script', [(3, "nodeGadget:color", PyList load_color)], log, Done ()) /\
    script_nodes script' = script_nodes Reference.loaded_script ++ [node'] /\
    node_id node' = 3 /\
    node_name node' = "charMain" /\
    find_plug ["fileName"] (node_plugs node')
    = Some (Reference.plug_of (StringPlug "" "C:/proj/char_v003.abc") None) /\
    get_containers Reference.host script'
    = Ok ([GafferLoadSceneSpec.sample_container] ++ [c]) /\
    container_get "_node" c = Ok (PyObj 3) /\
    container_get "objectName" c = Ok (PyStr (fullName script' node')) /\
    container_get "schema" c = Ok (PyStr "openpype:container-2.0") /\
    container_get "id" c = Ok (PyStr "ayon.load.container") /\
    container_get "name" c = Ok (PyStr "charMain") /\
    container_get "namespace" c = Ok (PyStr "sh010") /\
    container_get "loader" c = Ok (PyStr "GafferLoadScene") /\
    container_get "representation" c = Ok (PyStr "0f9e8d").
Proof.
  apply (load_is_recognised Reference.host ref_Color3f new_reader
           ref_check_name ref_unique_name ref_filepath
           Reference.loaded_script [] char_context (PyStr "sh010") PyNone
           "charMain" "C:\proj\char_v003.abc"
           [GafferLoadSceneSpec.sample_container]
           (Reference.plug_of (StringPlug "" "") None)
           (Reference.plug_of (StringPlug "" "C:/proj/char_v003.abc") None)
           (PyList load_color)
           (PyDict [(PyStr "id", PyStr "0f9e8d");
                    (PyStr "path", PyStr "C:\proj\char_v003.abc")])
           (PyStr "0f9e8d")).
  - exact PipelineSpec.ref_setValue_stores.
  - cbn. lia.
  - vm_compute. reflexivity.
  - reflexivity.
  - reflexivity.
  - reflexivity.
  - reflexivity.
  - reflexivity.
  - reflexivity.
  - reflexivity.
  - reflexivity.
Defined.

Lemma remove_undoes_addChild_witness :
  remove [("_node", PyObj 3)]
         (with_nodes (script_nodes Reference.sample_script ++ [new_reader])
                     Reference.sample_script)
  = (Reference.sample_script, Ok ()).
Proof.
  apply (remove_undoes_addChild Reference.sample_script new_reader
           [("_node", PyObj 3)]).
  - reflexivity.
  - cbn. lia.
  - intros n path plug src [<- | [<- | []]];
      cbn; intros Hin; repeat (destruct Hin as [[= <- <-] | Hin]; try done);
      try done; cbn; intros [= <-]; cbn; lia.
Defined.

End LoaderSpec.

(* ===================================================================== *)
(** * pipeline.py: saving the workfile *)
(* ===================================================================== *)

Module Workfile.
Import Py Gaffer Pipeline.

(** The truth value of a Python value; a float is zero when its bits are
    those of [0.0] or of [-0.0]. *)
Definition truthy (v : value) : bool :=
  match v with
  | PyNone => false
  | PyStr s => negb (String.eqb s "")
  | PyBool b => b
  | PyInt z => negb (Z.eqb z 0)
  | PyFloat bits => negb (Z.eqb bits 0 || Z.eqb bits 9223372036854775808)
  | PyList items => match items with [] => false | _ => true end
  | PyDict items => match items with [] => false | _ => true end
  | PyObj _ => true
  end.

Section WithHost.
Variable host : Host.

(** [script.serialiseToFile(path)] *)
Variable serialiseToFile : ScriptNode -> string -> result unit.

(** Whether the script has an application among its ancestors, so that the
    session has a user interface. *)
Variable application : bool.

(** [script[name].getValue()] on the root script. *)
Definition root_value (root : option ScriptNode) (name : string) : result value :=
  match root with
  | None => Raise (TypeError "'NoneType' object is not subscriptable")
  | Some script =>
      plug ← getitem_plug [] name (script_plugs script);
      getValue plug
  end.

(** [GafferHost.has_unsaved_changes()] *)
Definition has_unsaved_changes (root : option ScriptNode) : result value :=
  root_value root "unsavedChanges".

(** [GafferHost.get_workfile_extensions()] *)
Definition get_workfile_extensions : list string := [".gfr"].

(** [GafferHost.get_current_workfile()] *)
Definition get_current_workfile (root : option ScriptNode) : result value :=
  root_value root "fileName".

(** [GafferHost.save_workfile(dst_path)].  [recent] are the paths handed to
    [GafferUI.FileMenu.addRecentFile], in the order of the calls.  The root
    script and the recent files come back as the call left them. *)
Definition save_workfile (root : option ScriptNode) (recent : list string)
    (dst_path : value) : option ScriptNode * list string * result string :=
  match
    dst_path ← (if negb (truthy dst_path) then get_current_workfile root
                else Ok dst_path);
    match dst_path with
    | PyStr s => Ok (replace_char "\" "/" s)
    | _ => Raise (AttributeError "replace")
    end
  with
  | Raise e => (root, recent, Raise e)
  | Ok dst_path =>
      match root with
      | None => (root, recent, Raise (AttributeError "serialiseToFile"))
      | Some script =>
          match serialiseToFile script dst_path with
          | Raise e => (Some script, recent, Raise e)
          | Ok _ =>
              match script_setValue host [] "fileName" (Ok (PyStr dst_path))
                      script with
              | (script, Raise e) => (Some script, recent, Raise e)
              | (script, Ok _) =>
                  match script_setValue host [] "unsavedChanges"
                          (Ok (PyBool false)) script with
                  | (script, Raise e) => (Some script, recent, Raise e)
                  | (script, Ok _) =>
                      let recent :=
                        if application then recent ++ [dst_path] else recent in
                      match update_project_root_directory host script with
                      | (script, Raise e) => (Some script, recent, Raise e)
                      | (script, Ok _) => (Some script, recent, Ok dst_path)
                      end
                  end
              end
          end
      end
  end.

End WithHost.

End Workfile.

Module WorkfileSpec.
Import Py Gaffer Pipeline Workfile GafferFacts.

Section WithHost.
Variable host : Host.
Variable serialiseToFile : ScriptNode -> string -> result unit.
Variable application : bool.

Lemma replace_char_removes (a b : ascii) (s : string) :
  a <> b -> contains_char a (replace_char a b s) = false.
Proof.
  intros Hab. induction s as [|c s IH]; [done |]. cbn. rewrite IH, orb_false_r.
  destruct (Ascii.eqb_spec c a) as [-> | Hc].
  - apply Ascii.eqb_neq. congruence.
  - by apply Ascii.eqb_neq.
Qed.

Lemma script_setValue_ok (parent : list string) (name : string) (v : value)
    (script script' : ScriptNode) :
  script_setValue host parent name (Ok v) script = (script', Ok ()) ->
  exists plug plug',
    find_plug (parent ++ [name]) (script_plugs script) = Some plug /\
    setValue host plug v = Ok plug' /\
    script' = {| script_fullName := script_fullName script;
                 script_plugs :=
                   store_plug (parent ++ [name]) plug' (script_plugs script);
                 script_nodes := script_nodes script |}.
Proof.
  unfold script_setValue, getitem_plug.
  destruct (find_plug (parent ++ [name]) (script_plugs script)) as [plug|];
    [| done].
  destruct (setValue host plug v) as [plug'|] eqn:Hset; [| done].
  intros [= <-]. by exists plug, plug'.
Qed.

Lemma update_project_root_directory_ok (script script' : ScriptNode) :
  update_project_root_directory host script = (script', Ok ()) ->
  exists plug',
    script' = {| script_fullName := script_fullName script;
                 script_plugs :=
                   store_plug ["variables"; "projectRootDirectory"; "value"]
                     plug' (script_plugs script);
                 script_nodes := script_nodes script |}.
Proof.
  unfold update_project_root_directory.
  destruct (getitem_plug [] "variables" _); [| done].
  destruct (getitem_plug ["variables"] "projectRootDirectory" _); [| done].
  destruct (work_root host) as [root|]; cbn [fmap result_fmap].
  - intros (plug & plug' & _ & _ & ->)%script_setValue_ok. by exists plug'.
  - unfold script_setValue. by destruct (getitem_plug _ _ _).
Qed.

(** X14.  Whenever [save_workfile] returns a path, the path holds no
    backslash: it is the given path, or the current workfile when none was
    given, with every backslash turned into a slash.  On a host whose
    [setValue] keeps what it accepts, [get_current_workfile] then returns
    that path and [has_unsaved_changes] returns [False]; the path is handed
    to the recent files when the session has a user interface, and the nodes
    of the script are as before. *)
Theorem save_workfile_sets_current (script script' : ScriptNode)
    (recent recent' : list string) (dst_path : value) (saved : string) :
  ImprintSpec.setValue_holds host ->
  save_workfile host serialiseToFile application (Some script) recent dst_path
  = (Some script', recent', Ok saved) ->
  contains_char "\" saved = false /\
  (exists given,
     (if truthy dst_path then Ok dst_path
      else get_current_workfile (Some script)) = Ok (PyStr given) /\
     saved = replace_char "\" "/" given) /\
  get_current_workfile (Some script') = Ok (PyStr saved) /\
  has_unsaved_changes (Some script') = Ok (PyBool false) /\
  recent' = (if application then recent ++ [saved] else recent) /\
  script_nodes script' = script_nodes script.
Proof.
  intros Hhost. unfold save_workfile.
  destruct (if negb (truthy dst_path) then _ else _) as [given|] eqn:Hgiven;
    [| done].
  cbn [mbind result_bind]. destruct given as [|given| | | | | |]; try done.
  destruct (serialiseToFile script _); [| done].
  destruct (script_setValue host [] "fileName" _ script) as [s1 [[]|]] eqn:H1;
    [| done].
  destruct (script_setValue host [] "unsavedChanges" _ s1) as [s2 [[]|]] eqn:H2;
    [| done].
  destruct (update_project_root_directory host s2) as [s3 [[]|]] eqn:H3;
    [| done].
  intros [= <- <- <-].
  apply script_setValue_ok in H1 as (p1 & p1' & Hf1 & Hs1 & ->).
  apply script_setValue_ok in H2 as (p2 & p2' & Hf2 & Hs2 & ->).
  apply update_project_root_directory_ok in H3 as (p3' & ->).
  cbn [app script_plugs script_nodes script_fullName] in *.
  split; [by apply replace_char_removes |]. split.
  { exists given. split; [| done]. by destruct (truthy dst_path). }
  unfold get_current_workfile, has_unsaved_changes, root_value, getitem_plug.
  cbn [app script_plugs].
  rewrite !(find_store_other ["variables"; "projectRootDirectory"; "value"])
    by done.
  rewrite (find_store_other ["unsavedChanges"] ["fileName"]) by done.
  rewrite find_store_same by (unfold has_plug; by rewrite Hf1).
  rewrite find_store_same by (unfold has_plug; by rewrite Hf2).
  cbn [mbind result_bind].
  by rewrite (Hhost _ _ _ Hs1), (Hhost _ _ _ Hs2).
Qed.

End WithHost.

(** A script of a session with a user interface, and a save to a path with
    backslashes. *)
Definition session_script : ScriptNode :=
  {| script_fullName := "ScriptNode";
     script_plugs :=
       (["unsavedChanges"], Reference.plug_of (BoolPlug false true) None)
       :: script_plugs Reference.sample_script;
     script_nodes := script_nodes Reference.sample_script |}.

Definition saved_script : ScriptNode :=
  match save_workfile Reference.host (fun _ _ => Ok ()) true
          (Some session_script) [] (PyStr "C:\proj\sh010_v002.gfr") with
  | (Some script, _, _) => script
  | (None, _, _) => session_script
  end.

Lemma save_workfile_sets_current_witness :
  save_workfile Reference.host (fun _ _ => Ok ()) true (Some session_script) []
                (PyStr "C:\proj\sh010_v002.gfr")
  = (Some saved_script, ["C:/proj/sh010_v002.gfr"], Ok "C:/proj/sh010_v002.gfr") /\
  get_current_workfile (Some saved_script) = Ok (PyStr "C:/proj/sh010_v002.gfr") /\
  has_unsaved_changes (Some saved_script) = Ok (PyBool false).
Proof.
  split; [vm_compute; reflexivity |].
  destruct (save_workfile_sets_current Reference.host (fun _ _ => Ok ()) true
              session_script saved_script [] ["C:/proj/sh010_v002.gfr"]
              (PyStr "C:\proj\sh010_v002.gfr") "C:/proj/sh010_v002.gfr"
              ImprintSpec.ref_setValue_holds)
    as (_ & _ & Hcurrent & Hunsaved & _ & _); [vm_compute; reflexivity |].
  by split.
Defined.

End WorkfileSpec.

(* ===================================================================== *)
(** * lib.py: the context variables of the script *)
(* ===================================================================== *)

Module LibContext.
Import Py Gaffer.

(** Whether [path] names a direct child of the plug at [parent]. *)
Definition is_child (parent path : list string) : bool :=
  is_prefix parent path && Nat.eqb (length path) (S (length parent)).

(** [parent.children()]: the direct children, in order. *)
Definition children (parent : list string) (plugs : Plugs)
    : list (list string * Plug) :=
  List.filter (fun entry => is_child parent (fst entry)) plugs.

(** A plug that is not yet the child of anything: its name, the plug and
    its own children by name. *)
Record PlugTree : Type :=
  { tree_name : string;
    tree_root : Plug;
    tree_children : list (string * Plug) }.

Section WithHost.
Variable host : Host.

(** [Gaffer.NameValuePlug(nameDefault, valuePlug, defaultEnabled, name,
    flags)]: the plug and its children, as the host makes them. *)
Variable NameValuePlug :
  string -> Plug -> bool -> string -> Z -> Plug * list (string * Plug).

(** The name that [parent.addChild(plug)] leaves a plug with, given the names
    of the children that the parent has. *)
Variable unique_name : list string -> string -> string.

(** [create_render_shot_plug()] *)
Definition create_render_shot_plug : PlugTree :=
  let flags := Z.lor (Flags_Default host) (Flags_Dynamic host) in
  let '(root, below) :=
    NameValuePlug "render:shot"
      {| plug_data := StringPlug "" ""; plug_flags := flags;
         plug_input := None; plug_metadata := [] |}
      true "render:shot" flags in
  {| tree_name := "render:shot"; tree_root := root; tree_children := below |}.

(** [parent.addChild(plug)] for a plug with children. *)
Definition addChild_tree (parent : list string) (tree : PlugTree)
    (plugs : Plugs) : Plugs :=
  let name :=
    unique_name (map (fun entry => List.last (fst entry) "")
                     (children parent plugs))
                (tree_name tree) in
  fold_left (fun plugs child =>
               add_plug (parent ++ [name]) (fst child) (snd child) plugs)
            (tree_children tree)
            (add_plug parent name (tree_root tree) plugs).

(** [x == "render:shot"] *)
Definition is_render_shot (v : value) : bool :=
  match v with
  | PyStr s => String.eqb s "render:shot"
  | _ => false
  end.

(** The list comprehension over the children of [variables]. *)
Definition existing_variables (plugs : Plugs) : result (list value) :=
  mapM (fun var =>
          plug ← getitem_plug (fst var) "name" plugs;
          getValue plug)
       (children ["variables"] plugs).

(** [create_multishot_context_vars(script_node)]: an exception can only
    come before the script is changed. *)
Definition create_multishot_context_vars (script_node : ScriptNode)
    : result ScriptNode :=
  _ ← getitem_plug [] "variables" (script_plugs script_node);
  existing_variables ← existing_variables (script_plugs script_node);
  if negb (existsb is_render_shot existing_variables)
  then
    let render_shot_plug := create_render_shot_plug in
    Ok {| script_fullName := script_fullName script_node;
          script_plugs :=
            addChild_tree ["variables"] render_shot_plug
                          (script_plugs script_node);
          script_nodes := script_nodes script_node |}
  else Ok script_node.

End WithHost.

End LibContext.

Module LibContextSpec.
Import Py Gaffer LibContext GafferFacts.

Lemma in_add_plug_walk (parent : list string) (entry e : list string * Plug)
    (plugs : Plugs) :
  In e (add_plug_walk parent entry plugs) <-> e = entry \/ In e plugs.
Proof.
  induction plugs as [|x plugs IH]; cbn [add_plug_walk].
  - cbn. intuition.
  - destruct (existsb _ plugs); cbn [In]; [rewrite IH |]; intuition.
Qed.

Lemma in_add_plug (parent : list string) (name : string) (plug : Plug)
    (e : list string * Plug) (plugs : Plugs) :
  In e (add_plug parent name plug plugs)
  <-> e = (parent ++ [name], plug) \/ In e plugs.
Proof.
  unfold add_plug. destruct (existsb _ plugs).
  - apply in_add_plug_walk.
  - rewrite in_app_iff. cbn. intuition.
Qed.

(** The plugs after the children of a new plug have been added. *)
Definition with_children (path : list string) (below : list (string * Plug))
    (plugs : Plugs) : Plugs :=
  fold_left (fun plugs child => add_plug path (fst child) (snd child) plugs)
            below plugs.

Lemma find_with_children_old (path q : list string)
    (below : list (string * Plug)) (plugs : Plugs) (x : Plug) :
  find_plug q plugs = Some x ->
  find_plug q (with_children path below plugs) = Some x.
Proof.
  revert plugs. induction below as [|c below IH]; intros plugs Hq; [done |].
  cbn [with_children fold_left]. apply IH. by rewrite find_add_any, Hq.
Qed.

Lemma find_with_children_new (path : list string) (name : string)
    (below : list (string * Plug)) (plugs : Plugs) (plug : Plug) :
  find_plug (path ++ [name]) plugs = None ->
  List.find (fun child => String.eqb (fst child) name) below = Some (name, plug) ->
  find_plug (path ++ [name]) (with_children path below plugs) = Some plug.
Proof.
  revert plugs. induction below as [|[k x] below IH]; intros plugs Hfree; [done |].
  cbn [List.find fst with_children fold_left snd].
  destruct (String.eqb k name) eqn:Hk.
  - apply String.eqb_eq in Hk as ->. intros [= ->].
    apply find_with_children_old.
    by rewrite find_add_any, Hfree, path_eqb_refl.
  - intros Hfind. apply IH; [| done].
    rewrite find_add_any, Hfree.
    destruct (path_eqb (path ++ [name]) (path ++ [k])) eqn:Heq; [| done].
    apply path_eqb_eq, app_inv_head in Heq. injection Heq as ->.
    by rewrite String.eqb_refl in Hk.
Qed.

Lemma in_with_children (path : list string) (below : list (string * Plug))
    (plugs : Plugs) (e : list string * Plug) :
  In e (with_children path below plugs) ->
  In e plugs \/ exists child, In child below /\ e = (path ++ [fst child], snd child).
Proof.
  revert plugs. induction below as [|c below IH]; intros plugs; [by left |].
  cbn [with_children fold_left]. intros [Hin | (child & Hchild & ->)]%IH.
  - apply in_add_plug in Hin as [-> | Hin]; [| by left].
    right. exists c. split; [by left | done].
  - right. exists child. split; [by right | done].
Qed.

Lemma in_with_children_old (path : list string) (below : list (string * Plug))
    (plugs : Plugs) (e : list string * Plug) :
  In e plugs -> In e (with_children path below plugs).
Proof.
  revert plugs. induction below as [|c below IH]; intros plugs Hin; [done |].
  cbn [with_children fold_left]. apply IH, in_add_plug. by right.
Qed.

Lemma mapM_total {A B} (f : A -> result B) (items : list A) :
  (forall x, In x items -> exists y, f x = Ok y) ->
  exists ys, mapM f items = Ok ys /\
             forall x y, In x items -> f x = Ok y -> In y ys.
Proof.
  induction items as [|x items IH]; intros Hall.
  - by exists [].
  - destruct (Hall x) as [y Hy]; [by left |].
    destruct IH as (ys & Hys & Hin); [intros z Hz; apply Hall; by right |].
    exists (y :: ys). cbn [mapM]. rewrite Hy, Hys. split; [done |].
    intros z w [<- | Hz] Hw; [left; congruence | right; by eapply Hin].
Qed.

Lemma mapM_each {A B} (f : A -> result B) (items : list A) (ys : list B) :
  mapM f items = Ok ys -> forall x, In x items -> exists y, f x = Ok y.
Proof.
  revert ys. induction items as [|x items IH]; intros ys; [done |].
  cbn [mapM]. destruct (f x) as [y|] eqn:Hy; [| done]. cbn [mbind result_bind].
  destruct (mapM f items) as [rest|]; [| done]. intros _ z [<- | Hz]; [eauto |].
  by eapply IH.
Qed.

Section WithHost.
Variable host : Host.
Variable NameValuePlug :
  string -> Plug -> bool -> string -> Z -> Plug * list (string * Plug).
Variable unique_name : list string -> string -> string.

(** The name under which the new variable is added. *)
Definition new_name (plugs : Plugs) : string :=
  unique_name (map (fun entry => List.last (fst entry) "")
                   (children ["variables"] plugs))
              "render:shot".

(** X15.  [create_multishot_context_vars] is idempotent: a second call on
    the script that the first call has left changes nothing.  The plugs that
    were there are still there with what they held.  The host is taken to
    give the new plug a name that no child of [variables] has, and a child
    [name] that holds the name it was made with. *)
Theorem create_multishot_context_vars_idempotent (script script' : ScriptNode)
    (name_plug : Plug) :
  List.find (fun child => String.eqb (fst child) "name")
            (tree_children (create_render_shot_plug host NameValuePlug))
  = Some ("name", name_plug) ->
  getValue name_plug = Ok (PyStr "render:shot") ->
  (forall entry, In entry (script_plugs script) ->
     is_prefix ["variables"; new_name (script_plugs script)] (fst entry) = false) ->
  create_multishot_context_vars host NameValuePlug unique_name script
  = Ok script' ->
  create_multishot_context_vars host NameValuePlug unique_name script'
  = Ok script' /\
  (exists existing,
     existing_variables (script_plugs script') = Ok existing /\
     In (PyStr "render:shot") existing) /\
  (forall q plug, find_plug q (script_plugs script) = Some plug ->
                  find_plug q (script_plugs script') = Some plug) /\
  script_nodes script' = script_nodes script.
Proof.
  intros Hname Hvalue Hfresh. unfold create_multishot_context_vars at 1.
  destruct (getitem_plug [] "variables" (script_plugs script)) as [vars|] eqn:Hvars;
    [| done].
  cbn [mbind result_bind].
  destruct (existing_variables (script_plugs script)) as [existing|] eqn:Hexisting;
    [| done].
  cbn [mbind result_bind].
  destruct (existsb is_render_shot existing) eqn:Hfound; cbn [negb].
  { intros [= <-]. split; [| split; [| by split]].
    - unfold create_multishot_context_vars. rewrite Hvars.
      cbn [mbind result_bind]. rewrite Hexisting. cbn [mbind result_bind].
      by rewrite Hfound.
    - exists existing. split; [done |].
      apply existsb_exists in Hfound as (v & Hv & Hshot).
      destruct v as [|s| | | | | |]; try done.
      by apply String.eqb_eq in Hshot as ->. }
  intros [= <-]. cbn [script_plugs script_nodes].
  set (tree := create_render_shot_plug host NameValuePlug) in *.
  assert (tree_name tree = "render:shot") as Htree.
  { unfold tree, create_render_shot_plug. by destruct (NameValuePlug _ _ _ _ _). }
  unfold addChild_tree. rewrite Htree.
  fold (new_name (script_plugs script)).
  set (n := new_name (script_plugs script)) in *.
  set (base := add_plug ["variables"] n (tree_root tree) (script_plugs script)).
  fold (with_children (["variables"] ++ [n]) (tree_children tree) base).
  set (plugs' := with_children (["variables"] ++ [n]) (tree_children tree) base).
  assert (forall q plug, find_plug q (script_plugs script) = Some plug ->
                         find_plug q plugs' = Some plug) as Hold.
  { intros q plug Hq. apply find_with_children_old.
    unfold base. by rewrite find_add_any, Hq. }
  assert (forall q, is_prefix ["variables"; n] q = true ->
                    find_plug q (script_plugs script) = None) as Hnone.
  { intros q Hq. destruct (find_plug q (script_plugs script)) as [x|] eqn:Hx;
      [| done].
    apply find_plug_some, Hfresh in Hx. cbn [fst] in Hx. congruence. }
  assert (find_plug ["variables"; n; "name"] plugs' = Some name_plug) as Hnew.
  { apply (find_with_children_new (["variables"] ++ [n]) "name"); [| done].
    unfold base. rewrite find_add_any. cbn [app].
    rewrite (Hnone ["variables"; n; "name"])
      by (cbn; by rewrite String.eqb_refl).
    destruct (path_eqb _ _) eqn:Heq; [| done].
    by apply path_eqb_eq in Heq. }
  cut (exists existing,
         existing_variables plugs' = Ok existing /\
         In (PyStr "render:shot") existing).
  { intros (existing' & Hrun & Hshot).
    split; [| split; [by exists existing' | split; [exact Hold | done]]].
    unfold create_multishot_context_vars. cbn [script_plugs].
    unfold getitem_plug in Hvars |- *. cbn [app] in *.
    destruct (find_plug ["variables"] (script_plugs script)) as [v|] eqn:Hv;
      [| done].
    rewrite (Hold _ _ Hv). cbn [mbind result_bind].
    rewrite Hrun. cbn [mbind result_bind].
    assert (existsb is_render_shot existing' = true) as ->; [| done].
    apply existsb_exists. by exists (PyStr "render:shot"). }
  destruct (mapM_total
              (fun var => plug ← getitem_plug (fst var) "name" plugs';
                          getValue plug)
              (children ["variables"] plugs')) as (existing' & Hrun & Hin).
  { intros [path plug] [Hentry Hchild]%filter_In. cbn [fst] in *.
    apply in_with_children in Hentry as [Hentry | (child & Hchild' & Heq)].
    - apply in_add_plug in Hentry as [[= -> ->] | Hentry].
      + exists (PyStr "render:shot"). unfold getitem_plug. cbn [app].
        by rewrite Hnew.
      + destruct (mapM_each _ _ _ Hexisting (path, plug)) as [y Hy].
        { apply filter_In. by split. }
        exists y. cbn [fst] in Hy. unfold getitem_plug in Hy |- *.
        destruct (find_plug (path ++ ["name"]) (script_plugs script)) as [pn|] eqn:Hpn;
          [| done].
        by rewrite (Hold _ _ Hpn).
    - injection Heq as -> _. unfold is_child in Hchild.
      apply andb_prop in Hchild as [_ Hlen]. by cbn in Hlen. }
  exists existing'. split; [exact Hrun |].
  apply (Hin (["variables"; n], tree_root tree)).
  - apply filter_In. split; [| reflexivity].
    apply in_with_children_old, in_add_plug. by left.
  - unfold getitem_plug. cbn [fst app]. by rewrite Hnew.
Qed.

End WithHost.

(** A script with one context variable, and the plugs of a host. *)
Definition ref_NameValuePlug (nameDefault : string) (valuePlug : Plug)
    (defaultEnabled : bool) (name : string) (flags : Z)
    : Plug * list (string * Plug) :=
  ({| plug_data := CompoundPlug; plug_flags := flags; plug_input := None;
      plug_metadata := [] |},
   [("name", Reference.plug_of (StringPlug nameDefault nameDefault) None);
    ("enabled", Reference.plug_of (BoolPlug defaultEnabled defaultEnabled) None);
    ("value", valuePlug)]).

Definition vars_script : ScriptNode :=
  {| script_fullName := "ScriptNode";
     script_plugs :=
       [(["variables"], Reference.plug_of CompoundPlug None);
        (["variables"; "projectRootDirectory"], Reference.plug_of CompoundPlug None);
        (["variables"; "projectRootDirectory"; "name"],
         Reference.plug_of (StringPlug "project:rootDirectory" "project:rootDirectory")
                           None);
        (["variables"; "projectRootDirectory"; "value"],
         Reference.plug_of (StringPlug "" "/proj") None);
        (["user"], Reference.plug_of CompoundPlug None)];
     script_nodes := [] |}.

Definition with_render_shot : ScriptNode :=
  match create_multishot_context_vars Reference.host ref_NameValuePlug
          LoaderSpec.ref_unique_name vars_script with
  | Ok script => script
  | Raise _ => vars_script
  end.

Lemma create_multishot_context_vars_idempotent_witness :
  create_multishot_context_vars Reference.host ref_NameValuePlug
    LoaderSpec.ref_unique_name vars_script = Ok with_render_shot /\
  create_multishot_context_vars Reference.host ref_NameValuePlug
    LoaderSpec.ref_unique_name with_render_shot = Ok with_render_shot /\
  map fst (script_plugs with_render_shot)
  = [["variables"];
     ["variables"; "projectRootDirectory"];
     ["variables"; "projectRootDirectory"; "name"];
     ["variables"; "projectRootDirectory"; "value"];
     ["variables"; "render:shot"];
     ["variables"; "render:shot"; "name"];
     ["variables"; "render:shot"; "enabled"];
     ["variables"; "render:shot"; "value"];
     ["user"]].
Proof.
  split; [vm_compute; reflexivity |]. split; [| vm_compute; reflexivity].
  apply (create_multishot_context_vars_idempotent Reference.host
           ref_NameValuePlug LoaderSpec.ref_unique_name vars_script
           with_render_shot
           (Reference.plug_of (StringPlug "render:shot" "render:shot") None)).
  - reflexivity.
  - reflexivity.
  - intros entry Hin. cbn in Hin.
    repeat (destruct Hin as [<- | Hin]; [reflexivity |]). done.
  - vm_compute. reflexivity.
Defined.

End LibContextSpec.

(* ===================================================================== *)
(** * lib.py: the frame range *)
(* ===================================================================== *)

Module LibFrames.
Import Py Gaffer Pipeline.

(** A boolean or an integer as the integer it counts as. *)
Definition as_int (v : value) : option Z :=
  match v with
  | PyInt z => Some z
  | PyBool true => Some 1%Z
  | PyBool false => Some 0%Z
  | _ => None
  end.

Definition is_obj (v : value) : bool :=
  match v with PyObj _ => true | _ => false end.

Definition is_none (v : value) : bool :=
  match v with PyNone => true | _ => false end.

(** The variables of the context of a script, [context().get(name)]: [None]
    for a name that is not set. *)
Definition Context : Type := list (string * value).

Fixpoint context_get (name : string) (context : Context) : value :=
  match context with
  | [] => PyNone
  | (k, v) :: rest => if String.eqb k name then v else context_get name rest
  end.

(** The frame range that [GafferUI.Playback] was given, if any. *)
Definition Playback : Type := option (value * value).

Section WithHost.
Variable host : Host.

(** The operators [-] and [+] and the builtin [int] outside the cases that
    are spelled out below (floats, strings, host objects). *)
Variable binop : string -> value -> value -> result value.
Variable int_other : value -> result value.

(** Whether the script has an application among its ancestors. *)
Variable application : bool.

(** [a - b] and [a + b]: exact on integers and booleans, [TypeError] when an
    operand is [None] and the other is no host object. *)
Definition arith (op : string) (f : Z -> Z -> Z) (a b : value) : result value :=
  match as_int a, as_int b with
  | Some x, Some y => Ok (PyInt (f x y))
  | _, _ =>
      if is_obj a || is_obj b then binop op a b
      else if is_none a || is_none b
           then Raise (TypeError ("unsupported operand type(s) for " +:+ op))
           else binop op a b
  end.

(** [int(x)] *)
Definition int_ (v : value) : result value :=
  match as_int v, v with
  | Some x, _ => Ok (PyInt x)
  | None, (PyNone | PyList _ | PyDict _) =>
      Raise (TypeError "int() argument must be a string or a real number")
  | None, _ => int_other v
  end.

(** [set_frame_range(script_node, include_handles)].  The script, the
    playback range and the log come back as the call left them. *)
Definition set_frame_range (script_node : ScriptNode) (context : Context)
    (playback : Playback) (include_handles : bool)
    : ScriptNode * Playback * list log_record * result unit :=
  let frame_start := context_get "ayon:frame_start" context in
  let frame_end := context_get "ayon:frame_end" context in
  let handle_start := context_get "ayon:handle_start" context in
  let handle_end := context_get "ayon:handle_end" context in
  match
    (if include_handles
     then
       frame_start ← arith "-" Z.sub frame_start handle_start;
       frame_end ← arith "+" Z.add frame_end handle_end;
       Ok (frame_start, frame_end)
     else Ok (frame_start, frame_end))
  with
  | Raise e => (script_node, playback, [], Raise e)
  | Ok (frame_start, frame_end) =>
      let log :=
        [{| log_level := INFO;
            log_message :=
              "Setting frame range: [" +:+ str host frame_start +:+ "-" +:+
              str host frame_end;
            log_args := [] |}] in
      match getitem_plug [] "frameRange" (script_plugs script_node) with
      | Raise e => (script_node, playback, log, Raise e)
      | Ok _ =>
          match script_setValue host ["frameRange"] "start" (int_ frame_start)
                  script_node with
          | (script_node, Raise e) => (script_node, playback, log, Raise e)
          | (script_node, Ok _) =>
              match script_setValue host ["frameRange"] "end" (int_ frame_end)
                      script_node with
              | (script_node, Raise e) => (script_node, playback, log, Raise e)
              | (script_node, Ok _) =>
                  (* if we are in a GUI session we also reset the frame slider *)
                  if application
                  then (script_node, Some (frame_start, frame_end), log, Ok ())
                  else (script_node, playback, log, Ok ())
              end
          end
      end
  end.

End WithHost.

End LibFrames.

Module LibFramesSpec.
Import Py Gaffer Pipeline LibFrames GafferFacts.

Section WithHost.
Variable host : Host.
Variable binop : string -> value -> value -> result value.
Variable int_other : value -> result value.
Variable application : bool.

(** The four variables are integers. *)
Definition frames (context : Context) (fs fe hs he : Z) : Prop :=
  context_get "ayon:frame_start" context = PyInt fs /\
  context_get "ayon:frame_end" context = PyInt fe /\
  context_get "ayon:handle_start" context = PyInt hs /\
  context_get "ayon:handle_end" context = PyInt he.

(** X16.  With the four variables set to integers and a host whose
    [setValue] keeps what it accepts, a call that returns has set the frame
    range of the script to the range of the context, widened by the handles
    on both sides when they are included: the start is
    [frame_start - handle_start] and the end is [frame_end + handle_end].
    The playback range is set to the same frames when the script has an
    application, and is left alone otherwise. *)
Theorem set_frame_range_widens (script script' : ScriptNode)
    (context : Context) (playback playback' : Playback)
    (include_handles : bool) (log : list log_record) (fs fe hs he : Z) :
  ImprintSpec.setValue_holds host ->
  frames context fs fe hs he ->
  set_frame_range host binop int_other application script context playback
                  include_handles
  = (script', playback', log, Ok ()) ->
  let first := if include_handles then (fs - hs)%Z else fs in
  let last := if include_handles then (fe + he)%Z else fe in
  (getitem_plug ["frameRange"] "start" (script_plugs script') ≫= getValue)
  = Ok (PyInt first) /\
  (getitem_plug ["frameRange"] "end" (script_plugs script') ≫= getValue)
  = Ok (PyInt last) /\
  (last - first = (fe - fs) + (if include_handles then hs + he else 0))%Z /\
  playback' = (if application then Some (PyInt first, PyInt last) else playback) /\
  script_nodes script' = script_nodes script.
Proof.
  intros Hhost (Hfs & Hfe & Hhs & Hhe). unfold set_frame_range.
  rewrite Hfs, Hfe, Hhs, Hhe. cbn zeta.
  set (first := if include_handles then (fs - hs)%Z else fs).
  set (last := if include_handles then (fe + he)%Z else fe).
  assert ((if include_handles
           then frame_start ← arith binop "-" Z.sub (PyInt fs) (PyInt hs);
                frame_end ← arith binop "+" Z.add (PyInt fe) (PyInt he);
                Ok (frame_start, frame_end)
           else Ok (PyInt fs, PyInt fe)) = Ok (PyInt first, PyInt last)) as ->.
  { unfold first, last. by destruct include_handles. }
  destruct (getitem_plug [] "frameRange" (script_plugs script)); [| done].
  cbn [int_ as_int].
  destruct (script_setValue host ["frameRange"] "start" _ script)
    as [s1 [[]|]] eqn:H1; [| done].
  destruct (script_setValue host ["frameRange"] "end" _ s1)
    as [s2 [[]|]] eqn:H2; [| done].
  apply WorkfileSpec.script_setValue_ok in H1 as (p1 & p1' & Hf1 & Hs1 & ->).
  apply WorkfileSpec.script_setValue_ok in H2 as (p2 & p2' & Hf2 & Hs2 & ->).
  cbn [app script_plugs] in *.
  intros Hrun.
  assert (script' = {| script_fullName := script_fullName script;
                       script_plugs :=
                         store_plug ["frameRange"; "end"] p2'
                           (store_plug ["frameRange"; "start"] p1'
                              (script_plugs script));
                       script_nodes := script_nodes script |} /\
          playback' = (if application then Some (PyInt first, PyInt last)
                       else playback)) as [-> ->].
  { destruct application; by injection Hrun as <- <- _. }
  unfold getitem_plug. cbn [app script_plugs script_nodes].
  rewrite (find_store_other ["frameRange"; "end"] ["frameRange"; "start"]) by done.
  rewrite !find_store_same by (unfold has_plug; by rewrite ?Hf1, ?Hf2).
  cbn [mbind result_bind]. rewrite (Hhost _ _ _ Hs1), (Hhost _ _ _ Hs2).
  repeat split. unfold first, last. destruct include_handles; lia.
Qed.

(** One of the four variables is not set, and the others are integers. *)
Definition int_or_none (v : value) : Prop := v = PyNone \/ exists z, v = PyInt z.

(** X17.  With the handles included, a call in a context where one of the
    four variables is not set (and the others are integers) raises
    [TypeError] before anything is changed: the script and the playback
    range are as before and nothing is logged. *)
Theorem set_frame_range_missing_variable (script : ScriptNode)
    (context : Context) (playback : Playback) :
  int_or_none (context_get "ayon:frame_start" context) ->
  int_or_none (context_get "ayon:frame_end" context) ->
  int_or_none (context_get "ayon:handle_start" context) ->
  int_or_none (context_get "ayon:handle_end" context) ->
  (context_get "ayon:frame_start" context = PyNone \/
   context_get "ayon:frame_end" context = PyNone \/
   context_get "ayon:handle_start" context = PyNone \/
   context_get "ayon:handle_end" context = PyNone) ->
  exists msg,
    set_frame_range host binop int_other application script context playback
                    true
    = (script, playback, [], Raise (TypeError msg)).
Proof.
  intros Hfs Hfe Hhs Hhe Hmissing. unfold set_frame_range.
  destruct Hfs as [Hfs | [fs Hfs]], Hhs as [Hhs | [hs Hhs]];
    rewrite Hfs, Hhs; try (by eexists);
    cbn [arith as_int is_obj is_none orb mbind result_bind].
  destruct Hfe as [Hfe | [fe Hfe]], Hhe as [Hhe | [he Hhe]];
    rewrite Hfe, Hhe; try (by eexists).
  destruct Hmissing as [? | [? | [? | ?]]]; congruence.
Qed.

(** X18.  Without the handles, a missing [ayon:frame_end] is found only
    after the start of the range has been written: the call raises
    [TypeError] and leaves the start plug of the frame range set to
    [ayon:frame_start], the end plug as it was, and the line in the log. *)
Theorem set_frame_range_half_set (script : ScriptNode) (context : Context)
    (playback : Playback) (fs : Z) (range start start' : Plug) :
  context_get "ayon:frame_start" context = PyInt fs ->
  context_get "ayon:frame_end" context = PyNone ->
  find_plug ["frameRange"] (script_plugs script) = Some range ->
  find_plug ["frameRange"; "start"] (script_plugs script) = Some start ->
  setValue host start (PyInt fs) = Ok start' ->
  has_plug ["frameRange"; "end"] (script_plugs script) = true ->
  exists msg log,
    set_frame_range host binop int_other application script context playback
                    false
    = ({| script_fullName := script_fullName script;
          script_plugs :=
            store_plug ["frameRange"; "start"] start' (script_plugs script);
          script_nodes := script_nodes script |},
       playback, [log], Raise (TypeError msg)).
Proof.
  intros Hfs Hfe Hrange Hstart Hset Hend. unfold set_frame_range.
  rewrite Hfs, Hfe. unfold getitem_plug. cbn [app]. rewrite Hrange.
  unfold script_setValue, getitem_plug. cbn [app int_ as_int].
  rewrite Hstart, Hset. cbn [script_plugs].
  rewrite (find_store_other ["frameRange"; "start"] ["frameRange"; "end"]) by done.
  unfold has_plug in Hend.
  destruct (find_plug ["frameRange"; "end"] (script_plugs script)); [| done].
  by eexists _, _.
Qed.

End WithHost.

(** A script with a frame range, and the context of a shot. *)
Definition frames_script : ScriptNode :=
  {| script_fullName := "ScriptNode";
     script_plugs :=
       [(["frameRange"], Reference.plug_of CompoundPlug None);
        (["frameRange"; "start"], Reference.plug_of (IntPlug 1 1) None);
        (["frameRange"; "end"], Reference.plug_of (IntPlug 100 100) None)];
     script_nodes := [] |}.

Definition shot_context : Context :=
  [("ayon:frame_start", PyInt 1001); ("ayon:frame_end", PyInt 1100);
   ("ayon:handle_start", PyInt 10); ("ayon:handle_end", PyInt 5)].

Definition no_binop (op : string) (a b : value) : result value :=
  Raise (TypeError ("unsupported operand type(s) for " +:+ op)).

Definition no_int (v : value) : result value :=
  Raise (ValueError "invalid literal for int()").

Definition ranged : ScriptNode * Playback * list log_record * result unit :=
  set_frame_range Reference.host no_binop no_int true frames_script
                  shot_context None true.

Lemma set_frame_range_widens_witness :
  frames shot_context 1001 1100 10 5 /\
  ranged = (fst (fst (fst ranged)), Some (PyInt 991, PyInt 1105),
            snd (fst ranged), Ok ()) /\
  (getitem_plug ["frameRange"] "start" (script_plugs (fst (fst (fst ranged))))
   ≫= getValue) = Ok (PyInt 991) /\
  (getitem_plug ["frameRange"] "end" (script_plugs (fst (fst (fst ranged))))
   ≫= getValue) = Ok (PyInt 1105).
Proof.
  split; [by repeat split |]. split; [vm_compute; reflexivity |].
  destruct (set_frame_range_widens Reference.host no_binop no_int true
              frames_script (fst (fst (fst ranged))) shot_context None
              (Some (PyInt 991, PyInt 1105)) true (snd (fst ranged))
              1001 1100 10 5 ImprintSpec.ref_setValue_holds)
    as (Hstart & Hend & _); [by repeat split | vm_compute; reflexivity |].
  by split.
Defined.

Lemma set_frame_range_missing_variable_witness :
  exists msg,
    set_frame_range Reference.host no_binop no_int true frames_script
      [("ayon:frame_start", PyInt 1001); ("ayon:frame_end", PyInt 1100);
       ("ayon:handle_start", PyInt 10)] None true
    = (frames_script, None, [], Raise (TypeError msg)).
Proof.
  apply (set_frame_range_missing_variable Reference.host no_binop no_int true
           frames_script).
  - right. by exists 1001%Z.
  - right. by exists 1100%Z.
  - right. by exists 10%Z.
  - by left.
  - right. right. by right.
Defined.

Lemma set_frame_range_half_set_witness :
  exists msg log,
    set_frame_range Reference.host no_binop no_int true frames_script
      [("ayon:frame_start", PyInt 1001)] None false
    = ({| script_fullName := "ScriptNode";
          script_plugs :=
            [(["frameRange"], Reference.plug_of CompoundPlug None);
             (["frameRange"; "start"], Reference.plug_of (IntPlug 1 1001) None);
             (["frameRange"; "end"], Reference.plug_of (IntPlug 100 100) None)];
          script_nodes := [] |},
       None, [log], Raise (TypeError msg)).
Proof.
  apply (set_frame_range_half_set Reference.host no_binop no_int true
           frames_script [("ayon:frame_start", PyInt 1001)] None 1001
           (Reference.plug_of CompoundPlug None)
           (Reference.plug_of (IntPlug 1 1) None)
           (Reference.plug_of (IntPlug 1 1001) None)); reflexivity.
Defined.

End LibFramesSpec.

(* ===================================================================== *)
(** * More properties of [get_node_connections] and [replace_node] *)
(* ===================================================================== *)

Module ConnectionsSpec.
Import Py Gaffer Lib GafferFacts.

Section WithHost.
Variable host : Host.

(** X19.  Every entry of [get_node_connections] stands for a serialisable
    plug of the node, under its relative name, and lists at least one
    connection; it lists at most one input, which is the input of the plug,
    and its outputs read from the plug; no listed plug is a plug of the node
    itself. *)
Theorem get_node_connections_outside (nodes : list Node) (node : Node)
    (key : string) (pluginfo : plugmap) :
  In (key, pluginfo) (get_node_connections host nodes node) ->
  (plug_in pluginfo <> [] \/ plug_out pluginfo <> []) /\
  length (plug_in pluginfo) <= 1 /\
  (forall p, In p (plug_in pluginfo ++ plug_out pluginfo) ->
             fst p <> node_id node) /\
  exists path plug,
    In (path, plug) (node_plugs node) /\
    serialisable host plug = true /\
    key = relativeName path /\
    (forall p, In p (plug_in pluginfo) -> plug_input plug = Some p) /\
    (forall o, In o (plug_out pluginfo) ->
               In o (outputs nodes (node_id node, path))).
Proof.
  intros (path & plug & Hentry & Hser & -> & Hin & Hout & Hany)
    %LibSpec.connections_elem.
  split; [done |].
  assert (forall p, In p (plug_in pluginfo) ->
            plug_input plug = Some p /\ fst p <> node_id node) as Hins.
  { intros p. rewrite Hin. unfold LibSpec.inputs_outside.
    destruct (plug_input plug) as [src|]; [| done].
    destruct (Nat.eqb (fst src) (node_id node)) eqn:Hsrc; [done |].
    intros [<- | []]. split; [done |]. by apply Nat.eqb_neq. }
  assert (forall o, In o (plug_out pluginfo) ->
            In o (outputs nodes (node_id node, path)) /\
            fst o <> node_id node) as Houts.
  { intros o. rewrite Hout. unfold LibSpec.outputs_outside.
    intros [Ho Hne]%filter_In. split; [done |].
    apply Nat.eqb_neq. by destruct (Nat.eqb (fst o) (node_id node)). }
  split.
  { rewrite Hin. unfold LibSpec.inputs_outside.
    destruct (plug_input plug) as [src|]; [| cbn; lia].
    destruct (Nat.eqb (fst src) (node_id node)); cbn; lia. }
  split.
  { intros p [Hp | Hp]%in_app_or; [by apply Hins | by apply Houts]. }
  exists path, plug. split; [done |]. split; [done |]. split; [done |].
  split; [intros p Hp; by apply Hins | intros o Ho; by apply Houts].
Qed.

(** ** The values that [replace_node] carries over *)

(** [plug.defaultValue()] *)
Definition defaultValue (plug : Plug) : result value :=
  match plug_data plug with
  | StringPlug d _ => Ok (PyStr d)
  | BoolPlug d _ => Ok (PyBool d)
  | FloatPlug d _ => Ok (PyFloat d)
  | IntPlug d _ => Ok (PyInt d)
  | CompoundPlug => Raise (AttributeError "defaultValue")
  end.

(** The path under which [copy_plug] adds a plug. *)
Lemma removelast_last (path : list string) :
  path <> [] -> removelast path ++ [List.last path ""] = path.
Proof. intros Hne. symmetry. by apply app_removelast_last. Qed.

(** A turn of the loop over the values for another plug leaves the plug at
    [q] as it is. *)
Lemma find_carry_value_other (q : list string) (plugs : Plugs)
    (item : list string * Plug * value) :
  fst (fst item) <> [] -> fst (fst item) <> q ->
  find_plug q (carry_value host plugs item) = find_plug q plugs.
Proof.
  destruct item as [[path plug] v]. cbn [fst]. intros Hne Hq.
  unfold carry_value.
  destruct (descendant plugs path) as [target|] eqn:Hd.
  - apply LibSpec.descendant_some in Hd as [-> _].
    destruct (find_plug path plugs) as [t|]; [| done].
    destruct (negb (serialisable host t)); [done |].
    destruct (setValue host t v); [| done].
    by apply find_store_other.
  - unfold copy_plug. destruct (forallb _ _); [| done].
    rewrite find_add_any, removelast_last by done.
    destruct (find_plug q plugs); [done |].
    by rewrite path_eqb_neq.
Qed.

Lemma find_carry_values_other (q : list string)
    (items : list (list string * Plug * value)) (plugs : Plugs) :
  (forall item, In item items -> fst (fst item) <> [] /\ fst (fst item) <> q) ->
  find_plug q (fold_left (carry_value host) items plugs) = find_plug q plugs.
Proof.
  revert plugs. induction items as [|item items IH]; intros plugs Hitems; [done |].
  cbn [fold_left]. rewrite IH by (intros i Hi; apply Hitems; by right).
  apply find_carry_value_other; by apply Hitems; left.
Qed.

(** The plug that [copy_plug] makes of a plug. *)
Definition copy_of (plug : Plug) : Plug :=
  {| plug_data :=
       match plug_data plug with
       | StringPlug d _ => StringPlug d d
       | BoolPlug d _ => BoolPlug d d
       | FloatPlug d _ => FloatPlug d d
       | IntPlug d _ => IntPlug d d
       | CompoundPlug => CompoundPlug
       end;
     plug_flags := plug_flags plug;
     plug_input := None;
     plug_metadata := plug_metadata plug |}.

Lemma plug_data_of_paths (ignore : list string) (node : Node)
    (item : list string * Plug * value) :
  In item (plug_data_of host ignore node) ->
  In (fst item) (node_plugs node) /\ getValue (snd (fst item)) = Ok (snd item).
Proof.
  unfold plug_data_of, get_all_plugs. rewrite in_flat_map.
  intros ([path plug] & Hentry & Hin).
  destruct (str_in _ ignore); [done |].
  destruct (negb (serialisable host plug)); [done |].
  destruct (getValue plug) as [v|] eqn:Hv; [| done].
  destruct Hin as [<- | []]. by split.
Qed.

(** The values of a node whose plugs are [pre], the plug at [path] and
    [post]. *)
Lemma plug_data_of_split (ignore : list string) (node : Node)
    (pre post : Plugs) (path : list string) (plug : Plug) (v : value) :
  node_plugs node = pre ++ (path, plug) :: post ->
  str_in (List.last path "") ignore = false ->
  serialisable host plug = true ->
  getValue plug = Ok v ->
  plug_data_of host ignore node
  = plug_data_of host ignore (node_with_plugs pre node)
    ++ (path, plug, v)
    :: plug_data_of host ignore (node_with_plugs post node).
Proof.
  intros Hplugs Hignore Hser Hv. unfold plug_data_of, get_all_plugs.
  rewrite Hplugs, flat_map_app. cbn [node_with_plugs node_plugs flat_map].
  by rewrite Hignore, Hser, Hv.
Qed.

Lemma find_node_filter_map (g : Node -> Node) (p : Node -> bool) (id : nat)
    (nodes : list Node) (node : Node) :
  (forall n, node_id (g n) = node_id n) ->
  find_node id nodes = Some node -> p node = true ->
  find_node id (map g (List.filter p nodes)) = Some (g node).
Proof.
  intros Hg. induction nodes as [|n nodes IH]; [done |].
  cbn [find_node List.filter]. destruct (Nat.eqb (node_id n) id) eqn:Hn.
  - intros [= ->] ->. cbn [map find_node]. by rewrite Hg, Hn.
  - intros Hfind Hp. destruct (p n); [| by apply IH].
    cbn [map find_node]. rewrite Hg, Hn. by apply IH.
Qed.

(** The new node after the rewiring, and its plugs after the call: they are
    what the loop over the values has made of them, without the inputs that
    came from the old node. *)
Lemma plug_at_replaced (script : ScriptNode) (old_id new_id : nat)
    (ignore_plug_names : list string) (old_node new_node : Node) :
  find_node old_id (script_nodes script) = Some old_node ->
  find_node new_id (script_nodes script) = Some new_node ->
  old_id <> new_id ->
  exists script' new1,
    replace_node host script old_id new_id ignore_plug_names = Ok script' /\
    find_node new_id
      (fold_left (rewire new_id)
         (get_node_connections host (script_nodes script) old_node)
         (script_nodes script)) = Some new1 /\
    map fst (node_plugs new1) = map fst (node_plugs new_node) /\
    forall q,
      plug_at (script_nodes script') (new_id, q)
      = LibSpec.cut_input old_id <$>
          find_plug q
            (fold_left (carry_value host)
               (plug_data_of host (ignore_plug_names ++ ["globals"]) old_node)
               (node_plugs new1)).
Proof.
  intros Hold Hnew Hne. unfold replace_node. rewrite Hold, Hnew.
  set (nodes1 := fold_left (rewire new_id) _ (script_nodes script)).
  assert (exists new1, find_node new_id nodes1 = Some new1 /\
                       map fst (node_plugs new1) = map fst (node_plugs new_node))
    as (new1 & Hnew1 & Hpaths).
  { pose proof (LibSpec.paths_of_apply_wirings
                  (LibSpec.all_wirings new_id (script_nodes script)
                     (get_node_connections host (script_nodes script) old_node))
                  (script_nodes script) new_id) as Hp.
    rewrite <- LibSpec.fold_rewire_wirings in Hp. fold nodes1 in Hp.
    unfold paths_of in Hp. rewrite Hnew in Hp.
    destruct (find_node new_id nodes1) as [new1|]; [| done].
    exists new1. split; [done |]. by injection Hp. }
  eexists _, new1. split; [reflexivity |]. split; [done |]. split; [done |].
  intros q. cbn [script_nodes with_nodes]. unfold plug_at. cbn [fst snd].
  rewrite LibSpec.find_node_setName.
  unfold removeChild, carry_values.
  erewrite find_node_filter_map; [| done | |].
  2: { erewrite find_node_map; [| intros n; by destruct (Nat.eqb _ _)].
       rewrite Hnew1. cbn [fmap option_fmap option_map].
       apply find_node_some in Hnew1 as [_ ->]. by rewrite Nat.eqb_refl. }
  2: { cbn [node_with_plugs node_id]. apply find_node_some in Hnew1 as [_ ->].
       apply negb_true_iff, Nat.eqb_neq. congruence. }
  cbn [fmap option_fmap option_map node_with_plugs node_id node_plugs].
  apply find_node_some in Hnew1 as [_ Hid1]. rewrite Hid1, Nat.eqb_refl.
  cbn [node_plugs]. by rewrite LibSpec.removeChild_cut, find_plug_map.
Qed.

(** The turns of the loop for the plugs before and after the plug at
    [path] leave the plug at [path] alone. *)
Lemma carry_others (ignore : list string) (old_node : Node) (part : Plugs)
    (path : list string) (item : list string * Plug * value) :
  (forall q p, In (q, p) (node_plugs old_node) -> q <> []) ->
  (forall e, In e part -> In e (node_plugs old_node) /\ fst e <> path) ->
  In item (plug_data_of host ignore (node_with_plugs part old_node)) ->
  fst (fst item) <> [] /\ fst (fst item) <> path.
Proof.
  intros Hpaths Hpart [Hin _]%plug_data_of_paths.
  cbn [node_with_plugs node_plugs] in Hin.
  destruct (Hpart _ Hin) as [Hin' Hq]. destruct item as [[q p] x].
  cbn [fst] in *. split; [by eapply Hpaths | done].
Qed.

(** X20.  A plug of the old node that holds a value, is serialisable, is
    not ignored and has no counterpart on the new node is made on the new
    node by [copy_plug]: after [replace_node] the new node has a plug of that
    name with the flags, the metadata and the default value of the old plug
    and no input.  Its value is the default value: the value that the old
    plug held is not carried over. *)
Theorem replace_node_copies_default (script : ScriptNode) (old_id new_id : nat)
    (ignore_plug_names : list string) (old_node new_node : Node)
    (name : string) (plug : Plug) (v : value) :
  find_node old_id (script_nodes script) = Some old_node ->
  find_node new_id (script_nodes script) = Some new_node ->
  old_id <> new_id ->
  NoDup (map fst (node_plugs old_node)) ->
  (forall path p, In (path, p) (node_plugs old_node) -> path <> []) ->
  In ([name], plug) (node_plugs old_node) ->
  str_in name (ignore_plug_names ++ ["globals"]) = false ->
  serialisable host plug = true ->
  getValue plug = Ok v ->
  has_plug [name] (node_plugs new_node) = false ->
  exists script' created,
    replace_node host script old_id new_id ignore_plug_names = Ok script' /\
    plug_at (script_nodes script') (new_id, [name]) = Some created /\
    getValue created = defaultValue plug /\
    plug_flags created = plug_flags plug /\
    plug_metadata created = plug_metadata plug /\
    plug_input created = None.
Proof.
  intros Hold Hnew Hne Hnodup Hpaths Hplug Hignore Hser Hv Hmissing.
  destruct (plug_at_replaced script old_id new_id ignore_plug_names
              old_node new_node Hold Hnew Hne)
    as (script' & new1 & Hrun & _ & Hsame & Hat).
  exists script', (copy_of plug). split; [done |]. split.
  2: { unfold getValue in Hv |- *. unfold defaultValue, copy_of.
       cbn [plug_data plug_flags plug_input plug_metadata].
       split; [by destruct (plug_data plug) | done]. }
  rewrite Hat.
  set (ignore := ignore_plug_names ++ ["globals"]) in *.
  assert (has_plug [name] (node_plugs new1) = false) as Hmissing1
    by (by rewrite (has_plug_paths [name] _ (node_plugs new_node))).
  apply in_split in Hplug as (pre & post & Hsplit).
  rewrite Hsplit, map_app in Hnodup. cbn [map fst] in Hnodup.
  apply NoDup_app in Hnodup as (_ & Hpre & [Hpost _]%NoDup_cons).
  rewrite (plug_data_of_split ignore old_node pre post [name] plug v) by done.
  rewrite fold_left_app. cbn [fold_left].
  rewrite find_carry_values_other.
  - set (plugs := fold_left (carry_value host) _ (node_plugs new1)).
    assert (find_plug [name] plugs = None) as Hnone.
    { unfold plugs. rewrite find_carry_values_other.
      - unfold has_plug in Hmissing1.
        by destruct (find_plug [name] (node_plugs new1)).
      - intros item Hitem.
        apply (carry_others ignore old_node pre [name] item); [done | | done].
        intros e He. split.
        + rewrite Hsplit. apply in_app_iff. by left.
        + intros Heq. apply (Hpre [name]).
          * apply list_elem_of_In, in_map_iff. by exists e.
          * left. }
    unfold carry_value, descendant. cbn [fold_left app].
    unfold has_plug. rewrite Hnone. unfold copy_plug.
    cbn [removelast length seq forallb List.last].
    by rewrite find_add, path_eqb_refl.
  - intros item Hitem.
    apply (carry_others ignore old_node post [name] item); [done | | done].
    intros e He. split.
    + rewrite Hsplit. apply in_app_iff. right. by right.
    + intros Heq. apply Hpost. apply list_elem_of_In, in_map_iff. by exists e.
Qed.

(** *** A plug that the new node has *)






End WithHost.

Lemma get_node_connections_outside_witness :
  In ("in", {| plug_in := [(1, ["out"])]; plug_out := [] |})
     (get_node_connections Reference.host (script_nodes Reference.graph)
                           LibSpec.graph_old) /\
  forall p, In p [(1, ["out"])] -> fst p <> 2.
Proof.
  split; [vm_compute; by left |].
  destruct (get_node_connections_outside Reference.host
              (script_nodes Reference.graph) LibSpec.graph_old "in"
              {| plug_in := [(1, ["out"])]; plug_out := [] |})
    as (_ & _ & Houtside & _); [vm_compute; by left |].
  intros p Hp. apply (Houtside p). cbn [plug_in plug_out app]. exact Hp.
Defined.

(** A reader that is replaced by a node without a plug [fileName]. *)
Definition old_fileName : Plug :=
  {| plug_data := StringPlug "" "/proj/model_v001.abc"; plug_flags := 23;
     plug_input := None; plug_metadata := [("nodule:type", "")] |}.

Definition old_reader : Node :=
  {| node_id := 2; node_name := "old";
     node_plugs := [(["fileName"], old_fileName);
                    (["out"], Reference.plug_of CompoundPlug None)] |}.

Definition bare_reader : Node :=
  {| node_id := 3; node_name := "new";
     node_plugs := [(["out"], Reference.plug_of CompoundPlug None)] |}.

Definition readers : ScriptNode :=
  {| script_fullName := "ScriptNode"; script_plugs := [];
     script_nodes := [old_reader; bare_reader] |}.

Lemma replace_node_copies_default_witness :
  exists script' created,
    replace_node Reference.host readers 2 3 [] = Ok script' /\
    plug_at (script_nodes script') (3, ["fileName"]) = Some created /\
    getValue created = Ok (PyStr "") /\
    plug_flags created = 23%Z /\
    plug_metadata created = [("nodule:type", "")] /\
    plug_input created = None.
Proof.
  apply (replace_node_copies_default Reference.host readers 2 3 []
           old_reader bare_reader "fileName" old_fileName
           (PyStr "/proj/model_v001.abc")).
  - reflexivity.
  - reflexivity.
  - lia.
  - apply NoDup_ListNoDup. cbn.
    repeat (constructor; [cbn; intuition discriminate |]). constructor.
  - intros path p [[= <- <-] | [[= <- <-] | []]]; done.
  - by left.
  - reflexivity.
  - reflexivity.
  - reflexivity.
  - reflexivity.
Defined.





End ConnectionsSpec.

(** * The groups of a box, [api/lib.py] *)

Module LibGroups.
Import Py Gaffer.

(** A box: the node object itself, with its plugs, and the nodes that are
    its children. *)
Record Box : Type :=
  { box_node : Node;
    box_nodes : list Node }.

Definition with_plugs (plugs : Plugs) (parent : Box) : Box :=
  {| box_node := node_with_plugs plugs (box_node parent);
     box_nodes := box_nodes parent |}.

(** [Gaffer.Metadata.registerValue(plug, key, value)], for a key that the
    plug does not have. *)
Definition registerValue (key value : string) (plug : Plug) : Plug :=
  {| plug_data := plug_data plug; plug_flags := plug_flags plug;
     plug_input := plug_input plug;
     plug_metadata := plug_metadata plug ++ [(key, value)] |}.

Section WithHost.
Variable host : Host.

(** [GafferScene.Group(name)]: the node object that the call returns in the
    turn [idx] of the loop. *)
Variable Group : nat -> string -> Node.

(** The name that [parent.addChild(child)] leaves a child with, given the
    names of the children that the parent has. *)
Variable unique_name : list string -> string -> string.

(** The names of the children of a box: of its plugs and of its nodes. *)
Definition child_names (parent : Box) : list string :=
  map (fun entry => List.last (fst entry) "")
      (LibContext.children [] (node_plugs (box_node parent)))
  ++ map node_name (box_nodes parent).

(** The label of the plug of the turn [idx]. *)
Definition plug_label (sub_groups : list string) (idx : nat) (grp : string)
    : string :=
  let subs := join "/" (firstn idx sub_groups) in
  let subs := if negb (String.eqb subs "") then "/" +:+ subs else subs in
  "Enable " +:+ subs +:+ "/" +:+ grp.

(** One turn of the loop of [create_sub_groups]: the box comes back as the
    turn has left it, with the group node or the exception.  What the turn
    prints is left out. *)
Definition sub_group (sub_groups : list string) (idx : nat) (grp : string)
    (parent : Box) : Box * result Node :=
  let plug_label := plug_label sub_groups idx grp in
  let plug_name := replace_char "/" "_" (replace_char " " "_" plug_label) in
  let plug :=
    {| plug_data := BoolPlug true true;
       plug_flags := Z.lor (Flags_Default host) (Flags_Dynamic host);
       plug_input := None; plug_metadata := [] |} in
  (* parent.addChild(plug) *)
  let plug_name := unique_name (child_names parent) plug_name in
  let plugs := add_plug [] plug_name plug (node_plugs (box_node parent)) in
  let plug := registerValue "nodule:type" "" plug in
  let plug := registerValue "label" plug_label plug in
  let parent := with_plugs (store_plug [plug_name] plug plugs) parent in
  let group_node := Group idx ("Group_" +:+ grp) in
  match name ← getitem_plug [] "name" (node_plugs group_node);
        setValue host name (PyStr grp) with
  | Raise e => (parent, Raise e)
  | Ok name =>
      let group_node :=
        node_with_plugs (store_plug ["name"] name (node_plugs group_node))
                        group_node in
      match getitem_plug [] "enabled" (node_plugs group_node) with
      | Raise e => (parent, Raise e)
      | Ok enabled =>
          let enabled :=
            plug_with_input (Some (node_id (box_node parent), [plug_name]))
                            enabled in
          let group_node :=
            node_with_plugs
              (store_plug ["enabled"] enabled (node_plugs group_node))
              group_node in
          (* parent.addChild(group_node): the list holds the same object *)
          let group_node :=
            {| node_id := node_id group_node;
               node_name :=
                 unique_name (child_names parent) (node_name group_node);
               node_plugs := node_plugs group_node |} in
          ({| box_node := box_node parent;
              box_nodes := box_nodes parent ++ [group_node] |},
           Ok group_node)
      end
  end.

(** The loop over [enumerate(sub_groups)], from the turn [idx] on. *)
Fixpoint sub_groups_loop (sub_groups : list string) (idx : nat)
    (rest : list string) (parent : Box) (group_nodes : list Node)
    : Box * result (list Node) :=
  match rest with
  | [] => (parent, Ok group_nodes)
  | grp :: rest =>
      match sub_group sub_groups idx grp parent with
      | (parent, Ok group_node) =>
          sub_groups_loop sub_groups (S idx) rest parent
                          (group_nodes ++ [group_node])
      | (parent, Raise e) => (parent, Raise e)
      end
  end.

(** [create_sub_groups(parent, sub_groups)] *)
Definition create_sub_groups (parent : Box) (sub_groups : list string)
    : Box * result (list Node) :=
  sub_groups_loop sub_groups 0 sub_groups parent [].

End WithHost.

End LibGroups.

Module LibGroupsSpec.
Import Py Gaffer Lib PyFacts GafferFacts LibGroups.

(** The label that the documentation gives: the names of the groups down to
    the group of the turn, each behind a slash. *)
Definition path_label (sub_groups : list string) (idx : nat) : string :=
  "Enable /" +:+ join "/" (firstn (S idx) sub_groups).

Lemma join_head_nonempty (x : string) (items : list string) :
  x <> "" -> join "/" (x :: items) <> "".
Proof.
  intros Hx. destruct items as [|y items]; [done |].
  rewrite join_cons by done. destruct x; [done |]. by rewrite append_cons.
Qed.

Lemma firstn_snoc (items : list string) (idx : nat) (x : string) :
  nth_error items idx = Some x ->
  firstn (S idx) items = firstn idx items ++ [x].
Proof.
  revert idx. induction items as [|y items IH]; intros [|idx] Hx; try done.
  - by injection Hx as ->.
  - cbn [firstn app]. f_equal. by apply IH.
Qed.

(** The label of a turn is the documented one as long as the first name is
    not empty. *)
Lemma plug_label_path (sub_groups : list string) (idx : nat) (grp : string) :
  (forall first, head sub_groups = Some first -> first <> "") ->
  nth_error sub_groups idx = Some grp ->
  plug_label sub_groups idx grp = path_label sub_groups idx.
Proof.
  intros Hfirst Hgrp. unfold plug_label, path_label.
  rewrite (firstn_snoc sub_groups idx grp Hgrp).
  destruct idx as [|idx].
  - cbn [firstn app join String.eqb negb]. by rewrite !append_cons, !append_nil_l.
  - destruct sub_groups as [|first rest]; [done |]. cbn [firstn].
    pose proof (join_head_nonempty first (firstn idx rest)
                  (Hfirst first eq_refl)) as Hne.
    apply String.eqb_neq in Hne. rewrite Hne. cbn [negb].
    rewrite join_snoc by done.
    by rewrite !append_cons, !append_nil_l.
Qed.

Section WithHost.
Variable host : Host.
Variable Group : nat -> string -> Node.
Variable unique_name : list string -> string -> string.

(** The host gives a child a name that no other child of the parent has. *)
Definition fresh_names : Prop :=
  forall names wanted, ~ In (unique_name names wanted) names.

Lemma find_child_name (parent : Box) (name : string) (plug : Plug) :
  find_plug [name] (node_plugs (box_node parent)) = Some plug ->
  In name (child_names parent).
Proof.
  intros Hin%find_plug_some. unfold child_names. apply in_app_iff. left.
  apply in_map_iff. exists ([name], plug). split; [done |].
  apply filter_In. by split.
Qed.

(** What a turn of the loop that returns has done. *)
Lemma sub_group_spec (sub_groups : list string) (idx : nat) (grp : string)
    (parent parent' : Box) (node : Node) :
  fresh_names ->
  sub_group host Group unique_name sub_groups idx grp parent
  = (parent', Ok node) ->
  node_id (box_node parent') = node_id (box_node parent) /\
  box_nodes parent' = box_nodes parent ++ [node] /\
  (forall q plug,
     find_plug q (node_plugs (box_node parent)) = Some plug ->
     find_plug q (node_plugs (box_node parent')) = Some plug) /\
  exists name enabled,
    find_plug ["enabled"] (node_plugs node) = Some enabled /\
    plug_input enabled = Some (node_id (box_node parent), [name]) /\
    find_plug [name] (node_plugs (box_node parent'))
    = Some {| plug_data := BoolPlug true true;
              plug_flags := Z.lor (Flags_Default host) (Flags_Dynamic host);
              plug_input := None;
              plug_metadata :=
                [("nodule:type", "");
                 ("label", plug_label sub_groups idx grp)] |}.
Proof.
  intros Hfresh. unfold sub_group.
  set (name := unique_name (child_names parent) _).
  set (plug := {| plug_data := BoolPlug true true |}).
  set (plugs := add_plug [] name plug _).
  set (group_node := Group idx _).
  assert (find_plug [name] (node_plugs (box_node parent)) = None) as Hnone.
  { destruct (find_plug [name] _) as [old|] eqn:Hold; [| done].
    apply find_child_name in Hold. by apply Hfresh in Hold. }
  destruct (getitem_plug [] "name" (node_plugs group_node)) as [name_plug|];
    [| done].
  cbn [mbind result_bind].
  destruct (setValue host name_plug (PyStr grp)) as [name_plug'|]; [| done].
  destruct (getitem_plug [] "enabled" _) as [enabled|] eqn:Henabled; [| done].
  intros [= <- <-]. cbn [box_node box_nodes with_plugs node_with_plugs
                         node_id node_plugs].
  split; [done |]. split; [done |]. split.
  - intros q old Hold. rewrite find_store_other.
    + unfold plugs. by rewrite find_add_any, Hold.
    + intros ->. congruence.
  - eexists name, _. split.
    + apply find_store_same. unfold getitem_plug in Henabled. cbn [app] in Henabled.
      unfold has_plug.
      by destruct (find_plug ["enabled"] _).
    + split; [done |]. apply find_store_same. unfold has_plug, plugs.
      rewrite find_add_any, Hnone. cbn [app]. by rewrite path_eqb_refl.
Qed.

(** The loop, from the turn [idx] on. *)
Lemma sub_groups_loop_spec (sub_groups rest : list string) :
  fresh_names ->
  forall (idx : nat) (parent parent' : Box) (acc groups : list Node),
    sub_groups_loop host Group unique_name sub_groups idx rest parent acc
    = (parent', Ok groups) ->
    exists made,
      groups = acc ++ made /\
      length made = length rest /\
      node_id (box_node parent') = node_id (box_node parent) /\
      box_nodes parent' = box_nodes parent ++ made /\
      (forall q plug,
         find_plug q (node_plugs (box_node parent)) = Some plug ->
         find_plug q (node_plugs (box_node parent')) = Some plug) /\
      forall i grp,
        nth_error rest i = Some grp ->
        exists node name enabled,
          nth_error made i = Some node /\
          find_plug ["enabled"] (node_plugs node) = Some enabled /\
          plug_input enabled = Some (node_id (box_node parent), [name]) /\
          find_plug [name] (node_plugs (box_node parent'))
          = Some {| plug_data := BoolPlug true true;
                    plug_flags :=
                      Z.lor (Flags_Default host) (Flags_Dynamic host);
                    plug_input := None;
                    plug_metadata :=
                      [("nodule:type", "");
                       ("label", plug_label sub_groups (idx + i) grp)] |}.
Proof.
  intros Hfresh. induction rest as [|grp rest IH];
    intros idx parent parent' acc groups.
  - intros [= <- <-]. exists []. rewrite !app_nil_r.
    do 5 (split; [done |]). by intros [|i] grp.
  - cbn [sub_groups_loop].
    destruct (sub_group host Group unique_name sub_groups idx grp parent)
      as [parent1 [node|]] eqn:Hturn; [| done].
    intros Hloop.
    apply (sub_group_spec _ _ _ _ _ _ Hfresh) in Hturn
      as (Hid1 & Hnodes1 & Hkeep1 & name & enabled & Hen & Hinput & Hplug).
    apply IH in Hloop
      as (made & -> & Hlen & Hid & Hnodes & Hkeep & Heach).
    exists (node :: made). rewrite <- app_assoc. split; [done |].
    split; [cbn; lia |]. split; [congruence |].
    split; [by rewrite Hnodes, Hnodes1, <- app_assoc |].
    split; [intros q plug Hq; by apply Hkeep, Hkeep1 |].
    intros [|i] grp' Hgrp.
    + injection Hgrp as <-. exists node, name, enabled. rewrite Nat.add_0_r.
      do 3 (split; [done |]). by apply Hkeep.
    + destruct (Heach i grp' Hgrp) as (n & nm & en & Hn & Hen' & Hin' & Hp').
      exists n, nm, en. rewrite Hid1 in Hin'.
      replace (idx + S i) with (S idx + i) by lia. by repeat split.
Qed.

(** X22.  [create_sub_groups] makes one group node for every name, in the
    order of the names, as the last children of the box, and keeps the plugs
    that the box had.  As long as the first name is not empty, the switch of
    each group is labelled as documented, with the names of the groups down
    to its own, each behind a slash: the group takes its [enabled] plug from
    a new plug of the box that is a [BoolPlug] with the default [True] and
    that label.  The host is taken to give every new child a name that no
    child of the box has. *)
Theorem create_sub_groups_labels (parent parent' : Box)
    (sub_groups : list string) (group_nodes : list Node) :
  fresh_names ->
  (forall first, head sub_groups = Some first -> first <> "") ->
  create_sub_groups host Group unique_name parent sub_groups
  = (parent', Ok group_nodes) ->
  length group_nodes = length sub_groups /\
  box_nodes parent' = box_nodes parent ++ group_nodes /\
  (forall q plug,
     find_plug q (node_plugs (box_node parent)) = Some plug ->
     find_plug q (node_plugs (box_node parent')) = Some plug) /\
  forall idx grp,
    nth_error sub_groups idx = Some grp ->
    exists node name enabled switch,
      nth_error group_nodes idx = Some node /\
      find_plug ["enabled"] (node_plugs node) = Some enabled /\
      plug_input enabled = Some (node_id (box_node parent'), [name]) /\
      find_plug [name] (node_plugs (box_node parent')) = Some switch /\
      getValue switch = Ok (PyBool true) /\
      plug_input switch = None /\
      plug_metadata switch
      = [("nodule:type", ""); ("label", path_label sub_groups idx)].
Proof.
  intros Hfresh Hfirst Hrun. unfold create_sub_groups in Hrun.
  apply (sub_groups_loop_spec _ _ Hfresh) in Hrun
    as (made & -> & Hlen & Hid & Hnodes & Hkeep & Heach).
  cbn [app]. split; [done |]. split; [done |]. split; [done |].
  intros idx grp Hgrp.
  destruct (Heach idx grp Hgrp) as (node & name & enabled & Hn & Hen & Hin & Hp).
  exists node, name, enabled. eexists. split; [done |]. split; [done |].
  split; [by rewrite Hid |]. split; [exact Hp |].
  cbn [getValue plug_data plug_input plug_metadata Nat.add].
  by rewrite (plug_label_path sub_groups idx grp Hfirst Hgrp).
Qed.

End WithHost.

(** A host that puts ones behind a name that is taken, more than the names
    of the children have characters. *)
Definition ref_unique_name (names : list string) (wanted : string) : string :=
  if str_in wanted names
  then wanted +:+ string_of_list_ascii
                    (repeat "1"%char (S (sum_of String.length names)))
  else wanted.

Lemma ref_unique_name_fresh : fresh_names ref_unique_name.
Proof.
  intros names wanted. unfold ref_unique_name.
  destruct (str_in wanted names) eqn:Hin.
  - intros Hname.
    assert (forall name, In name names ->
              String.length name <= sum_of String.length names) as Hlen.
    { clear. induction names as [|n names IH]; [done |].
      intros name [-> | Hin]; cbn [sum_of]; [lia |].
      specialize (IH name Hin). lia. }
    apply Hlen in Hname. rewrite ReferenceFacts.length_append in Hname.
    assert (forall n, String.length (string_of_list_ascii (repeat "1"%char n))
                      = n) as Hones.
    { clear. induction n as [|n IH]; [done |]. cbn. by rewrite IH. }
    rewrite Hones in Hname. lia.
  - intros Hname. unfold str_in in Hin.
    assert (existsb (String.eqb wanted) names = true) as Htrue; [| congruence].
    apply existsb_exists. exists wanted. split; [done |]. apply String.eqb_refl.
Qed.

(** The group node that the host makes in the turn [idx]. *)
Definition ref_Group (idx : nat) (name : string) : Node :=
  {| node_id := 10 + idx; node_name := name;
     node_plugs :=
       [(["enabled"], Reference.plug_of (BoolPlug true true) None);
        (["name"], Reference.plug_of (StringPlug "group" "group") None);
        (["in"], Reference.plug_of CompoundPlug None);
        (["out"], Reference.plug_of CompoundPlug None)] |}.

Definition load_box : Box :=
  {| box_node :=
       {| node_id := 1; node_name := "scene_load_box";
          node_plugs :=
            [(["user"], Reference.plug_of CompoundPlug None);
             (["out"], Reference.plug_of CompoundPlug None);
             (["fileName"], Reference.plug_of (StringPlug "" "") None)] |};
     box_nodes := [] |}.

Definition grouped : Box * result (list Node) :=
  create_sub_groups Reference.host ref_Group ref_unique_name load_box
                    ["geo"; "char"].

Definition grouped_nodes : list Node :=
  match snd grouped with
  | Ok group_nodes => group_nodes
  | Raise _ => []
  end.

Lemma create_sub_groups_labels_witness :
  length grouped_nodes = 2 /\
  box_nodes (fst grouped) = grouped_nodes /\
  (forall q plug,
     find_plug q (node_plugs (box_node load_box)) = Some plug ->
     find_plug q (node_plugs (box_node (fst grouped))) = Some plug) /\
  forall idx grp,
    nth_error ["geo"; "char"] idx = Some grp ->
    exists node name enabled switch,
      nth_error grouped_nodes idx = Some node /\
      find_plug ["enabled"] (node_plugs node) = Some enabled /\
      plug_input enabled = Some (1, [name]) /\
      find_plug [name] (node_plugs (box_node (fst grouped))) = Some switch /\
      getValue switch = Ok (PyBool true) /\
      plug_input switch = None /\
      plug_metadata switch
      = [("nodule:type", ""); ("label", path_label ["geo"; "char"] idx)].
Proof.
  apply (create_sub_groups_labels Reference.host ref_Group ref_unique_name
           load_box (fst grouped) ["geo"; "char"] grouped_nodes).
  - exact ref_unique_name_fresh.
  - by intros first [= <-].
  - vm_compute. reflexivity.
Defined.

(** The two switches of that box. *)
Example create_sub_groups_geo_char :
  map (fun entry => (fst entry, plug_metadata (snd entry)))
      (node_plugs (box_node (fst grouped)))
  = [(["user"], []); (["out"], []); (["fileName"], []);
     (["Enable__geo"], [("nodule:type", ""); ("label", "Enable /geo")]);
     (["Enable__geo_char"],
      [("nodule:type", ""); ("label", "Enable /geo/char")])].
Proof. vm_compute. reflexivity. Qed.

End LibGroupsSpec.

(** * The plugs below a node, [api/lib.py] *)

Module LibPlugs.
Import Py Gaffer Lib.

(** A plug with the plugs that are its children, [plug.children(Gaffer.Plug)]
    in order; every plug stands with its path below the node. *)
Inductive PlugNode : Type :=
| PNode (path : list string) (plug : Plug) (children : list PlugNode).

Definition children_of (p : PlugNode) : list PlugNode :=
  match p with PNode _ _ children => children end.

(** The dict of [get_plug_tree]: the plugs in the order in which they were
    put in, each with the dict of its children. *)
Inductive PlugDict : Type :=
| PDict (items : list (list string * Plug * PlugDict)).

Section WithHost.
Variable host : Host.

(** One turn of the loop of [get_all_plugs], for the child [plug]: with the
    plug come the plugs below it. *)
Fixpoint get_all_plugs_turn (include_non_serializable : bool)
    (plug : PlugNode) (thelist : Plugs) : Plugs :=
  match plug with
  | PNode path p children =>
      if negb include_non_serializable && negb (serialisable host p)
      then thelist
      else
        let thelist := thelist ++ [(path, p)] in
        if (0 <? length children)%nat
        then fold_left
               (fun thelist child =>
                  get_all_plugs_turn include_non_serializable child thelist)
               children thelist
        else thelist
  end.

(** [get_all_plugs(in_node, thelist, include_non_serializable)], for the
    children of [in_node]: [thelist] is the list that the calls append to. *)
Definition get_all_plugs (in_node : list PlugNode) (thelist : Plugs)
    (include_non_serializable : bool) : Plugs :=
  fold_left
    (fun thelist plug =>
       get_all_plugs_turn include_non_serializable plug thelist)
    in_node thelist.

(** One turn of the loop of [plug_traversal].  The children of a plug are
    objects of their own and each is met once, so a plug is never among the
    keys when its turn comes. *)
Fixpoint plug_traversal_turn (include_non_serializable : bool)
    (plug : PlugNode) (plug_dict : list (list string * Plug * PlugDict))
    : list (list string * Plug * PlugDict) :=
  match plug with
  | PNode path p children =>
      if negb include_non_serializable && negb (serialisable host p)
      then plug_dict
      else
        plug_dict
        ++ [(path, p,
             PDict (if (0 <? length children)%nat
                    then fold_left
                           (fun plug_dict child =>
                              plug_traversal_turn include_non_serializable
                                                  child plug_dict)
                           children []
                    else []))]
  end.

(** [get_plug_tree(in_node, include_non_serializable)] *)
Definition get_plug_tree (in_node : list PlugNode)
    (include_non_serializable : bool) : PlugDict :=
  PDict (fold_left
           (fun plug_dict plug =>
              plug_traversal_turn include_non_serializable plug plug_dict)
           in_node []).

End WithHost.

(** The keys of a dict and of the dicts in it, each key before the keys of
    its own dict. *)
Fixpoint keys (d : PlugDict) : Plugs :=
  match d with
  | PDict items =>
      flat_map (fun item => (fst (fst item), snd (fst item)) :: keys (snd item))
               items
  end.

End LibPlugs.

Module LibPlugsSpec.
Import Py Gaffer Lib LibPlugs.

(** An induction over plugs that reaches the children. *)
Fixpoint PlugNode_nested_ind (P : PlugNode -> Prop)
    (H : forall path plug children,
           All P children -> P (PNode path plug children))
    (p : PlugNode) : P p :=
  match p with
  | PNode path plug children =>
      H path plug children
        ((fix go (l : list PlugNode) : All P l :=
            match l with
            | [] => I
            | c :: l' => conj (PlugNode_nested_ind P H c) (go l')
            end) children)
  end.

Section WithHost.
Variable host : Host.

(** What a turn adds to the list. *)
Definition listed (include_non_serializable : bool) (in_node : list PlugNode)
    : Plugs :=
  get_all_plugs host in_node [] include_non_serializable.

Lemma fold_turns_appends (include : bool) (children : list PlugNode) :
  All (fun child => forall thelist,
         get_all_plugs_turn host include child thelist
         = thelist ++ get_all_plugs_turn host include child []) children ->
  forall thelist,
    fold_left (fun thelist child =>
                 get_all_plugs_turn host include child thelist)
              children thelist
    = thelist ++ flat_map (fun child =>
                             get_all_plugs_turn host include child [])
                          children.
Proof.
  induction children as [|c children IH]; intros Hall thelist.
  - cbn. by rewrite app_nil_r.
  - destruct Hall as [Hc Hchildren]. cbn [fold_left flat_map].
    by rewrite IH, Hc, <- app_assoc.
Qed.

Lemma get_all_plugs_turn_appends (include : bool) (plug : PlugNode) :
  forall thelist,
    get_all_plugs_turn host include plug thelist
    = thelist ++ get_all_plugs_turn host include plug [].
Proof.
  induction plug as [path p children IH] using PlugNode_nested_ind.
  intros thelist. cbn [get_all_plugs_turn].
  destruct (negb include && negb (serialisable host p));
    [by rewrite app_nil_r |].
  destruct (0 <? length children)%nat.
  - rewrite (fold_turns_appends include children IH (thelist ++ [(path, p)])).
    rewrite (fold_turns_appends include children IH ([] ++ [(path, p)])).
    by rewrite <- !app_assoc.
  - done.
Qed.

Lemma get_all_plugs_flat_map (include : bool) (in_node : list PlugNode)
    (thelist : Plugs) :
  get_all_plugs host in_node thelist include
  = thelist ++ flat_map (fun plug => get_all_plugs_turn host include plug [])
                        in_node.
Proof.
  unfold get_all_plugs. apply fold_turns_appends.
  induction in_node as [|c rest IH]; [done |].
  split; [apply get_all_plugs_turn_appends | exact IH].
Qed.

(** What the turn of one plug lists. *)
Lemma get_all_plugs_turn_listed (include : bool) (path : list string)
    (p : Plug) (children : list PlugNode) :
  get_all_plugs_turn host include (PNode path p children) []
  = if negb include && negb (serialisable host p) then []
    else (path, p) :: listed include children.
Proof.
  cbn [get_all_plugs_turn].
  destruct (negb include && negb (serialisable host p)); [done |].
  unfold listed. rewrite get_all_plugs_flat_map. cbn [app].
  destruct children as [|c children]; [done |].
  change (0 <? length (c :: children))%nat with true. cbn match.
  fold (get_all_plugs host (c :: children) [(path, p)] include).
  by rewrite get_all_plugs_flat_map.
Qed.

Lemma listed_app (include : bool) (a b : list PlugNode) :
  listed include (a ++ b) = listed include a ++ listed include b.
Proof.
  unfold listed. rewrite !get_all_plugs_flat_map. cbn [app].
  apply flat_map_app.
Qed.

(** The keys of the dict of a turn are what the turn lists. *)
Lemma keys_turns (include : bool) (children : list PlugNode) :
  All (fun child => forall plug_dict,
         plug_traversal_turn host include child plug_dict
         = plug_dict ++ plug_traversal_turn host include child [] /\
         keys (PDict (plug_traversal_turn host include child []))
         = get_all_plugs_turn host include child []) children ->
  forall plug_dict,
    fold_left (fun plug_dict child =>
                 plug_traversal_turn host include child plug_dict)
              children plug_dict
    = plug_dict ++ flat_map (fun child =>
                               plug_traversal_turn host include child [])
                            children /\
    keys (PDict (flat_map (fun child =>
                             plug_traversal_turn host include child [])
                          children))
    = flat_map (fun child => get_all_plugs_turn host include child [])
               children.
Proof.
  induction children as [|c children IH]; intros Hall plug_dict.
  - cbn. by rewrite app_nil_r.
  - destruct Hall as [Hc Hchildren]. cbn [fold_left flat_map].
    destruct (IH Hchildren (plug_traversal_turn host include c plug_dict))
      as [-> Hkeys].
    destruct (Hc plug_dict) as [-> _]. destruct (Hc []) as [_ Hkc].
    split; [by rewrite <- app_assoc |].
    cbn [keys] in *. by rewrite flat_map_app, Hkeys, Hkc.
Qed.

Lemma plug_traversal_turn_keys (include : bool) (plug : PlugNode) :
  forall plug_dict,
    plug_traversal_turn host include plug plug_dict
    = plug_dict ++ plug_traversal_turn host include plug [] /\
    keys (PDict (plug_traversal_turn host include plug []))
    = get_all_plugs_turn host include plug [].
Proof.
  induction plug as [path p children IH] using PlugNode_nested_ind.
  intros plug_dict. cbn [plug_traversal_turn get_all_plugs_turn].
  destruct (negb include && negb (serialisable host p));
    [by rewrite app_nil_r |].
  split; [done |]. cbn [app keys flat_map fst snd]. rewrite app_nil_r.
  destruct children as [|c children]; [done |].
  change (0 <? length (c :: children))%nat with true. cbn match.
  destruct (keys_turns include (c :: children) IH []) as [-> Hkeys].
  rewrite (fold_turns_appends include (c :: children)).
  - cbn [app]. cbn [keys] in Hkeys. by rewrite Hkeys.
  - clear. induction (c :: children) as [|x l IHl]; [done |].
    split; [apply get_all_plugs_turn_appends | exact IHl].
Qed.

(** X23.  [get_all_plugs] only appends to the list it is given, and what
    it appends is the walk over the plugs, each plug before the plugs below
    it.  With the non-serialisable plugs left out, such a plug is left out
    together with everything below it, serialisable or not; every other plug
    is listed with what the walk lists below it.  The keys of the dict of
    [get_plug_tree], each before the keys of its own dict, are the plugs that
    [get_all_plugs] lists. *)
Theorem get_all_plugs_prunes (include_non_serializable : bool)
    (in_node : list PlugNode) :
  (forall thelist,
     get_all_plugs host in_node thelist include_non_serializable
     = thelist ++ listed include_non_serializable in_node) /\
  (forall before after path plug below,
     listed include_non_serializable
            (before ++ PNode path plug below :: after)
     = listed include_non_serializable before
       ++ (if negb include_non_serializable && negb (serialisable host plug)
           then []
           else (path, plug) :: listed include_non_serializable below)
       ++ listed include_non_serializable after) /\
  keys (get_plug_tree host in_node include_non_serializable)
  = listed include_non_serializable in_node.
Proof.
  split; [| split].
  - intros thelist. unfold listed. by rewrite !get_all_plugs_flat_map.
  - intros before after path plug below.
    rewrite listed_app.
    change (PNode path plug below :: after)
      with ([PNode path plug below] ++ after).
    rewrite listed_app. f_equal. f_equal.
    unfold listed at 1. rewrite get_all_plugs_flat_map.
    cbn [app flat_map]. rewrite app_nil_r.
    apply get_all_plugs_turn_listed.
  - unfold get_plug_tree, listed. rewrite get_all_plugs_flat_map. cbn [app].
    assert (All (fun child => forall plug_dict,
                   plug_traversal_turn host include_non_serializable child
                                       plug_dict
                   = plug_dict
                     ++ plug_traversal_turn host include_non_serializable
                                            child [] /\
                   keys (PDict (plug_traversal_turn host
                                  include_non_serializable child []))
                   = get_all_plugs_turn host include_non_serializable child [])
                in_node) as Hall.
    { induction in_node as [|c rest IH]; [done |].
      split; [apply plug_traversal_turn_keys | exact IH]. }
    destruct (keys_turns include_non_serializable in_node Hall []) as [-> Hk].
    exact Hk.
Qed.

End WithHost.

End LibPlugsSpec.

(** * The name of a node from a template, [api/lib.py] *)

Module LibTemplate.
Import Py Gaffer Loader.

(** [items.pop(0)] and [items.pop(-1)], for what is left of the list. *)
Definition pop_first (items : list string) : outcome (list string) :=
  match items with
  | [] => Fail (IndexError "pop from empty list")
  | _ :: rest => Done rest
  end.

Definition pop_last (items : list string) : outcome (list string) :=
  match items with
  | [] => Fail (IndexError "pop from empty list")
  | _ :: _ => Done (removelast items)
  end.

(** What [from ayon_core.pipeline.template_data import
    construct_folder_full_name] ends in: the function; or
    [ModuleNotFoundError], when there is no such module, which the function
    catches; or another exception, which it does not catch, such as the
    [ImportError] of a module that has no such name. *)
Inductive import_outcome : Type :=
| Imported (construct_folder_full_name :
              value -> value -> list string -> result value)
| ModuleNotFound
| ImportFails (e : error).

Section WithHost.

(** The outcome of the import in the call. *)
Variable import_construct_folder_full_name : import_outcome.

(** [ayon_core.lib.StringTemplate(template_string).format(data)] *)
Variable StringTemplate_format : string -> value -> result string.

(** [node_name_from_template(template_string, context)]; [use_full_name]
    holds the function when the flag is set. *)
Definition node_name_from_template (template_string : string)
    (context : value) : outcome string :=
  use_full_name ←
    match import_construct_folder_full_name with
    | Imported construct_folder_full_name =>
        Done (Some construct_folder_full_name)
    | ModuleNotFound =>
        (* couldn't load the rvx custom core function *)
        Done None
    | ImportFails e => Fail e
    end;
  folder_entity ← lift (getitem context "folder");
  product ← lift (getitem context "product");
  product_name ← lift (getitem product "name");
  folder_entity ← lift (getitem context "folder");
  path ← lift (getitem folder_entity "path");
  hierarchy_parts ←
    match path with
    | PyStr path => Done (split "/" path)
    | _ => Fail (Exn (AttributeError "split"))
    end;
  hierarchy_parts ← pop_first hierarchy_parts;
  hierarchy_parts ← pop_last hierarchy_parts;
  full_name ←
    match use_full_name with
    | Some construct_folder_full_name =>
        project ← lift (getitem context "project");
        project_name ← lift (getitem project "name");
        lift (construct_folder_full_name project_name folder_entity
                                         hierarchy_parts)
    | None => lift (getitem folder_entity "name")
    end;
  product_entity ← lift (getitem context "product");
  product_name ← lift (getitem product_entity "name");
  product_type ← lift (getitem product_entity "productType");
  repre_entity ← lift (getitem context "representation");
  repre_cont ← lift (getitem repre_entity "context");
  asset_name ← lift (getitem folder_entity "name");
  folder_name ← lift (getitem folder_entity "name");
  ext ← lift (getitem repre_cont "representation");
  let formatting_data :=
    PyDict [(PyStr "asset_name", asset_name);
            (PyStr "asset_type", PyStr "asset");
            (PyStr "folder",
             PyDict [(PyStr "name", folder_name);
                     (PyStr "fullname", full_name)]);
            (PyStr "subset", product_name);
            (PyStr "product",
             PyDict [(PyStr "name", product_name);
                     (PyStr "type", product_type)]);
            (PyStr "family", product_type);
            (PyStr "ext", ext)] in
  lift (StringTemplate_format template_string formatting_data).

End WithHost.

End LibTemplate.

Module LibTemplateSpec.
Import Py Gaffer Loader PyFacts LibTemplate.

Section WithHost.
Variable StringTemplate_format : string -> value -> result string.

(** X24.  For a folder path that is a slash followed by the names of the
    parents and of the folder, joined by slashes, the hierarchy that
    [node_name_from_template] hands to [construct_folder_full_name] is the
    list of the parents: the call gives what it gives with a function that
    is handed that list whatever the path is. *)
Theorem node_name_from_template_hierarchy
    (construct : value -> value -> list string -> result value)
    (template_string : string) (context folder : value)
    (parents : list string) (name : string) :
  getitem context "folder" = Ok folder ->
  getitem folder "path"
  = Ok (PyStr ("/" +:+ join "/" (parents ++ [name]))) ->
  Forall (fun part => contains_char "/" part = false) (parents ++ [name]) ->
  node_name_from_template (Imported construct) StringTemplate_format
                          template_string context
  = node_name_from_template
      (Imported (fun project_name folder_entity _ =>
                   construct project_name folder_entity parents))
      StringTemplate_format template_string context.
Proof.
  intros Hfolder Hpath Hclean. unfold node_name_from_template.
  cbn [mbind outcome_bind]. rewrite Hfolder. cbn [lift mbind outcome_bind].
  destruct (lift (getitem context "product")) as [product|]; [| done].
  cbn [mbind outcome_bind].
  destruct (lift (getitem product "name")) as [product_name|]; [| done].
  cbn [mbind outcome_bind]. rewrite Hpath. cbn [lift mbind outcome_bind].
  change ("/" +:+ join "/" (parents ++ [name]))
    with ("" +:+ String "/" (join "/" (parents ++ [name]))).
  rewrite (split_append_sep "/" "" (join "/" (parents ++ [name])) eq_refl).
  rewrite split_join; [| by destruct parents | done].
  cbn [pop_first mbind outcome_bind].
  assert (pop_last (parents ++ [name]) = Done parents) as ->.
  { unfold pop_last. rewrite removelast_last. by destruct parents. }
  done.
Qed.

(** X25.  An exception of the import other than [ModuleNotFoundError]
    ends the call at once.  When the import gives the function or raises
    [ModuleNotFoundError], a folder path without a slash lets the second
    [pop] find the list empty: with the folder, its path and the name of the
    product in the context, the call raises [IndexError], whatever the
    template is and before the template is looked at. *)
Theorem node_name_from_template_no_slash (imported : import_outcome)
    (template_string : string) (context folder product product_name : value)
    (path : string) :
  (forall e, imported <> ImportFails e) ->
  getitem context "folder" = Ok folder ->
  getitem context "product" = Ok product ->
  getitem product "name" = Ok product_name ->
  getitem folder "path" = Ok (PyStr path) ->
  contains_char "/" path = false ->
  node_name_from_template imported StringTemplate_format
                          template_string context
  = Fail (IndexError "pop from empty list") /\
  forall e,
    node_name_from_template (ImportFails e) StringTemplate_format
                            template_string context
    = Fail e.
Proof.
  intros Himport Hfolder Hproduct Hname Hpath Hclean.
  split; [| done]. unfold node_name_from_template.
  assert (exists use_full_name,
            match imported with
            | Imported construct_folder_full_name =>
                Done (Some construct_folder_full_name)
            | ModuleNotFound => Done None
            | ImportFails e => Fail e
            end = Done use_full_name) as [use_full_name ->].
  { destruct imported as [f| |e]; [eauto | eauto | by destruct (Himport e)]. }
  cbn [mbind outcome_bind].
  rewrite Hfolder, Hproduct. cbn [lift mbind outcome_bind].
  rewrite Hname. cbn [lift mbind outcome_bind].
  rewrite Hpath. cbn [lift mbind outcome_bind].
  by rewrite (split_clean "/" path Hclean).
Qed.

End WithHost.

(** A context of the loader, and a host that writes the full name of a
    folder with underscores. *)
Definition folder_of (path : string) : value :=
  PyDict [(PyStr "name", PyStr "hero"); (PyStr "path", PyStr path)].

Definition context_of (path : string) : value :=
  PyDict [(PyStr "project", PyDict [(PyStr "name", PyStr "demo")]);
          (PyStr "folder", folder_of path);
          (PyStr "product",
           PyDict [(PyStr "name", PyStr "modelMain");
                   (PyStr "productType", PyStr "model")]);
          (PyStr "representation",
           PyDict [(PyStr "context",
                    PyDict [(PyStr "representation", PyStr "abc")])])].

Definition ref_construct (project_name folder_entity : value)
    (hierarchy_parts : list string) : result value :=
  name ← getitem folder_entity "name";
  match name with
  | PyStr name => Ok (PyStr (join "_" (hierarchy_parts ++ [name])))
  | _ => Raise (TypeError "name")
  end.

(** A host that puts the full name of the folder behind the template. *)
Definition ref_format (template_string : string) (data : value)
    : result string :=
  folder ← getitem data "folder";
  fullname ← getitem folder "fullname";
  match fullname with
  | PyStr fullname => Ok (template_string +:+ fullname)
  | _ => Raise (TypeError "fullname")
  end.

Lemma node_name_from_template_hierarchy_witness :
  node_name_from_template (Imported ref_construct) ref_format "load_"
                          (context_of "/assets/char/hero")
  = node_name_from_template
      (Imported (fun project_name folder_entity _ =>
                   ref_construct project_name folder_entity
                                 ["assets"; "char"]))
      ref_format "load_" (context_of "/assets/char/hero").
Proof.
  apply (node_name_from_template_hierarchy ref_format ref_construct "load_"
           (context_of "/assets/char/hero") (folder_of "/assets/char/hero")
           ["assets"; "char"] "hero").
  - reflexivity.
  - reflexivity.
  - by repeat constructor.
Defined.

(** The name that this host gives. *)
Example node_name_from_template_hero :
  node_name_from_template (Imported ref_construct) ref_format "load_"
                          (context_of "/assets/char/hero")
  = Done "load_assets_char_hero".
Proof. vm_compute. reflexivity. Qed.

Lemma node_name_from_template_no_slash_witness :
  node_name_from_template ModuleNotFound ref_format "load_" (context_of "hero")
  = Fail (IndexError "pop from empty list") /\
  forall e,
    node_name_from_template (ImportFails e) ref_format "load_"
                            (context_of "hero")
    = Fail e.
Proof.
  apply (node_name_from_template_no_slash ref_format ModuleNotFound "load_"
           (context_of "hero") (folder_of "hero")
           (PyDict [(PyStr "name", PyStr "modelMain");
                    (PyStr "productType", PyStr "model")])
           (PyStr "modelMain") "hero").
  - discriminate.
  - reflexivity.
  - reflexivity.
  - reflexivity.
  - reflexivity.
  - reflexivity.
Defined.

(** A module without the name: the call ends with the [ImportError] of the
    import, whatever the context is. *)
Example node_name_from_template_import_error :
  node_name_from_template
    (ImportFails (ImportError "cannot import name"))
    ref_format "load_" (context_of "/assets/char/hero")
  = Fail (ImportError "cannot import name").
Proof. reflexivity. Qed.

End LibTemplateSpec.

(** * The colour of a node from the settings, [api/lib.py] *)

Module LibColor.
Import Py Gaffer Loader.

(** [value.get(key, default)] for a string key. *)
Definition get (v : value) (key : string) (default : value) : result value :=
  match v with
  | PyDict items =>
      match dict_get key items with
      | Some x => Ok x
      | None => Ok default
      end
  | _ => Raise (AttributeError "get")
  end.

(** The characters of a string, as the items of a sequence. *)
Definition characters (s : string) : list value :=
  map (fun c => PyStr (String c "")) (list_ascii_of_string s).

(** [value[:3]], as the list of its items: a list or a string can be cut,
    a dict cannot take a slice for a key, and neither [None], a number nor a
    reference to a host object can be subscripted. *)
Definition slice3 (v : value) : result (list value) :=
  match v with
  | PyList items => Ok (firstn 3 items)
  | PyStr s => Ok (firstn 3 (characters s))
  | _ => Raise (TypeError "not subscriptable")
  end.

(** The items that [for entry in value] runs over: the items of a list,
    the keys of a dict, the characters of a string.  The settings are made
    of such values, of numbers and of [None], which are not iterable, and a
    reference to a host object is taken not to be either. *)
Definition iterate (v : value) : result (list value) :=
  match v with
  | PyList items => Ok items
  | PyDict items => Ok (map fst items)
  | PyStr s => Ok (characters s)
  | _ => Raise (TypeError "not iterable")
  end.

Section WithHost.
Variable Color3f : list value -> result value.

(** [get_current_context()] and [get_project_settings(project_name)] of the
    pipeline framework. *)
Variable get_current_context : result value.
Variable get_project_settings : value -> result value.

(** [s.lower()] *)
Variable lower : string -> string.

(** [value.lower()]: only a string has the method. *)
Definition lower_of (v : value) : result string :=
  match v with
  | PyStr s => Ok (lower s)
  | _ => Raise (AttributeError "lower")
  end.

Definition no_color_warning (product_type : string) : log_record :=
  {| log_level := WARNING;
     log_message := "No color selected for product type: ["
                    +:+ product_type +:+ "]";
     log_args := [] |}.

(** The loop over the entries of the colour list: the first entry of the
    product type ends it.  What the loop prints is left out. *)
Fixpoint color_loop (node : Node) (product_type : string)
    (col_list : list value) (registry : Registry)
    : Registry * list log_record * outcome unit :=
  match col_list with
  | [] => (registry, [no_color_warning product_type], Done ())
  | entry :: col_list =>
      match name ← lift (getitem entry "name");
            lift (lower_of name) with
      | Fail e => (registry, [], Fail e)
      | Done name =>
          if String.eqb (lower product_type) name
          then
            match color ← lift (getitem entry "color");
                  color ← lift (slice3 color);
                  set_node_color Color3f node color registry with
            | Fail e => (registry, [], Fail e)
            | Done registry => (registry, [], Done ())
            end
          else color_loop node product_type col_list registry
      end
  end.

(** [set_node_color_from_settings(node, product_type)] *)
Definition set_node_color_from_settings (node : Node) (product_type : string)
    (registry : Registry) : Registry * list log_record * outcome unit :=
  match context ← lift get_current_context;
        project_name ← lift (getitem context "project_name");
        settings ← lift (get_project_settings project_name);
        gaffer ← lift (get settings "gaffer" (PyDict []));
        load_settings ← lift (get gaffer "load" (PyDict []));
        product_colors ← lift (get load_settings "product_colors" (PyDict []));
        lift (get product_colors "color_list" (PyList [])) with
  | Fail e => (registry, [], Fail e)
  | Done col_list =>
      match iterate col_list with
      | Raise e => (registry, [], Fail (Exn e))
      | Ok col_list => color_loop node product_type col_list registry
      end
  end.

End WithHost.

End LibColor.

Module LibColorSpec.
Import Py Gaffer Loader LibColor.

Section WithHost.
Variable Color3f : list value -> result value.
Variable get_current_context : result value.
Variable get_project_settings : value -> result value.
Variable lower : string -> string.

(** An entry of the colour list for another product type. *)
Definition other_entry (product_type : string) (entry : value) : Prop :=
  exists name,
    getitem entry "name" = Ok (PyStr name) /\
    lower name <> lower product_type.

Lemma color_loop_skips (node : Node) (product_type : string)
    (before rest : list value) (registry : Registry) :
  Forall (other_entry product_type) before ->
  color_loop Color3f lower node product_type (before ++ rest) registry
  = color_loop Color3f lower node product_type rest registry.
Proof.
  induction 1 as [|entry before (name & Hname & Hother) _ IH]; [done |].
  cbn [app color_loop]. rewrite Hname. cbn [lift mbind outcome_bind lower_of].
  assert (String.eqb (lower product_type) (lower name) = false) as ->; [| done].
  apply String.eqb_neq. congruence.
Qed.

(** X26.  [set_node_color_from_settings] takes the colour of the first
    entry of the colour list whose name is the product type, letters of
    either case alike, and looks at no later entry.  A colour of three or
    more components is cut to its first three, which are registered as the
    colour of the node; a colour of fewer components fails the assertion of
    [set_node_color] and nothing is registered. *)
Theorem set_node_color_from_settings_first_match (node : Node)
    (product_type : string) (registry : Registry)
    (context project_name settings gaffer load_settings product_colors : value)
    (before after : list value) (entry : value) (name : string)
    (color : list value) :
  get_current_context = Ok context ->
  getitem context "project_name" = Ok project_name ->
  get_project_settings project_name = Ok settings ->
  get settings "gaffer" (PyDict []) = Ok gaffer ->
  get gaffer "load" (PyDict []) = Ok load_settings ->
  get load_settings "product_colors" (PyDict []) = Ok product_colors ->
  get product_colors "color_list" (PyList [])
  = Ok (PyList (before ++ entry :: after)) ->
  Forall (other_entry product_type) before ->
  getitem entry "name" = Ok (PyStr name) ->
  lower name = lower product_type ->
  getitem entry "color" = Ok (PyList color) ->
  set_node_color_from_settings Color3f get_current_context
    get_project_settings lower node product_type registry
  = if (length color <? 3)%nat
    then (registry, [],
          Fail (AssertionError "Color must be three float values"))
    else match Color3f (firstn 3 color) with
         | Ok c =>
             ((node_id node, "nodeGadget:color", c) :: registry, [], Done ())
         | Raise e => (registry, [], Fail (Exn e))
         end.
Proof.
  intros Hcontext Hproject Hsettings Hgaffer Hload Hcolors Hlist Hbefore Hname
    Hlower Hcolor.
  unfold set_node_color_from_settings.
  rewrite Hcontext. cbn [lift mbind outcome_bind].
  rewrite Hproject. cbn [lift mbind outcome_bind].
  rewrite Hsettings. cbn [lift mbind outcome_bind].
  rewrite Hgaffer. cbn [lift mbind outcome_bind].
  rewrite Hload. cbn [lift mbind outcome_bind].
  rewrite Hcolors. cbn [lift mbind outcome_bind].
  rewrite Hlist. cbn [lift iterate].
  rewrite (color_loop_skips node product_type before (entry :: after) registry
             Hbefore).
  cbn [color_loop]. rewrite Hname. cbn [lift mbind outcome_bind lower_of].
  rewrite Hlower, String.eqb_refl, Hcolor.
  cbn [lift mbind outcome_bind slice3]. unfold set_node_color.
  rewrite length_firstn.
  destruct (length color <? 3)%nat eqn:Hshort.
  - apply Nat.ltb_lt in Hshort.
    assert (Nat.eqb (3 `min` length color) 3 = false) as ->; [| done].
    apply Nat.eqb_neq. lia.
  - apply Nat.ltb_ge in Hshort.
    assert (Nat.eqb (3 `min` length color) 3 = true) as ->.
    { apply Nat.eqb_eq. lia. }
    cbn [negb]. by destruct (Color3f (firstn 3 color)).
Qed.

End WithHost.

(** Lower case for the letters [A] to [Z]. *)
Definition ref_lower (s : string) : string :=
  string_of_list_ascii
    (map (fun c => if in_range "A" "Z" c
                   then ascii_of_nat (nat_of_ascii c + 32) else c)
         (list_ascii_of_string s)).

(** Settings with a colour of four components for the models. *)
Definition model_entry : value :=
  PyDict [(PyStr "name", PyStr "Model");
          (PyStr "color",
           PyList [PyFloat 4600318932967904772; PyFloat 4605561122934164029;
                   PyFloat 4593167216759640424; PyFloat 4607182418800017408])].

Definition camera_entry : value :=
  PyDict [(PyStr "name", PyStr "camera"); (PyStr "color", PyList [])].

Definition color_settings : value :=
  PyDict [(PyStr "gaffer",
           PyDict [(PyStr "load",
                    PyDict [(PyStr "product_colors",
                             PyDict [(PyStr "color_list",
                                      PyList [camera_entry; model_entry;
                                              PyNone])])])])].

Lemma set_node_color_from_settings_first_match_witness :
  set_node_color_from_settings LoaderSpec.ref_Color3f
    (Ok (PyDict [(PyStr "project_name", PyStr "demo")]))
    (fun _ => Ok color_settings) ref_lower LoaderSpec.new_reader "model" []
  = ([(node_id LoaderSpec.new_reader, "nodeGadget:color",
       PyList [PyFloat 4600318932967904772; PyFloat 4605561122934164029;
               PyFloat 4593167216759640424])],
     [], Done ()).
Proof.
  apply (set_node_color_from_settings_first_match LoaderSpec.ref_Color3f
           (Ok (PyDict [(PyStr "project_name", PyStr "demo")]))
           (fun _ => Ok color_settings) ref_lower LoaderSpec.new_reader
           "model" []
           (PyDict [(PyStr "project_name", PyStr "demo")]) (PyStr "demo")
           color_settings
           (PyDict [(PyStr "load",
                     PyDict [(PyStr "product_colors",
                              PyDict [(PyStr "color_list",
                                       PyList [camera_entry; model_entry;
                                               PyNone])])])])
           (PyDict [(PyStr "product_colors",
                     PyDict [(PyStr "color_list",
                              PyList [camera_entry; model_entry; PyNone])])])
           (PyDict [(PyStr "color_list",
                     PyList [camera_entry; model_entry; PyNone])])
           [camera_entry] [PyNone] model_entry "Model"
           [PyFloat 4600318932967904772; PyFloat 4605561122934164029;
            PyFloat 4593167216759640424; PyFloat 4607182418800017408]).
  - reflexivity.
  - reflexivity.
  - reflexivity.
  - reflexivity.
  - reflexivity.
  - reflexivity.
  - reflexivity.
  - constructor; [| constructor]. exists "camera". split; [reflexivity |].
    vm_compute. discriminate.
  - reflexivity.
  - vm_compute. reflexivity.
  - reflexivity.
Defined.

End LibColorSpec.
